(** * bookmark-converter: the Chrome bookmark extractor and its SQLite store

    A shallow embedding of [main.go].  Go strings are byte sequences and are
    modelled by [string] (a list of 8-bit characters); a Go slice that is only
    appended to and ranged over is a [list]; [int] is [Z].  The operating
    system, the SQLite engine and the JSON decoder of the Go standard library
    are modelled by the small state machines of the first part of the file;
    the functions of [main.go] follow, under their own names. *)

From Stdlib Require Import ZArith Ascii String List Bool Lia.
From stdpp Require Import base option list strings pretty gmap.
Import ListNotations.
Local Open Scope string_scope.
Local Open Scope list_scope.

Set Default Proof Using "Type".

(** ** The bookmark structures of the Chrome file *)

(** [BookmarkItem]: a node of the bookmark tree.  The struct is recursive
    through the slice of its children. *)
#[local] Unset Elimination Schemes.
Inductive BookmarkItem : Type :=
  mkBookmarkItem {
    item_DateAdded : string;
    item_ID : string;
    item_Name : string;
    item_Type : string;
    item_URL : string;
    item_Children : list BookmarkItem
  }.
#[local] Set Elimination Schemes.

Record BookmarkFolder : Type :=
  mkBookmarkFolder {
    folder_Children : list BookmarkItem;
    folder_DateAdded : string;
    folder_DateModified : string;
    folder_ID : string;
    folder_Name : string;
    folder_Type : string
  }.

Record Roots : Type :=
  mkRoots {
    BookmarkBar : BookmarkFolder;
    Other : BookmarkFolder;
    Synced : BookmarkFolder
  }.

Record Bookmarks : Type :=
  mkBookmarks {
    bm_Roots : Roots;
    bm_Version : Z;
    bm_Checksum : string
  }.

(** [BookmarkRecord]: a row of the table as [GetAllBookmarks] scans it. *)
Record BookmarkRecord : Type :=
  mkBookmarkRecord {
    rec_Name : string;
    rec_URL : string
  }.

(** The induction principle of the nested type: a property of a node may
    use that it holds of every child. *)
Section BookmarkItem_induction.
Variable P : BookmarkItem -> Prop.
Hypothesis P_node :
  forall da id name ty url children,
    Forall P children -> P (mkBookmarkItem da id name ty url children).

Fixpoint BookmarkItem_forall_ind (item : BookmarkItem) : P item :=
  match item with
  | mkBookmarkItem da id name ty url children =>
      P_node da id name ty url children
        ((fix children_ok (l : list BookmarkItem) : Forall P l :=
            match l with
            | [] => @List.Forall_nil _ P
            | c :: l' =>
                @List.Forall_cons _ P c l' (BookmarkItem_forall_ind c) (children_ok l')
            end) children)
  end.
End BookmarkItem_induction.

(** ** extractBookmarks *)

(** One iteration of the loop of [extractBookmarks], as a function of the
    item: what the iteration appends to [result].  The recursive call on
    [item.Children] is the inner [fix], which is [extractBookmarks] itself
    (lemma [extractBookmarks_children]). *)
Fixpoint extractItem (item : BookmarkItem) : list BookmarkItem :=
  match item with
  | mkBookmarkItem _ _ _ ty _ children =>
      if String.eqb ty "url" then [item]
      else if String.eqb ty "folder" && (0 <? length children)%nat then
        (fix extractChildren (items : list BookmarkItem) : list BookmarkItem :=
           match items with
           | [] => []
           | c :: rest => extractItem c ++ extractChildren rest
           end) children
      else []
  end.

(** [extractBookmarks items]: the items of type url of the forest, folders
    flattened in place. *)
Fixpoint extractBookmarks (items : list BookmarkItem) : list BookmarkItem :=
  match items with
  | [] => []
  | item :: rest => extractItem item ++ extractBookmarks rest
  end.

(** The body of the [for _, item := range items] loop, on the accumulator
    [result], with the recursive call as the source writes it. *)
Definition extractBookmarks_step (result : list BookmarkItem) (item : BookmarkItem)
  : list BookmarkItem :=
  if String.eqb (item_Type item) "url" then
    result ++ [item]
  else if String.eqb (item_Type item) "folder" && (0 <? length (item_Children item))%nat then
    result ++ extractBookmarks (item_Children item)
  else result.

(** ** The Go runtime: errors, strings and formatting *)

(** A Go [error]: a message, or a cause wrapped under a prefix by
    [fmt.Errorf("prefix: %w", err)]. *)
Inductive error : Type :=
| ErrMsg (msg : string)
| ErrWrap (prefix : string) (cause : error).

(** [err.Error()]. *)
Fixpoint error_string (e : error) : string :=
  match e with
  | ErrMsg msg => msg
  | ErrWrap prefix cause => prefix ++ error_string cause
  end.

(** The result of a Go function that returns [(T, error)] with the value
    meaningful exactly when the error is nil. *)
Inductive result (A : Type) : Type :=
| Ok (a : A)
| Err (e : error).
Arguments Ok {A} a.
Arguments Err {A} e.

Definition is_Ok {A : Type} (r : result A) : bool :=
  match r with Ok _ => true | Err _ => false end.

(** [len(s)]: the number of bytes. *)
Definition len (s : string) : nat := String.length s.

(** [s[:n]] for [n <= len(s)]: the first [n] bytes. *)
Definition slice_to (s : string) (n : nat) : string := substring 0 n s.

Definition bytes_of (s : string) : list N := map N_of_ascii (list_ascii_of_string s).

(** The width in bytes of the encoding that starts with byte [c], followed
    by the bytes [rest], as [utf8.RuneCountInString] advances: the tables
    [first] and [acceptRanges] of package [unicode/utf8].  An invalid or
    short encoding advances by one byte. *)
Definition rune_width (c : N) (rest : list N) : nat :=
  let in_range (lo hi : N) (i : nat) : bool :=
    match nth_error rest i with
    | Some b => (lo <=? b)%N && (b <=? hi)%N
    | None => false
    end in
  let cont := in_range 128%N 191%N in
  if (c <? 128)%N then 1%nat
  else if (c <? 194)%N then 1%nat
  else if (c <? 224)%N then (if cont 0%nat then 2 else 1)%nat
  else if (c <? 240)%N then
    let second :=
      if (c =? 224)%N then in_range 160%N 191%N 0%nat
      else if (c =? 237)%N then in_range 128%N 159%N 0%nat
      else cont 0%nat in
    (if second && cont 1%nat then 3 else 1)%nat
  else if (c <? 245)%N then
    let second :=
      if (c =? 240)%N then in_range 144%N 191%N 0%nat
      else if (c =? 244)%N then in_range 128%N 143%N 0%nat
      else cont 0%nat in
    (if second && cont 1%nat && cont 2%nat then 4 else 1)%nat
  else 1%nat.

(** The loop of [utf8.RuneCountInString]; [skip] is the number of bytes
    still belonging to the rune counted last. *)
Fixpoint rune_count_from (skip : nat) (bs : list N) : nat :=
  match bs with
  | [] => 0%nat
  | c :: rest =>
      match skip with
      | S k => rune_count_from k rest
      | O => S (rune_count_from (rune_width c rest - 1) rest)
      end
  end.

(** [utf8.RuneCountInString(s)]: the number of characters of [s]. *)
Definition RuneCountInString (s : string) : nat := rune_count_from 0 (bytes_of s).

Fixpoint spaces (n : nat) : string :=
  match n with
  | O => ""
  | S k => String " " (spaces k)
  end.

(** The verb [%-Ns]: the string, then spaces up to a width of [N]
    characters ([fmt] measures the width in runes). *)
Definition pad_right (width : nat) (s : string) : string :=
  s ++ spaces (width - RuneCountInString s).

(** The verb [%d] for a length. *)
Definition fmt_d (n : nat) : string := pretty (N.of_nat n).

(** ** The JSON decoder of [encoding/json]

    [json.Unmarshal] first checks that the bytes are a JSON text and then
    decodes the text into the Go value.  The model starts from the value
    tree that a JSON text denotes: object members in the order of the text
    (a key may repeat), numbers as far as decoding into [int] looks at
    them, strings as the decoder reads them (escapes resolved, U+FFFD put
    for bytes that are not valid UTF-8). *)
Module Json.

Inductive number : Type :=
| Integer (z : Z)        (* a literal with neither fraction nor exponent *)
| Fractional.            (* a literal with a fraction or an exponent *)

#[local] Unset Elimination Schemes.
Inductive value : Type :=
| JNull
| JBool (b : bool)
| JNumber (n : number)
| JString (s : string)
| JArray (elements : list value)
| JObject (members : list (string * value)).
#[local] Set Elimination Schemes.

(** The bytes handed to [Unmarshal]: a JSON text, or anything else. *)
Inductive text : Type :=
| Malformed
| Document (doc : value).

Section value_induction.
Variable P : value -> Prop.
Hypothesis P_null : P JNull.
Hypothesis P_bool : forall b, P (JBool b).
Hypothesis P_number : forall n, P (JNumber n).
Hypothesis P_string : forall s, P (JString s).
Hypothesis P_array : forall elements, Forall P elements -> P (JArray elements).
Hypothesis P_object :
  forall members, Forall (fun m => P (snd m)) members -> P (JObject members).

Fixpoint value_forall_ind (v : value) : P v :=
  match v with
  | JNull => P_null
  | JBool b => P_bool b
  | JNumber n => P_number n
  | JString s => P_string s
  | JArray elements =>
      P_array elements
        ((fix each (l : list value) : Forall P l :=
            match l with
            | [] => @List.Forall_nil _ P
            | e :: l' => @List.Forall_cons _ P e l' (value_forall_ind e) (each l')
            end) elements)
  | JObject members =>
      P_object members
        ((fix each (l : list (string * value)) : Forall (fun m => P (snd m)) l :=
            match l with
            | [] => @List.Forall_nil _ (fun m => P (snd m))
            | m :: l' =>
                @List.Forall_cons _ (fun m => P (snd m)) m l'
                  (value_forall_ind (snd m)) (each l')
            end) members)
  end.
End value_induction.

(** The nesting depth of arrays and objects, which the scanner bounds. *)
Fixpoint nesting (v : value) : nat :=
  match v with
  | JArray elements =>
      S ((fix deepest (l : list value) : nat :=
            match l with
            | [] => 0%nat
            | e :: l' => Nat.max (nesting e) (deepest l')
            end) elements)
  | JObject members =>
      S ((fix deepest (l : list (string * value)) : nat :=
            match l with
            | [] => 0%nat
            | m :: l' => Nat.max (nesting (snd m)) (deepest l')
            end) members)
  | _ => 0%nat
  end.

Definition maxNestingDepth : N := 10000.

(** [foldName]: the key under which a struct field is found when no
    field has exactly the key's name.  ASCII letters fold to upper case;
    the Kelvin sign (E2 84 AA) folds to K and the long s (C5 BF) to S.
    No other rune folds to an ASCII letter, and every field name of this
    program is ASCII, so other bytes are left as they are. *)
Fixpoint fold_bytes (bs : list N) : list N :=
  match bs with
  | [] => []
  | 226%N :: 132%N :: 170%N :: rest => 75%N :: fold_bytes rest
  | 197%N :: 191%N :: rest => 83%N :: fold_bytes rest
  | c :: rest =>
      (if (97 <=? c)%N && (c <=? 122)%N then (c - 32)%N else c) :: fold_bytes rest
  end.

Definition foldName (name : string) : list N := fold_bytes (bytes_of name).

Definition same_fold (a b : string) : bool :=
  bool_decide (foldName a = foldName b).

(** The field that a key selects among the fields named [names] (the
    [json:] tags in the order of the struct): the field with exactly that
    name, else the first whose name folds like the key. *)
Definition find_field (names : list string) (key : string) : option string :=
  match List.find (String.eqb key) names with
  | Some f => Some f
  | None => List.find (same_fold key) names
  end.

Definition type_error (what into : string) : error :=
  ErrMsg ("json: cannot unmarshal " ++ what ++ " into Go value of type " ++ into).

Definition kind_of (v : value) : string :=
  match v with
  | JNull => "null"
  | JBool _ => "bool"
  | JNumber _ => "number"
  | JString _ => "string"
  | JArray _ => "array"
  | JObject _ => "object"
  end.

(** Decoding into a Go [string] that now holds [cur]. *)
Definition decode_string (v : value) (cur : string) : result string :=
  match v with
  | JNull => Ok cur
  | JString s => Ok s
  | _ => Err (type_error (kind_of v) "string")
  end.

(** Decoding into a Go [int] (64 bits) that now holds [cur]. *)
Definition decode_int (v : value) (cur : Z) : result Z :=
  match v with
  | JNull => Ok cur
  | JNumber (Integer z) =>
      if ((- 2 ^ 63 <=? z) && (z <? 2 ^ 63))%Z then Ok z
      else Err (type_error "number" "int")
  | _ => Err (type_error (kind_of v) "int")
  end.

(** Decoding the members of an object into a struct that now holds
    [cur], in the order of the text.  [set_field f v cur] decodes [v] into
    the field tagged [f].  A key that selects no field is skipped. *)
Definition decode_object {T : Type} (names : list string)
    (set_field : string -> value -> T -> result T)
  : list (string * value) -> T -> result T :=
  fix members (ms : list (string * value)) (cur : T) : result T :=
    match ms with
    | [] => Ok cur
    | m :: ms' =>
        match find_field names (fst m) with
        | Some f =>
            match set_field f (snd m) cur with
            | Ok cur' => members ms' cur'
            | Err e => Err e
            end
        | None => members ms' cur
        end
    end.

(** Decoding the elements of an array into a slice that now holds [cur]:
    element [i] is decoded into [cur[i]] when the slice has one, into a
    zero value otherwise, and the slice ends with the array.  The slice
    holds something only when the key of the field repeats in its object;
    what a longer, earlier value of the key has left in the backing array
    beyond the length of the slice is taken to be zero. *)
Definition decode_array {T : Type} (decode_elem : value -> T -> result T) (zero : T)
  : list value -> list T -> result (list T) :=
  fix elements (vs : list value) (cur : list T) : result (list T) :=
    match vs with
    | [] => Ok []
    | v :: vs' =>
        match decode_elem v (hd zero cur) with
        | Ok x =>
            match elements vs' (tl cur) with
            | Ok xs => Ok (x :: xs)
            | Err e => Err e
            end
        | Err e => Err e
        end
    end.

End Json.

(** ** The decoders of the structs, from their [json:] tags *)

Import Json.

Definition zero_BookmarkItem : BookmarkItem := mkBookmarkItem "" "" "" "" "" [].
Definition zero_BookmarkFolder : BookmarkFolder := mkBookmarkFolder [] "" "" "" "" "".
Definition zero_Roots : Roots :=
  mkRoots zero_BookmarkFolder zero_BookmarkFolder zero_BookmarkFolder.
Definition zero_Bookmarks : Bookmarks := mkBookmarks zero_Roots 0 "".

Definition BookmarkItem_tags : list string :=
  ["date_added"; "id"; "name"; "type"; "url"; "children"].
Definition BookmarkFolder_tags : list string :=
  ["children"; "date_added"; "date_modified"; "id"; "name"; "type"].
Definition Roots_tags : list string := ["bookmark_bar"; "other"; "synced"].
Definition Bookmarks_tags : list string := ["roots"; "version"; "checksum"].

Definition map_result {A B : Type} (f : A -> B) (r : result A) : result B :=
  match r with
  | Ok a => Ok (f a)
  | Err e => Err e
  end.

(** Decoding into a [BookmarkItem] that now holds [cur]. *)
Fixpoint decode_BookmarkItem (v : value) (cur : BookmarkItem) {struct v}
  : result BookmarkItem :=
  match v with
  | JNull => Ok cur
  | JObject ms =>
      decode_object BookmarkItem_tags
        (fun (f : string) (fv : value) (c : BookmarkItem) =>
           let '(mkBookmarkItem da id name ty url children) := c in
           if String.eqb f "date_added" then
             map_result (fun s => mkBookmarkItem s id name ty url children)
               (decode_string fv da)
           else if String.eqb f "id" then
             map_result (fun s => mkBookmarkItem da s name ty url children)
               (decode_string fv id)
           else if String.eqb f "name" then
             map_result (fun s => mkBookmarkItem da id s ty url children)
               (decode_string fv name)
           else if String.eqb f "type" then
             map_result (fun s => mkBookmarkItem da id name s url children)
               (decode_string fv ty)
           else if String.eqb f "url" then
             map_result (fun s => mkBookmarkItem da id name ty s children)
               (decode_string fv url)
           else
             map_result (fun cs => mkBookmarkItem da id name ty url cs)
               match fv with
               | JNull => Ok []
               | JArray es => decode_array decode_BookmarkItem zero_BookmarkItem es children
               | _ => Err (type_error (kind_of fv) "[]main.BookmarkItem")
               end)
        ms cur
  | _ => Err (type_error (kind_of v) "main.BookmarkItem")
  end.

(** Decoding into a [[]BookmarkItem] that now holds [cur]. *)
Definition decode_BookmarkItems (v : value) (cur : list BookmarkItem)
  : result (list BookmarkItem) :=
  match v with
  | JNull => Ok []
  | JArray es => decode_array decode_BookmarkItem zero_BookmarkItem es cur
  | _ => Err (type_error (kind_of v) "[]main.BookmarkItem")
  end.

Definition decode_BookmarkFolder (v : value) (cur : BookmarkFolder)
  : result BookmarkFolder :=
  match v with
  | JNull => Ok cur
  | JObject ms =>
      decode_object BookmarkFolder_tags
        (fun (f : string) (fv : value) (c : BookmarkFolder) =>
           let '(mkBookmarkFolder children da dm id name ty) := c in
           if String.eqb f "children" then
             map_result (fun cs => mkBookmarkFolder cs da dm id name ty)
               (decode_BookmarkItems fv children)
           else if String.eqb f "date_added" then
             map_result (fun s => mkBookmarkFolder children s dm id name ty)
               (decode_string fv da)
           else if String.eqb f "date_modified" then
             map_result (fun s => mkBookmarkFolder children da s id name ty)
               (decode_string fv dm)
           else if String.eqb f "id" then
             map_result (fun s => mkBookmarkFolder children da dm s name ty)
               (decode_string fv id)
           else if String.eqb f "name" then
             map_result (fun s => mkBookmarkFolder children da dm id s ty)
               (decode_string fv name)
           else
             map_result (fun s => mkBookmarkFolder children da dm id name s)
               (decode_string fv ty))
        ms cur
  | _ => Err (type_error (kind_of v) "main.BookmarkFolder")
  end.

Definition decode_Roots (v : value) (cur : Roots) : result Roots :=
  match v with
  | JNull => Ok cur
  | JObject ms =>
      decode_object Roots_tags
        (fun (f : string) (fv : value) (c : Roots) =>
           let '(mkRoots bar other synced) := c in
           if String.eqb f "bookmark_bar" then
             map_result (fun x => mkRoots x other synced) (decode_BookmarkFolder fv bar)
           else if String.eqb f "other" then
             map_result (fun x => mkRoots bar x synced) (decode_BookmarkFolder fv other)
           else
             map_result (fun x => mkRoots bar other x) (decode_BookmarkFolder fv synced))
        ms cur
  | _ => Err (type_error (kind_of v) "main.Roots")
  end.

Definition decode_Bookmarks (v : value) (cur : Bookmarks) : result Bookmarks :=
  match v with
  | JNull => Ok cur
  | JObject ms =>
      decode_object Bookmarks_tags
        (fun (f : string) (fv : value) (c : Bookmarks) =>
           let '(mkBookmarks roots version checksum) := c in
           if String.eqb f "roots" then
             map_result (fun x => mkBookmarks x version checksum) (decode_Roots fv roots)
           else if String.eqb f "version" then
             map_result (fun x => mkBookmarks roots x checksum) (decode_int fv version)
           else
             map_result (fun x => mkBookmarks roots version x) (decode_string fv checksum))
        ms cur
  | _ => Err (type_error (kind_of v) "main.Bookmarks")
  end.

(** [json.Unmarshal(data, &bookmarks)]: the scanner rejects what is not a
    JSON text and a text nested deeper than [maxNestingDepth]; the text is
    then decoded into the struct. *)
Definition json_Unmarshal (data : text) (cur : Bookmarks) : result Bookmarks :=
  match data with
  | Malformed => Err (ErrMsg "invalid character")
  | Document doc =>
      if (N.of_nat (nesting doc) <=? maxNestingDepth)%N then decode_Bookmarks doc cur
      else Err (ErrMsg "exceeded max depth")
  end.

(** ** The SQLite engine

    A database is a finite map from table names to tables; a table has its
    columns and its rows in rowid order, the order of a full scan.  Only the
    three statements of the program are given a syntax. *)
Module Sql.

Inductive sqlvalue : Type :=
| VNull
| VText (s : string).

#[global] Instance sqlvalue_eq_dec : EqDecision sqlvalue.
Proof. solve_decision. Defined.

Record column : Type :=
  mkColumn {
    col_name : string;
    col_type : string;
    col_notnull : bool;
    col_primary_key : bool
  }.

Definition row : Type := list sqlvalue.

Record table : Type :=
  mkTable {
    tbl_columns : list column;
    tbl_rows : list row
  }.

Inductive statement : Type :=
| CreateTableIfNotExists (name : string) (columns : list column)
| InsertOrReplace (name : string) (columns : list string)
    (* INSERT OR REPLACE INTO name(columns) VALUES(?, ..., ?) *)
| Select (columns : list string) (name : string).
    (* SELECT columns FROM name *)

(** The position of a column name in a list of names. *)
Fixpoint index_of (name : string) (names : list string) : option nat :=
  match names with
  | [] => None
  | n :: rest =>
      if String.eqb n name then Some 0%nat
      else option_map S (index_of name rest)
  end.

(** The row that an insert builds: for each column of the table the
    argument bound to it, NULL for a column that the statement leaves
    out. *)
Definition build_row (cols : list column) (named : list string) (args : list sqlvalue)
  : row :=
  map (fun c =>
         match index_of (col_name c) named with
         | Some i => nth i args VNull
         | None => VNull
         end) cols.

Definition violates_notnull (cols : list column) (r : row) : bool :=
  existsb (fun cv => col_notnull (fst cv) && bool_decide (snd cv = VNull))
    (combine cols r).

(** Two rows collide when they agree on a primary-key column (NULLs never
    collide). *)
Definition collides (cols : list column) (r1 r2 : row) : bool :=
  existsb (fun cvv =>
             col_primary_key (fst (fst cvv))
             && negb (bool_decide (snd (fst cvv) = VNull))
             && bool_decide (snd (fst cvv) = snd cvv))
    (combine (combine cols r1) r2).

(** INSERT OR REPLACE: the rows that collide with the new row are
    deleted, and the new row is added with a rowid above all others. *)
Definition insert_or_replace (t : table) (r : row) : table :=
  mkTable (tbl_columns t)
    (List.filter (fun old => negb (collides (tbl_columns t) old r)) (tbl_rows t) ++ [r]).

Definition database : Type := gmap string table.

(** Running a statement that writes. *)
Definition run (db : gmap string table) (q : statement) (args : list sqlvalue)
  : result (gmap string table) :=
  match q with
  | CreateTableIfNotExists name cols =>
      match db !! name with
      | Some _ => Ok db
      | None => Ok (<[name := mkTable cols []]> db)
      end
  | InsertOrReplace name named =>
      match db !! name with
      | None => Err (ErrMsg ("no such table: " ++ name))
      | Some t =>
          let r := build_row (tbl_columns t) named args in
          if violates_notnull (tbl_columns t) r then
            Err (ErrMsg "NOT NULL constraint failed")
          else Ok (<[name := insert_or_replace t r]> db)
      end
  | Select _ _ => Ok db
  end.

(** Compiling a statement: its table and its columns must exist (a CREATE
    names only new things). *)
Definition compile (db : gmap string table) (q : statement) : option error :=
  let check name named :=
    match db !! name with
    | None => Some (ErrMsg ("no such table: " ++ name))
    | Some t =>
        if forallb (fun n => bool_decide (is_Some (index_of n (map col_name (tbl_columns t)))))
             named
        then None
        else Some (ErrMsg "no such column")
    end in
  match q with
  | CreateTableIfNotExists _ _ => None
  | InsertOrReplace name named => check name named
  | Select named name => check name named
  end.

(** The rows of a SELECT: a full scan in rowid order, projected. *)
Definition select (t : table) (named : list string) : list row :=
  map (fun r =>
         map (fun n =>
                match index_of n (map col_name (tbl_columns t)) with
                | Some i => nth i r VNull
                | None => VNull
                end) named)
    (tbl_rows t).

End Sql.

(** ** The world of the process: environment, files, faults and output *)

Import Sql.

(** What a path holds: a regular file with its bytes (as far as the JSON
    scanner tells them apart), or a SQLite database. *)
Inductive file : Type :=
| RegularFile (data : text)
| DatabaseFile (db : gmap string table).

(** The calls on the database handle and its statements and cursors, as
    they are made (whether they succeed or not). *)
Inductive event : Type :=
| EvOpen (path : string)
| EvExec (path : string) (q : statement) (args : list sqlvalue)
| EvPrepare (path : string) (q : statement)
| EvStmtExec (path : string) (q : statement) (args : list sqlvalue)
| EvStmtClose (path : string)
| EvQuery (path : string) (q : statement)
| EvRowsClose (path : string)
| EvClose (path : string).

(** [faults] is the oracle of the environment: each call that the system or
    the disk may fail takes the next entry ([Some e]: the call fails with
    [e]); when the list is used up nothing fails any more. *)
Record World : Type :=
  mkWorld {
    environ : gmap string string;
    files : gmap string file;
    faults : list (option error);
    stdout : list string;
    stderr : list string;
    trace : list event
  }.

Definition set_files (f : gmap string file) (w : World) : World :=
  mkWorld (environ w) f (faults w) (stdout w) (stderr w) (trace w).
Definition set_faults (fs : list (option error)) (w : World) : World :=
  mkWorld (environ w) (files w) fs (stdout w) (stderr w) (trace w).
Definition write_stdout (s : string) (w : World) : World :=
  mkWorld (environ w) (files w) (faults w) (stdout w ++ [s]) (stderr w) (trace w).
Definition write_stderr (s : string) (w : World) : World :=
  mkWorld (environ w) (files w) (faults w) (stdout w) (stderr w ++ [s]) (trace w).
Definition record (ev : event) (w : World) : World :=
  mkWorld (environ w) (files w) (faults w) (stdout w) (stderr w) (trace w ++ [ev]).

Definition next_fault (w : World) : option error * World :=
  match faults w with
  | [] => (None, w)
  | f :: fs => (f, set_faults fs w)
  end.

Definition newline : string := String (ascii_of_nat 10) "".

Definition fmt_Println (s : string) : World -> World := write_stdout (s ++ newline).
Definition fmt_Printf (formatted : string) : World -> World := write_stdout formatted.

(** [log.Printf]: the message goes to the standard error, a newline added
    (the date and time that the logger puts first are left out). *)
Definition log_Printf (formatted : string) : World -> World :=
  write_stderr (formatted ++ newline).

(** How a function body ends: it returns, or the process is terminated by
    [os.Exit] inside it. *)
Inductive ending : Type :=
| Returned
| Exited (code : Z).

(** [log.Fatalf]: [log.Printf], then [os.Exit(1)]. *)
Definition log_Fatalf (formatted : string) (w : World) : ending * World :=
  (Exited 1, log_Printf formatted w).

(** [defer f(); rest] in a function without results: [f] runs when the
    function returns; it does not run when the process exits from inside
    [rest]. *)
Definition defer_in_main (f : World -> World) (rest : World -> ending * World)
    (w : World) : ending * World :=
  match rest w with
  | (Returned, w') => (Returned, f w')
  | (Exited code, w') => (Exited code, w')
  end.

(** [defer f(); rest] in a function that returns a value and cannot exit
    the process. *)
Definition defer {A : Type} (f : World -> World) (rest : World -> A * World)
    (w : World) : A * World :=
  let '(a, w') := rest w in (a, f w').

(** [os.Getenv]. *)
Definition os_Getenv (key : string) (w : World) : string :=
  default "" (environ w !! key).

(** [os.Stat(path)] succeeds exactly when the path exists. *)
Definition os_Stat_ok (path : string) (w : World) : bool :=
  bool_decide (is_Some (files w !! path)).

(** [os.IsNotExist(err)] for the error of [os.Stat(path)]: the world has
    neither directories nor permissions, so [os.Stat] fails only where
    nothing is at the path, and then with an error of that kind. *)
Definition os_Stat_IsNotExist (path : string) (w : World) : bool :=
  bool_decide (files w !! path = None).

(** [os.Remove(path)] of an existing path. *)
Definition os_Remove (path : string) (w : World) : option error * World :=
  match next_fault w with
  | (Some e, w') => (Some e, w')
  | (None, w') => (None, set_files (delete path (files w')) w')
  end.

(** [os.ReadFile(path)].  The bytes of a database file are not a JSON
    text. *)
Definition os_ReadFile (path : string) (w : World) : result text * World :=
  match next_fault w with
  | (Some e, w') => (Err e, w')
  | (None, w') =>
      match files w' !! path with
      | None => (Err (ErrMsg ("open " ++ path ++ ": no such file")), w')
      | Some (RegularFile data) => (Ok data, w')
      | Some (DatabaseFile _) => (Ok Malformed, w')
      end
  end.

(** ** Package [database/sql] over the SQLite driver *)

Record DB : Type := mkDB { db_path : string }.
Record Stmt : Type := mkStmt { stmt_path : string; stmt_query : statement }.
Record Rows : Type := mkRows { rows_path : string; rows_pending : list row }.

(** [sql.Open]: only the driver name is checked; the file is not touched
    before the first statement. *)
Definition sql_Open (driver path : string) (w : World) : result DB * World :=
  if String.eqb driver "sqlite" then (Ok (mkDB path), record (EvOpen path) w)
  else (Err (ErrMsg ("sql: unknown driver " ++ driver)), w).

(** The connection that a handle opens at its first use: where there is
    no file at the path it creates one, an empty database. *)
Definition connect (path : string) (w : World) : World :=
  match files w !! path with
  | None => set_files (<[path := DatabaseFile ∅]> (files w)) w
  | Some _ => w
  end.

(** The database that the engine reads at a path: the one of the file, an
    empty one where there is no file. *)
Definition database_at (path : string) (w : World) : result (gmap string table) :=
  match files w !! path with
  | None => Ok ∅
  | Some (DatabaseFile d) => Ok d
  | Some (RegularFile _) => Err (ErrMsg "file is not a database")
  end.

(** A statement that writes, on the connection of the handle and in its
    own transaction.  The connection is made first, so the file is there
    also when the statement fails; when it fails, by a fault or by an error
    of the engine, the database is as the connection found it. *)
Definition engine_write (path : string) (q : statement) (args : list sqlvalue)
    (w : World) : option error * World :=
  let '(fault, w0) := next_fault w in
  let w1 := connect path w0 in
  match fault with
  | Some e => (Some e, w1)
  | None =>
      match database_at path w1 with
      | Err e => (Some e, w1)
      | Ok d =>
          match compile d q with
          | Some e => (Some e, w1)
          | None =>
              match run d q args with
              | Err e => (Some e, w1)
              | Ok d' => (None, set_files (<[path := DatabaseFile d']> (files w1)) w1)
              end
          end
      end
  end.

Definition db_Exec (db : DB) (q : statement) (args : list sqlvalue) (w : World)
  : option error * World :=
  engine_write (db_path db) q args (record (EvExec (db_path db) q args) w).

(** [db.Prepare]: the driver keeps the text of the statement and compiles
    it when it is executed, so preparing only needs the connection and
    fails only when there is none to be had. *)
Definition db_Prepare (db : DB) (q : statement) (w : World) : result Stmt * World :=
  match next_fault (record (EvPrepare (db_path db) q) w) with
  | (Some e, w') => (Err e, w')
  | (None, w') => (Ok (mkStmt (db_path db) q), connect (db_path db) w')
  end.

Definition stmt_Exec (stmt : Stmt) (args : list sqlvalue) (w : World)
  : option error * World :=
  engine_write (stmt_path stmt) (stmt_query stmt) args
    (record (EvStmtExec (stmt_path stmt) (stmt_query stmt) args) w).

Definition stmt_Close (stmt : Stmt) : World -> World :=
  record (EvStmtClose (stmt_path stmt)).

(** [db.Query]: the statement is compiled and run on the connection; it
    reads, and writes nothing but the file that its connection makes where
    there is none. *)
Definition db_Query (db : DB) (q : statement) (w : World) : result Rows * World :=
  let '(fault, w0) := next_fault (record (EvQuery (db_path db) q) w) in
  let w1 := connect (db_path db) w0 in
  match fault with
  | Some e => (Err e, w1)
  | None =>
      match database_at (db_path db) w1 with
      | Err e => (Err e, w1)
      | Ok d =>
          match compile d q with
          | Some e => (Err e, w1)
          | None =>
              match q with
              | Select named name =>
                  (Ok (mkRows (db_path db)
                         (match d !! name with
                          | Some t => select t named
                          | None => []
                          end)), w1)
              | _ => (Ok (mkRows (db_path db) []), w1)
              end
          end
      end
  end.

Definition rows_Close (rows : Rows) : World -> World :=
  record (EvRowsClose (rows_path rows)).

Definition db_Close (db : DB) : World -> World :=
  record (EvClose (db_path db)).

(** Scanning a column into a [*string]. *)
Definition scan_string (v : sqlvalue) : result string :=
  match v with
  | VText s => Ok s
  | VNull => Err (ErrMsg "converting NULL to string is unsupported")
  end.


(** ** The functions of [main.go] *)

Section Program.

(** [filepath.Join] depends on the operating system (separator, cleaning
    of the joined path) and is taken as given. *)
Variable filepath_Join : list string -> string.

(** [getBookmarksFilePath]: the path of the bookmark file of Chrome. *)
Definition getBookmarksFilePath (w : World) : result string :=
  let userProfile := os_Getenv "USERPROFILE" w in
  if String.eqb userProfile "" then
    Err (ErrMsg "не удалось получить переменную окружения USERPROFILE")
  else
    let bookmarksPath :=
      filepath_Join [userProfile; "AppData"; "Local"; "Google"; "Chrome";
                     "User Data"; "Default"; "Bookmarks"] in
    if os_Stat_IsNotExist bookmarksPath w then
      Err (ErrMsg ("файл закладок не найден по пути: " ++ bookmarksPath))
    else Ok bookmarksPath.

End Program.

(** [parseBookmarks]: reads and decodes the bookmark file. *)
Definition parseBookmarks (filePath : string) (w : World) : result Bookmarks * World :=
  match os_ReadFile filePath w with
  | (Err err, w1) => (Err (ErrWrap "ошибка чтения файла закладок: " err), w1)
  | (Ok data, w1) =>
      match json_Unmarshal data zero_Bookmarks with
      | Err err => (Err (ErrWrap "ошибка парсинга JSON: " err), w1)
      | Ok bookmarks => (Ok bookmarks, w1)
      end
  end.

(** The columns of the table: [name TEXT NOT NULL, url TEXT NOT NULL
    PRIMARY KEY]. *)
Definition bookmarks_columns : list column :=
  [mkColumn "name" "TEXT" true false; mkColumn "url" "TEXT" true true].

Definition createTableSQL : statement :=
  CreateTableIfNotExists "bookmarks" bookmarks_columns.

Definition insertSQL : statement := InsertOrReplace "bookmarks" ["name"; "url"].

Definition selectSQL : statement := Select ["name"; "url"] "bookmarks".

(** [initDB]: removes the file of the database if there is one, opens the
    database and creates the table. *)
Definition initDB (dbPath : string) (w : World) : result DB * World :=
  let open_and_create (w0 : World) : result DB * World :=
    match sql_Open "sqlite" dbPath w0 with
    | (Err err, w1) => (Err (ErrWrap "ошибка открытия базы данных: " err), w1)
    | (Ok db, w1) =>
        match db_Exec db createTableSQL [] w1 with
        | (Some err, w2) => (Err (ErrWrap "ошибка создания таблицы: " err), db_Close db w2)
        | (None, w2) => (Ok db, w2)
        end
    end in
  if os_Stat_ok dbPath w then
    match os_Remove dbPath w with
    | (Some err, w0) =>
        (Err (ErrWrap "ошибка удаления существующей базы данных: " err), w0)
    | (None, w0) => open_and_create w0
    end
  else open_and_create w.

(** The arguments [bookmark.Name, bookmark.URL] of an execution of the
    prepared statement. *)
Definition insert_args (bookmark : BookmarkItem) : list sqlvalue :=
  [VText (item_Name bookmark); VText (item_URL bookmark)].

(** The loop of [saveBookmarksToDB]: one execution of the prepared
    statement for each bookmark, stopping at the first error. *)
Fixpoint saveBookmarksToDB_loop (stmt : Stmt) (bookmarks : list BookmarkItem) (w : World)
  : option error * World :=
  match bookmarks with
  | [] => (None, w)
  | bookmark :: rest =>
      match stmt_Exec stmt (insert_args bookmark) w with
      | (Some err, w1) => (Some (ErrWrap "ошибка вставки закладки: " err), w1)
      | (None, w1) => saveBookmarksToDB_loop stmt rest w1
      end
  end.

(** [saveBookmarksToDB]: stores the bookmarks in the table. *)
Definition saveBookmarksToDB (db : DB) (bookmarks : list BookmarkItem) (w : World)
  : option error * World :=
  match db_Prepare db insertSQL w with
  | (Err err, w1) => (Some (ErrWrap "ошибка подготовки SQL запроса: " err), w1)
  | (Ok stmt, w1) =>
      defer (stmt_Close stmt) (saveBookmarksToDB_loop stmt bookmarks) w1
  end.

(** [rows.Scan(&bookmark.Name, &bookmark.URL)] on the current row. *)
Definition rows_Scan (r : row) : result BookmarkRecord :=
  match r with
  | [name; url] =>
      match scan_string name with
      | Err e => Err e
      | Ok n =>
          match scan_string url with
          | Err e => Err e
          | Ok u => Ok (mkBookmarkRecord n u)
          end
      end
  | _ => Err (ErrMsg "sql: expected 2 destination arguments in Scan")
  end.

(** The loop [for rows.Next()] of [GetAllBookmarks] with the check of
    [rows.Err()] after it: a step of the cursor that fails ends the loop
    and is what [rows.Err()] reports. *)
Fixpoint GetAllBookmarks_loop (pending : list row) (bookmarks : list BookmarkRecord)
    (w : World) : result (list BookmarkRecord) * World :=
  match pending with
  | [] => (Ok bookmarks, w)
  | r :: rest =>
      match next_fault w with
      | (Some err, w1) => (Err (ErrWrap "ошибка при итерации по строкам: " err), w1)
      | (None, w1) =>
          match rows_Scan r with
          | Err err => (Err (ErrWrap "ошибка сканирования строки: " err), w1)
          | Ok bookmark => GetAllBookmarks_loop rest (bookmarks ++ [bookmark]) w1
          end
      end
  end.

(** [GetAllBookmarks]: all the rows of the table. *)
Definition GetAllBookmarks (db : DB) (w : World) : result (list BookmarkRecord) * World :=
  match db_Query db selectSQL w with
  | (Err err, w1) => (Err (ErrWrap "ошибка выполнения запроса: " err), w1)
  | (Ok rows, w1) =>
      defer (rows_Close rows) (GetAllBookmarks_loop (rows_pending rows) []) w1
  end.

Definition rule : string :=
  "-----------------------------------------------------------------------".

(** The format [| %-30s | %-40s |\n]. *)
Definition table_line (name url : string) : string :=
  "| " ++ pad_right 30 name ++ " | " ++ pad_right 40 url ++ " |" ++ newline.

(** The body of the loop of [PrintBookmarks]: the line of one bookmark. *)
Definition PrintBookmarks_line (bookmark : BookmarkRecord) : string :=
  let name := rec_Name bookmark in
  let name := if (27 <? len name)%nat then (slice_to name 24 ++ "...")%string else name in
  let url := rec_URL bookmark in
  let url := if (37 <? len url)%nat then (slice_to url 34 ++ "...")%string else url in
  table_line name url.

(** [PrintBookmarks]: prints the table of the stored bookmarks. *)
Definition PrintBookmarks (db : DB) (w : World) : option error * World :=
  match GetAllBookmarks db w with
  | (Err err, w1) => (Some (ErrWrap "ошибка получения закладок: " err), w1)
  | (Ok bookmarks, w1) =>
      let w2 := fmt_Println "Список закладок:" w1 in
      let w3 := fmt_Println rule w2 in
      let w4 := fmt_Printf (table_line "Название" "URL") w3 in
      let w5 := fmt_Println rule w4 in
      let w6 :=
        fold_left (fun (wi : World) (bookmark : BookmarkRecord) =>
                     fmt_Printf (PrintBookmarks_line bookmark) wi)
          bookmarks w5 in
      let w7 := fmt_Println rule w6 in
      let w8 :=
        fmt_Printf ("Всего закладок: " ++ fmt_d (length bookmarks) ++ newline) w7 in
      (None, w8)
  end.

Section Main.

Variable filepath_Join : list string -> string.

Definition main (w : World) : ending * World :=
  match getBookmarksFilePath filepath_Join w with
  | Err err => log_Fatalf ("Ошибка: " ++ error_string err) w
  | Ok bookmarksPath =>
      let w1 := fmt_Printf ("Найден файл закладок: " ++ bookmarksPath ++ newline) w in
      match parseBookmarks bookmarksPath w1 with
      | (Err err, w2) =>
          log_Fatalf ("Ошибка при парсинге закладок: " ++ error_string err) w2
      | (Ok bookmarks, w2) =>
          let dbPath := "bookmarks.db" in
          match initDB dbPath w2 with
          | (Err err, w3) =>
              log_Fatalf ("Ошибка инициализации базы данных: " ++ error_string err) w3
          | (Ok db, w3) =>
              defer_in_main (db_Close db)
                (fun w4 =>
                   let allBookmarks : list BookmarkItem := [] in
                   let allBookmarks :=
                     allBookmarks
                     ++ extractBookmarks (folder_Children (BookmarkBar (bm_Roots bookmarks))) in
                   let allBookmarks :=
                     allBookmarks
                     ++ extractBookmarks (folder_Children (Other (bm_Roots bookmarks))) in
                   let allBookmarks :=
                     allBookmarks
                     ++ extractBookmarks (folder_Children (Synced (bm_Roots bookmarks))) in
                   match saveBookmarksToDB db allBookmarks w4 with
                   | (Some err, w5) =>
                       log_Fatalf
                         ("Ошибка при сохранении закладок в базу данных: "
                          ++ error_string err) w5
                   | (None, w5) =>
                       let w6 :=
                         fmt_Printf
                           ("Успешно сохранено " ++ fmt_d (length allBookmarks)
                            ++ " закладок в базу данных " ++ dbPath ++ newline) w5 in
                       match PrintBookmarks db w6 with
                       | (Some err, w7) =>
                           (Returned,
                            log_Printf ("Ошибка при выводе закладок: " ++ error_string err) w7)
                       | (None, w7) => (Returned, w7)
                       end
                   end)
                w3
          end
      end
  end.

End Main.

(** ** Notions of the specification *)

(** Depth-first pre-order traversal: visit a node, then its children in
    order, before the next sibling.  Only the children of a folder are
    reachable. *)
Fixpoint visit (item : BookmarkItem) : list BookmarkItem :=
  item ::
    (if String.eqb (item_Type item) "folder" then
       (fix visit_all (items : list BookmarkItem) : list BookmarkItem :=
          match items with
          | [] => []
          | c :: rest => visit c ++ visit_all rest
          end) (item_Children item)
     else []).

Fixpoint dfs_preorder (items : list BookmarkItem) : list BookmarkItem :=
  match items with
  | [] => []
  | item :: rest => visit item ++ dfs_preorder rest
  end.

Definition is_url (item : BookmarkItem) : bool := String.eqb (item_Type item) "url".

(** The row of the table that holds a record. *)
Definition row_of_record (r : BookmarkRecord) : row :=
  [VText (rec_Name r); VText (rec_URL r)].

(** The store at [path] holds exactly the records [recs], in rowid order. *)
Definition stored (path : string) (recs : list BookmarkRecord) (w : World) : Prop :=
  files w !! path
  = Some (DatabaseFile {[ "bookmarks" := mkTable bookmarks_columns (map row_of_record recs) ]}).

(** The record that a bookmark is stored as. *)
Definition record_of (b : BookmarkItem) : BookmarkRecord :=
  mkBookmarkRecord (item_Name b) (item_URL b).

(** Insert-or-replace by key on the records: the record with the url of
    the bookmark goes, the bookmark comes last. *)
Definition upsert_record (recs : list BookmarkRecord) (b : BookmarkItem)
  : list BookmarkRecord :=
  List.filter (fun r => negb (String.eqb (rec_URL r) (item_URL b))) recs
  ++ [record_of b].

Definition upsert_all (recs : list BookmarkRecord) (batch : list BookmarkItem)
  : list BookmarkRecord :=
  fold_left upsert_record batch recs.

(** The world after the prepared statement has been executed for each
    bookmark of a batch in turn, whatever the executions answer. *)
Definition world_after (stmt : Stmt) (batch : list BookmarkItem) (w : World) : World :=
  fold_left (fun wi b => snd (stmt_Exec stmt (insert_args b) wi)) batch w.

(** Every execution of a batch succeeds, each in the world that the
    executions before it have left. *)
Definition all_succeed (stmt : Stmt) (batch : list BookmarkItem) (w : World) : Prop :=
  forall pre r post,
    batch = pre ++ r :: post ->
    fst (stmt_Exec stmt (insert_args r) (world_after stmt pre w)) = None.

(** The sequence initialize, upsert, queryAll, close of the specification,
    on the functions of the program. *)
Definition store_run (path : string) (batch : list BookmarkItem) (w : World)
  : result (list BookmarkRecord) * World :=
  match initDB path w with
  | (Err e, w1) => (Err e, w1)
  | (Ok db, w1) =>
      match saveBookmarksToDB db batch w1 with
      | (Some e, w2) => (Err e, db_Close db w2)
      | (None, w2) =>
          let '(r, w3) := GetAllBookmarks db w2 in (r, db_Close db w3)
      end
  end.

(** The executions of prepared statements in a trace, and the number of
    times a database handle is closed. *)
Definition stmt_execs (tr : list event) : list event :=
  List.filter (fun ev => match ev with EvStmtExec _ _ _ => true | _ => false end) tr.

Definition closes (path : string) (tr : list event) : nat :=
  length (List.filter (fun ev => match ev with
                                 | EvClose p => String.eqb p path
                                 | _ => false
                                 end) tr).

Definition opens (path : string) (tr : list event) : nat :=
  length (List.filter (fun ev => match ev with
                                 | EvOpen p => String.eqb p path
                                 | _ => false
                                 end) tr).

(** The events of a query: they open and close no handle and execute no
    prepared statement. *)
Definition is_query_event (ev : event) : bool :=
  match ev with
  | EvQuery _ _ | EvRowsClose _ => true
  | _ => false
  end.

(** What the decoder accepts: a value is fit for a field when it is null
    or of the JSON type of the field; in an object only the members whose
    key selects a field matter. *)
Definition fits_string (v : value) : bool :=
  match v with JNull | JString _ => true | _ => false end.

Definition fits_int (v : value) : bool :=
  match v with
  | JNull => true
  | JNumber (Integer z) => ((- 2 ^ 63 <=? z) && (z <? 2 ^ 63))%Z
  | _ => false
  end.

Definition fits_object (names : list string) (fits_field : string -> value -> bool)
    (v : value) : bool :=
  match v with
  | JNull => true
  | JObject ms =>
      forallb (fun m => match find_field names (fst m) with
                        | Some f => fits_field f (snd m)
                        | None => true
                        end) ms
  | _ => false
  end.

Fixpoint fits_BookmarkItem (v : value) : bool :=
  match v with
  | JNull => true
  | JObject ms =>
      forallb (fun m => match find_field BookmarkItem_tags (fst m) with
                        | Some f =>
                            if String.eqb f "children" then
                              match snd m with
                              | JNull => true
                              | JArray es => forallb fits_BookmarkItem es
                              | _ => false
                              end
                            else fits_string (snd m)
                        | None => true
                        end) ms
  | _ => false
  end.

Definition fits_BookmarkItems (v : value) : bool :=
  match v with
  | JNull => true
  | JArray es => forallb fits_BookmarkItem es
  | _ => false
  end.

Definition fits_BookmarkFolder : value -> bool :=
  fits_object BookmarkFolder_tags
    (fun f fv => if String.eqb f "children" then fits_BookmarkItems fv else fits_string fv).

Definition fits_Roots : value -> bool :=
  fits_object Roots_tags (fun _ fv => fits_BookmarkFolder fv).

Definition fits_Bookmarks : value -> bool :=
  fits_object Bookmarks_tags
    (fun f fv =>
       if String.eqb f "roots" then fits_Roots fv
       else if String.eqb f "version" then fits_int fv
       else fits_string fv).

Definition accepted (data : text) : bool :=
  match data with
  | Malformed => false
  | Document doc => (N.of_nat (nesting doc) <=? maxNestingDepth)%N && fits_Bookmarks doc
  end.

(** The input shape that the specification describes, with the names that
    the fields have in the file: every field is required except
    [date_modified], a node is a folder or a url leaf. *)
Definition member (key : string) (ms : list (string * value)) : option value :=
  option_map snd (List.find (fun m => String.eqb (fst m) key) ms).

Definition required (ms : list (string * value)) (key : string) (shape : value -> bool)
  : bool :=
  match member key ms with
  | Some v => shape v
  | None => false
  end.

Definition optional (ms : list (string * value)) (key : string) (shape : value -> bool)
  : bool :=
  match member key ms with
  | Some v => shape v
  | None => true
  end.

Definition is_string (v : value) : bool :=
  match v with JString _ => true | _ => false end.

Definition is_the_string (s : string) (v : value) : bool :=
  match v with JString s' => String.eqb s' s | _ => false end.

Definition is_int (v : value) : bool :=
  match v with JNumber (Integer _) => true | _ => false end.

Fixpoint spec_Node (v : value) : bool :=
  match v with
  | JObject ms =>
      required ms "date_added" is_string
      && required ms "id" is_string
      && required ms "name" is_string
      && ((required ms "type" (is_the_string "url") && required ms "url" is_string)
          || (required ms "type" (is_the_string "folder")
              && optional ms "date_modified" is_string
              && (fix children (l : list (string * value)) : bool :=
                    match l with
                    | [] => false
                    | m :: l' =>
                        if String.eqb (fst m) "children" then
                          match snd m with
                          | JArray es => forallb spec_Node es
                          | _ => false
                          end
                        else children l'
                    end) ms))
  | _ => false
  end.

Definition spec_Folder (v : value) : bool :=
  match v with
  | JObject ms =>
      required ms "children"
        (fun c => match c with JArray es => forallb spec_Node es | _ => false end)
      && required ms "date_added" is_string
      && optional ms "date_modified" is_string
      && required ms "id" is_string
      && required ms "name" is_string
      && required ms "type" (is_the_string "folder")
  | _ => false
  end.

Definition spec_RootSet (v : value) : bool :=
  match v with
  | JObject ms =>
      required ms "roots"
        (fun r => match r with
                  | JObject rs =>
                      required rs "bookmark_bar" spec_Folder
                      && required rs "other" spec_Folder
                      && required rs "synced" spec_Folder
                  | _ => false
                  end)
      && required ms "version" is_int
      && required ms "checksum" is_string
  | _ => false
  end.

(** The last occurrence of each url of a batch, in the order of the batch. *)
Fixpoint last_occurrences (batch : list BookmarkItem) : list BookmarkRecord :=
  match batch with
  | [] => []
  | b :: rest =>
      if existsb (fun b' => String.eqb (item_URL b') (item_URL b)) rest
      then last_occurrences rest
      else record_of b :: last_occurrences rest
  end.

(** The url of a record is the url of some bookmark of a batch. *)
Definition url_in (batch : list BookmarkItem) (r : BookmarkRecord) : bool :=
  existsb (fun b => String.eqb (item_URL b) (rec_URL r)) batch.

(** The rows that a query of the table finds at a path. *)
Definition rows_at (path : string) (w : World) : list row :=
  match database_at path w with
  | Ok d =>
      match d !! "bookmarks" with
      | Some t => select t ["name"; "url"]
      | None => []
      end
  | Err _ => []
  end.

(** What a function may change when it works on the database at [path]: the
    file at that path, the faults still to come, and the trace, which only
    grows.  The environment, the output and every other file stay. *)
Definition only_database (path : string) (w w' : World) : Prop :=
  environ w' = environ w /\ stdout w' = stdout w /\ stderr w' = stderr w
  /\ (forall q : string, q <> path -> files w' !! q = files w !! q)
  /\ exists evs : list event, trace w' = trace w ++ evs.

(** The string has only bytes below 128: every character is one byte. *)
Definition is_ascii (s : string) : bool :=
  forallb (fun c => (c <? 128)%N) (bytes_of s).

(** [utf8.ValidString]: every character of the string is a well-formed
    encoding.  These are the strings that a JSON text can denote: the
    decoder puts U+FFFD for the bytes of a string that are not. *)
Fixpoint valid_from (skip : nat) (bs : list N) : bool :=
  match bs with
  | [] => true
  | c :: rest =>
      match skip with
      | S k => valid_from k rest
      | O =>
          if (c <? 128)%N then valid_from 0 rest
          else match rune_width c rest with
               | 1%nat => false
               | wd => valid_from (wd - 1) rest
               end
      end
  end.

Definition ValidString (s : string) : bool := valid_from 0 (bytes_of s).

Fixpoint valid_BookmarkItem (item : BookmarkItem) : bool :=
  match item with
  | mkBookmarkItem da id name ty url children =>
      ValidString da && ValidString id && ValidString name && ValidString ty
      && ValidString url
      && (fix valid_all (items : list BookmarkItem) : bool :=
            match items with
            | [] => true
            | c :: rest => valid_BookmarkItem c && valid_all rest
            end) children
  end.

Definition valid_BookmarkFolder (f : BookmarkFolder) : bool :=
  forallb valid_BookmarkItem (folder_Children f)
  && ValidString (folder_DateAdded f) && ValidString (folder_DateModified f)
  && ValidString (folder_ID f) && ValidString (folder_Name f)
  && ValidString (folder_Type f).

Definition valid_Bookmarks (b : Bookmarks) : bool :=
  valid_BookmarkFolder (BookmarkBar (bm_Roots b))
  && valid_BookmarkFolder (Other (bm_Roots b))
  && valid_BookmarkFolder (Synced (bm_Roots b))
  && ValidString (bm_Checksum b).

(** The JSON object that the tags of a struct describe, as [json.Marshal]
    writes it: every field under its tag, a field tagged [omitempty] left
    out when it is empty. *)
Fixpoint render_BookmarkItem (item : BookmarkItem) : value :=
  match item with
  | mkBookmarkItem da id name ty url children =>
      JObject
        ([("date_added", JString da); ("id", JString id); ("name", JString name);
          ("type", JString ty)]
         ++ (if String.eqb url "" then [] else [("url", JString url)])
         ++ match children with
            | [] => []
            | _ :: _ =>
                [("children",
                  JArray ((fix render_all (items : list BookmarkItem) : list value :=
                             match items with
                             | [] => []
                             | c :: rest => render_BookmarkItem c :: render_all rest
                             end) children))]
            end)
  end.

Definition render_BookmarkFolder (f : BookmarkFolder) : value :=
  JObject
    ([("children", JArray (map render_BookmarkItem (folder_Children f)));
      ("date_added", JString (folder_DateAdded f))]
     ++ (if String.eqb (folder_DateModified f) "" then []
         else [("date_modified", JString (folder_DateModified f))])
     ++ [("id", JString (folder_ID f)); ("name", JString (folder_Name f));
         ("type", JString (folder_Type f))]).

Definition render_Roots (r : Roots) : value :=
  JObject [("bookmark_bar", render_BookmarkFolder (BookmarkBar r));
           ("other", render_BookmarkFolder (Other r));
           ("synced", render_BookmarkFolder (Synced r))].

Definition render_Bookmarks (b : Bookmarks) : value :=
  JObject [("roots", render_Roots (bm_Roots b));
           ("version", JNumber (Integer (bm_Version b)));
           ("checksum", JString (bm_Checksum b))].

(** ** Example data *)

(** A join with the separator of Windows: what [filepath.Join] gives there
    on components that are already clean. *)
Definition windows_Join (elems : list string) : string := String.concat "\" elems.

Definition example_url (name url : string) : BookmarkItem :=
  mkBookmarkItem "13311432144000001" "2" name "url" url [].

Definition example_folder (name : string) (children : list BookmarkItem) : BookmarkItem :=
  mkBookmarkItem "13311432144000000" "1" name "folder" "" children.

(** The two records of the worked example of the specification. *)
Definition example_X1 : BookmarkItem := example_url "X1" "http://x".
Definition example_X2 : BookmarkItem := example_url "X2" "http://x".

(** A world where an earlier run has left a database with one row. *)
Definition example_stale_db : gmap string table :=
  {[ "bookmarks" := mkTable bookmarks_columns [[VText "Old"; VText "http://old"]] ]}.

Definition example_world (fs : list (option error)) : World :=
  mkWorld ∅ {[ "bookmarks.db" := DatabaseFile example_stale_db ]} fs [] [] [].

(** A world whose only file is a bookmark file with the given bytes. *)
Definition example_file_world (data : text) : World :=
  mkWorld ∅ {[ "Bookmarks" := RegularFile data ]} [] [] [] [].

(** The forest of the worked example of the specification as a bookmark
    file: folder F with leaf A and folder G with leaf B, then leaf C, on the
    bookmark bar; a second bookmark of the url of A among the other
    bookmarks; no synced bookmark. *)
Definition json_url (name url : string) : value :=
  JObject [("date_added", JString "13311432144000001"); ("id", JString "2");
           ("name", JString name); ("type", JString "url"); ("url", JString url)].

Definition json_folder (name : string) (children : list value) : value :=
  JObject [("children", JArray children); ("date_added", JString "13311432144000000");
           ("id", JString "1"); ("name", JString name); ("type", JString "folder")].

Definition example_document : value :=
  JObject
    [("checksum", JString "0123");
     ("roots",
      JObject
        [("bookmark_bar",
          json_folder "Bookmarks bar"
            [json_folder "F" [json_url "A" "http://a";
                              json_folder "G" [json_url "B" "http://b"]];
             json_url "C" "http://c"]);
         ("other", json_folder "Other bookmarks" [json_url "A again" "http://a"]);
         ("synced", json_folder "Mobile bookmarks" [])]);
     ("version", JNumber (Integer 1))].

(** A bookmark file with every field of the shape of the specification,
    for the version that is given. *)
Definition example_versioned (version : value) : value :=
  JObject
    [("checksum", JString "0123");
     ("roots",
      JObject
        [("bookmark_bar", json_folder "Bookmarks bar" [json_url "A" "http://a"]);
         ("other", json_folder "Other bookmarks" []);
         ("synced", json_folder "Mobile bookmarks" [])]);
     ("version", version)].

Definition example_profile : string := "C:\Users\u".

Definition example_bookmarks_path : string :=
  windows_Join [example_profile; "AppData"; "Local"; "Google"; "Chrome";
                "User Data"; "Default"; "Bookmarks"].

(** The world of a run of the program on that file, with the faults that
    the environment will answer. *)
Definition example_main_world (fs : list (option error)) : World :=
  mkWorld {[ "USERPROFILE" := example_profile ]}
    {[ example_bookmarks_path := RegularFile (Document example_document) ]}
    fs [] [] [].

(** The read of the file, the creation of the table and the preparation of
    the insert succeed; the first execution of the insert fails. *)
Definition example_disk_full : list (option error) :=
  [None; None; None; Some (ErrMsg "database or disk is full")].

(** The name of a bookmark of [main_test.go]: 19 characters, 35 bytes. *)
Definition example_cyrillic_name : string := "Тестовая закладка 1".

(** * Properties *)

(** ** Extraction *)

Lemma extractBookmarks_children (item : BookmarkItem) :
  extractItem item =
    if String.eqb (item_Type item) "url" then [item]
    else if String.eqb (item_Type item) "folder" && (0 <? length (item_Children item))%nat
         then extractBookmarks (item_Children item)
         else [].
Proof.
  destruct item as [da id name ty url children]; simpl.
  destruct (String.eqb ty "url"); [reflexivity|].
  destruct (String.eqb ty "folder" && (0 <? length children)%nat); [|reflexivity].
  induction children as [|c l IH]; simpl; [reflexivity|].
  now rewrite IH.
Qed.

(** The function is the loop of the source: a left fold of the loop body
    from the nil slice. *)
Lemma extractBookmarks_loop (items : list BookmarkItem) :
  extractBookmarks items = fold_left extractBookmarks_step items [].
Proof.
  enough (H : forall acc, fold_left extractBookmarks_step items acc
                          = acc ++ extractBookmarks items)
    by (now rewrite H).
  induction items as [|item rest IH]; intros acc; simpl.
  - now rewrite app_nil_r.
  - rewrite IH, extractBookmarks_children. unfold extractBookmarks_step.
    destruct (String.eqb (item_Type item) "url").
    + now rewrite <- app_assoc.
    + destruct (String.eqb (item_Type item) "folder"
                && (0 <? length (item_Children item))%nat).
      * now rewrite <- app_assoc.
      * reflexivity.
Qed.

Lemma extractBookmarks_app (l1 l2 : list BookmarkItem) :
  extractBookmarks (l1 ++ l2) = extractBookmarks l1 ++ extractBookmarks l2.
Proof.
  induction l1 as [|item l1 IH]; simpl; [reflexivity|].
  now rewrite IH, app_assoc.
Qed.

Lemma visit_children (item : BookmarkItem) :
  visit item =
    item :: (if String.eqb (item_Type item) "folder"
             then dfs_preorder (item_Children item) else []).
Proof.
  destruct item as [da id name ty url children]; simpl.
  destruct (String.eqb ty "folder"); reflexivity.
Qed.

Lemma filter_is_url_app (l1 l2 : list BookmarkItem) :
  List.filter is_url (l1 ++ l2) = List.filter is_url l1 ++ List.filter is_url l2.
Proof. apply List.filter_app. Qed.

Lemma extractItem_preorder (item : BookmarkItem) :
  extractItem item = List.filter is_url (visit item).
Proof.
  induction item as [da id name ty url children IH] using BookmarkItem_forall_ind.
  assert (Hall : extractBookmarks children = List.filter is_url (dfs_preorder children)).
  { induction IH as [|c l Hc _ IHl]; simpl; [reflexivity|].
    now rewrite filter_is_url_app, Hc, IHl. }
  rewrite extractBookmarks_children, visit_children. simpl.
  unfold is_url at 1; simpl.
  destruct (String.eqb ty "url") eqn:Hurl.
  - apply String.eqb_eq in Hurl; subst ty. reflexivity.
  - destruct (String.eqb ty "folder") eqn:Hf; simpl; [|reflexivity].
    destruct children as [|c l]; [reflexivity|].
    exact Hall.
Qed.

Lemma extractBookmarks_preorder (items : list BookmarkItem) :
  extractBookmarks items = List.filter is_url (dfs_preorder items).
Proof.
  induction items as [|item rest IH]; simpl; [reflexivity|].
  now rewrite filter_is_url_app, extractItem_preorder, IH.
Qed.

Lemma extractBookmarks_only_urls (items : list BookmarkItem) :
  Forall (fun b => item_Type b = "url") (extractBookmarks items).
Proof.
  rewrite extractBookmarks_preorder.
  apply List.Forall_forall. intros b Hb.
  apply List.filter_In in Hb as [_ Hb].
  now apply String.eqb_eq in Hb.
Qed.

Lemma extractBookmarks_url_node (da id name url : string)
    (children rest : list BookmarkItem) :
  extractBookmarks (mkBookmarkItem da id name "url" url children :: rest)
  = mkBookmarkItem da id name "url" url children :: extractBookmarks rest.
Proof. reflexivity. Qed.

(** C1. [extractBookmarks] returns exactly the nodes of type url that the
    depth-first pre-order traversal of the forest reaches, in the order of
    the traversal and as often as it reaches them (the output of a
    concatenation is the concatenation of the outputs, nothing is merged);
    every entry has type url, so none comes from a folder; a node of type
    url contributes itself once, whatever its children; the empty sequence
    gives the empty sequence. *)
Theorem extractBookmarks_url_leaves_in_preorder :
  (forall items : list BookmarkItem,
      extractBookmarks items = List.filter is_url (dfs_preorder items))
  /\ (forall items : list BookmarkItem,
         Forall (fun b => item_Type b = "url") (extractBookmarks items))
  /\ (forall l1 l2 : list BookmarkItem,
         extractBookmarks (l1 ++ l2) = extractBookmarks l1 ++ extractBookmarks l2)
  /\ (forall (da id name url : string) (children rest : list BookmarkItem),
         extractBookmarks (mkBookmarkItem da id name "url" url children :: rest)
         = mkBookmarkItem da id name "url" url children :: extractBookmarks rest)
  /\ extractBookmarks [] = [].
Proof.
  split; [exact extractBookmarks_preorder|].
  split; [exact extractBookmarks_only_urls|].
  split; [exact extractBookmarks_app|].
  split; [exact extractBookmarks_url_node|reflexivity].
Qed.

Lemma extractItem_skipped (n : BookmarkItem) :
  (item_Type n = "folder" /\ item_Children n = [])
  \/ (item_Type n <> "folder" /\ item_Type n <> "url") ->
  extractItem n = [].
Proof.
  intros H. rewrite extractBookmarks_children.
  destruct H as [[Hty Hch]|[Hnf Hnu]].
  - rewrite Hty, Hch. reflexivity.
  - apply String.eqb_neq in Hnf, Hnu. now rewrite Hnf, Hnu.
Qed.

(** C6. A folder without children, and a node whose type is neither
    "folder" nor "url", contributes no record wherever it stands in the
    sequence, whatever its other fields hold; [extractBookmarks] is a total
    function, so no error can be raised. *)
Theorem extractBookmarks_skips_empty_and_unknown
    (n : BookmarkItem) (before after : list BookmarkItem) :
  (item_Type n = "folder" /\ item_Children n = [])
  \/ (item_Type n <> "folder" /\ item_Type n <> "url") ->
  extractBookmarks (before ++ n :: after)
  = extractBookmarks before ++ extractBookmarks after.
Proof.
  intros H. rewrite extractBookmarks_app. simpl.
  now rewrite (extractItem_skipped n H).
Qed.

(** ** The store *)

Lemma next_fault_frame (w : World) :
  let w' := snd (next_fault w) in
  files w' = files w /\ trace w' = trace w /\ stdout w' = stdout w
  /\ stderr w' = stderr w /\ environ w' = environ w.
Proof. unfold next_fault. destruct (faults w); simpl; auto. Qed.

Lemma next_fault_none (w : World) :
  faults w = [] -> next_fault w = (None, w).
Proof. unfold next_fault. now intros ->. Qed.

(** *** The connection *)

Lemma connect_frame (path : string) (w : World) :
  let w' := connect path w in
  trace w' = trace w /\ stdout w' = stdout w /\ stderr w' = stderr w
  /\ environ w' = environ w /\ faults w' = faults w.
Proof. unfold connect. destruct (files w !! path); simpl; auto. Qed.

(** Where there is a file the connection changes nothing. *)
Lemma connect_existing (path : string) (w : World) :
  is_Some (files w !! path) -> connect path w = w.
Proof. unfold connect. now intros [f ->]. Qed.

Lemma connect_files (path : string) (w : World) :
  files (connect path w)
  = match files w !! path with
    | None => <[path := DatabaseFile ∅]> (files w)
    | Some _ => files w
    end.
Proof. unfold connect. now destruct (files w !! path). Qed.

Lemma connect_other (path q : string) (w : World) :
  q <> path -> files (connect path w) !! q = files w !! q.
Proof.
  intros Hne. rewrite connect_files.
  destruct (files w !! path); [reflexivity|].
  now apply lookup_insert_ne.
Qed.

Lemma connect_is_Some (path : string) (w : World) :
  is_Some (files (connect path w) !! path).
Proof.
  rewrite connect_files. destruct (files w !! path) as [f|] eqn:Hp.
  - rewrite Hp. now exists f.
  - rewrite lookup_insert_eq. now eexists.
Qed.

Lemma database_at_connect (path : string) (w : World) :
  database_at path (connect path w) = database_at path w.
Proof.
  unfold database_at. rewrite connect_files.
  destruct (files w !! path) as [f|] eqn:Hp.
  - now rewrite Hp.
  - now rewrite lookup_insert_eq.
Qed.

Lemma set_files_connect (fs : gmap string file) (path : string) (w : World) :
  set_files fs (connect path w) = set_files fs w.
Proof. unfold connect. now destruct (files w !! path). Qed.

Lemma insert_connect (path : string) (f : file) (w : World) :
  <[path := f]> (files (connect path w)) = <[path := f]> (files w).
Proof.
  rewrite connect_files. destruct (files w !! path); [reflexivity|].
  apply insert_insert_eq.
Qed.

(** A statement that fails leaves the database as the connection found
    it. *)
Lemma engine_write_failed (path : string) (q : statement) (args : list sqlvalue)
    (w w' : World) (e : error) :
  engine_write path q args w = (Some e, w') ->
  w' = connect path (snd (next_fault w)).
Proof.
  unfold engine_write. destruct (next_fault w) as [[e0|] w0]; simpl.
  - now intros [= _ <-].
  - destruct (database_at path (connect path w0)) as [d|e1]; [|now intros [= _ <-]].
    destruct (compile d q); [now intros [= _ <-]|].
    destruct (run d q args); [discriminate|now intros [= _ <-]].
Qed.

Lemma engine_write_done (path : string) (q : statement) (args : list sqlvalue)
    (w w' : World) :
  engine_write path q args w = (None, w') ->
  exists d d',
    database_at path w = Ok d /\ compile d q = None /\ run d q args = Ok d'
    /\ w' = set_files (<[path := DatabaseFile d']> (files w)) (snd (next_fault w)).
Proof.
  unfold engine_write.
  pose proof (next_fault_frame w) as (Hf & _).
  destruct (next_fault w) as [[e0|] w0]; cbn [fst snd] in *; [discriminate|].
  cbv zeta. rewrite database_at_connect.
  replace (database_at path w0) with (database_at path w)
    by (unfold database_at; now rewrite Hf).
  destruct (database_at path w) as [d|e1]; [|discriminate].
  destruct (compile d q) eqn:Hc; [discriminate|].
  destruct (run d q args) as [d'|] eqn:Hr; [|discriminate].
  rewrite insert_connect, set_files_connect, Hf.
  intros [= <-]. now exists d, d'.
Qed.

(** [initDB] that succeeds leaves at the path a database with the one
    table, empty, and has opened the handle once. *)
Lemma initDB_fresh (path : string) (w w1 : World) (db : DB) :
  initDB path w = (Ok db, w1) ->
  db = mkDB path /\ stored path [] w1
  /\ trace w1 = trace w ++ [EvOpen path; EvExec path createTableSQL []]
  /\ stdout w1 = stdout w /\ stderr w1 = stderr w /\ environ w1 = environ w.
Proof.
  unfold initDB.
  assert (Hgo : forall w0 : World,
             files w0 !! path = None ->
             match sql_Open "sqlite" path w0 with
             | (Err err, w2) => (Err (ErrWrap "ошибка открытия базы данных: " err), w2)
             | (Ok db0, w2) =>
                 match db_Exec db0 createTableSQL [] w2 with
                 | (Some err, w3) =>
                     (Err (ErrWrap "ошибка создания таблицы: " err), db_Close db0 w3)
                 | (None, w3) => (Ok db0, w3)
                 end
             end = (Ok db, w1) ->
             db = mkDB path /\ stored path [] w1
             /\ trace w1 = trace w0 ++ [EvOpen path; EvExec path createTableSQL []]
             /\ stdout w1 = stdout w0 /\ stderr w1 = stderr w0 /\ environ w1 = environ w0).
  { intros w0 Hnone. simpl. unfold db_Exec. simpl.
    destruct (engine_write path createTableSQL [] _) as [[e|] w3] eqn:Hw; [discriminate|].
    intros [= <- <-].
    apply engine_write_done in Hw as (d & d' & Hd & _ & Hr & ->).
    unfold database_at in Hd. simpl in Hd. rewrite Hnone in Hd.
    injection Hd as <-. simpl in Hr. rewrite lookup_empty in Hr. injection Hr as <-.
    match goal with |- context [next_fault ?x] =>
      pose proof (next_fault_frame x) as (Hf & Ht & Ho & He & Hv) end.
    simpl in *. unfold stored. simpl.
    rewrite lookup_insert_eq, insert_empty, Ht, Ho, He, Hv, <- app_assoc.
    repeat split. }
  unfold os_Stat_ok. case_bool_decide as Hex.
  - unfold os_Remove.
    pose proof (next_fault_frame w) as (Hf & Ht & Ho & He & Hv).
    destruct (next_fault w) as [[e|] w0]; simpl in *; [discriminate|].
    intros H. apply Hgo in H.
    + simpl in H. now rewrite Ht, Ho, He, Hv in H.
    + simpl. apply lookup_delete_eq.
  - intros H. apply Hgo in H; [exact H|].
    now apply eq_None_not_Some.
Qed.

Lemma collides_bookmarks (r : BookmarkRecord) (b : BookmarkItem) :
  collides bookmarks_columns (row_of_record r) (insert_args b)
  = String.eqb (rec_URL r) (item_URL b).
Proof.
  unfold collides, row_of_record, insert_args; simpl.
  rewrite orb_false_r.
  destruct (String.eqb_spec (rec_URL r) (item_URL b)) as [->|Hne].
  - now apply bool_decide_eq_true_2.
  - apply bool_decide_eq_false_2. congruence.
Qed.

Lemma insert_or_replace_bookmarks (recs : list BookmarkRecord) (b : BookmarkItem) :
  insert_or_replace (mkTable bookmarks_columns (map row_of_record recs)) (insert_args b)
  = mkTable bookmarks_columns (map row_of_record (upsert_record recs b)).
Proof.
  unfold insert_or_replace, upsert_record; simpl. f_equal.
  rewrite map_app. simpl. f_equal.
  induction recs as [|r recs IH]; simpl; [reflexivity|].
  rewrite collides_bookmarks.
  destruct (String.eqb (rec_URL r) (item_URL b)); simpl; now rewrite IH.
Qed.

(** One execution of the prepared insert on a store that holds [recs]: on
    success the store holds the records upserted with the bookmark, on an
    error it holds [recs] as before; the call is in the trace either way. *)
Lemma stmt_Exec_stored (path : string) (recs : list BookmarkRecord) (b : BookmarkItem)
    (w : World) :
  stored path recs w ->
  let '(err, w') := stmt_Exec (mkStmt path insertSQL) (insert_args b) w in
  stored path (match err with None => upsert_record recs b | Some _ => recs end) w'
  /\ trace w' = trace w ++ [EvStmtExec path insertSQL (insert_args b)]
  /\ stdout w' = stdout w /\ stderr w' = stderr w /\ environ w' = environ w.
Proof.
  unfold stored, stmt_Exec; simpl. intros Hst.
  set (w0 := record _ w).
  pose proof (next_fault_frame w0) as (Hf & Ht & Ho & He & Hv).
  destruct (engine_write path insertSQL (insert_args b) w0) as [[e|] w'] eqn:Hw.
  - apply engine_write_failed in Hw as ->.
    rewrite connect_existing by (rewrite Hf; subst w0; simpl; rewrite Hst; eauto).
    rewrite Hf, Ht, Ho, He, Hv. subst w0; simpl. auto.
  - apply engine_write_done in Hw as (d & d' & Hd & _ & Hr & ->).
    unfold database_at in Hd. subst w0; simpl in *. rewrite Hst in Hd.
    injection Hd as <-. rewrite lookup_singleton_eq in Hr. simpl in Hr.
    injection Hr as <-.
    rewrite lookup_insert_eq, insert_singleton_eq.
    change [VText (item_Name b); VText (item_URL b)] with (insert_args b).
    rewrite insert_or_replace_bookmarks, Ht, Ho, He, Hv. auto.
Qed.

Lemma upsert_all_app (recs : list BookmarkRecord) (l1 l2 : list BookmarkItem) :
  upsert_all recs (l1 ++ l2) = upsert_all (upsert_all recs l1) l2.
Proof. apply fold_left_app. Qed.

(** The loop of [saveBookmarksToDB] on a store that holds [recs]: the
    bookmarks upserted are those before the first execution that fails. *)
Lemma saveBookmarksToDB_loop_stored (path : string) (batch : list BookmarkItem) :
  forall (recs : list BookmarkRecord) (w : World),
    stored path recs w ->
    let '(err, w') := saveBookmarksToDB_loop (mkStmt path insertSQL) batch w in
    exists done,
      stored path (upsert_all recs done) w'
      /\ trace w' = trace w ++ map (fun b => EvStmtExec path insertSQL (insert_args b))
                                 (match err with
                                  | None => done
                                  | Some _ => firstn (S (length done)) batch
                                  end)
      /\ done = firstn (length done) batch
      /\ (err = None -> done = batch)
      /\ stdout w' = stdout w /\ stderr w' = stderr w /\ environ w' = environ w.
Proof.
  induction batch as [|b rest IH]; intros recs w Hst; simpl.
  - exists []. simpl. rewrite app_nil_r. auto 10.
  - pose proof (stmt_Exec_stored path recs b w Hst) as Hone.
    destruct (stmt_Exec (mkStmt path insertSQL) (insert_args b) w) as [[e|] w1].
    + destruct Hone as (Hst1 & Ht & Ho & He & Hv).
      exists []. simpl. repeat split; auto. discriminate.
    + destruct Hone as (Hst1 & Ht & Ho & He & Hv).
      specialize (IH _ _ Hst1).
      destruct (saveBookmarksToDB_loop (mkStmt path insertSQL) rest w1) as [err w'].
      destruct IH as (done & Hst' & Ht' & Hpre & Hall & Ho' & He' & Hv').
      exists (b :: done). simpl.
      rewrite Ht', Ht, <- app_assoc, Ho', He', Hv'. simpl.
      repeat split; auto.
      * destruct err; reflexivity.
      * now rewrite <- Hpre.
      * intros Hn. now rewrite (Hall Hn).
Qed.

(** *** Last occurrence wins *)

Lemma in_upsert_record (recs : list BookmarkRecord) (b : BookmarkItem)
    (r : BookmarkRecord) :
  In r (upsert_record recs b)
  <-> (In r recs /\ rec_URL r <> item_URL b) \/ r = record_of b.
Proof.
  unfold upsert_record. rewrite List.in_app_iff, List.filter_In. simpl.
  rewrite negb_true_iff, String.eqb_neq. unfold record_of.
  intuition congruence.
Qed.

(** A record is stored after a batch exactly when it was stored before and
    no bookmark of the batch has its url, or it is the record of the last
    bookmark of the batch with its url. *)
Lemma in_upsert_all (batch : list BookmarkItem) :
  forall (recs : list BookmarkRecord) (r : BookmarkRecord),
    In r (upsert_all recs batch)
    <-> (In r recs /\ ~ In (rec_URL r) (map item_URL batch))
        \/ (exists pre b post,
               batch = pre ++ b :: post /\ r = record_of b
               /\ ~ In (item_URL b) (map item_URL post)).
Proof.
  induction batch as [|b rest IH]; intros recs r.
  - simpl. split.
    + intros H. left. tauto.
    + intros [[H _]|(pre & b & post & H & _)]; [exact H|].
      now destruct pre.
  - change (upsert_all recs (b :: rest)) with (upsert_all (upsert_record recs b) rest).
    rewrite IH, in_upsert_record. simpl. split.
    + intros [[[[Hin Hne]|Heq] Hno]|(pre & b' & post & -> & Hr & Hno)].
      * left. split; [exact Hin|]. intros [H|H]; [congruence|tauto].
      * right. exists [], b, rest. subst r. simpl in Hno. auto.
      * right. exists (b :: pre), b', post. auto.
    + intros [[Hin Hno]|(pre & b' & post & Hsplit & Hr & Hno)].
      * left. split; [left; split|]; [exact Hin| |]; intros H; apply Hno; auto.
      * destruct pre as [|b0 pre]; simpl in Hsplit; injection Hsplit as -> ->.
        -- left. split; [right; exact Hr|]. subst r. exact Hno.
        -- right. exists pre, b', post. auto.
Qed.

Lemma NoDup_upsert_record (recs : list BookmarkRecord) (b : BookmarkItem) :
  List.NoDup (map rec_URL recs) -> List.NoDup (map rec_URL (upsert_record recs b)).
Proof.
  intros Hnd. unfold upsert_record. rewrite map_app. simpl.
  assert (Hsub : forall u,
             In u (map rec_URL
                     (List.filter (fun r => negb (String.eqb (rec_URL r) (item_URL b))) recs))
             -> In u (map rec_URL recs) /\ u <> item_URL b).
  { intros u Hu. apply List.in_map_iff in Hu as (r & <- & Hr).
    apply List.filter_In in Hr as [Hr Hne].
    apply negb_true_iff, String.eqb_neq in Hne.
    split; [now apply List.in_map|exact Hne]. }
  assert (Hnd' : List.NoDup (map rec_URL
                          (List.filter (fun r => negb (String.eqb (rec_URL r) (item_URL b)))
                             recs))).
  { clear Hsub. induction recs as [|r recs IH]; simpl; [constructor|].
    simpl in Hnd. apply List.NoDup_cons_iff in Hnd as [Hnotin Hnd].
    destruct (negb (String.eqb (rec_URL r) (item_URL b))); simpl; [|now apply IH].
    apply List.NoDup_cons; [|now apply IH].
    intros Hin. apply Hnotin.
    apply List.in_map_iff in Hin as (r' & Heq & Hr').
    apply List.filter_In in Hr' as [Hr' _].
    rewrite <- Heq. now apply List.in_map. }
  apply List.NoDup_app; [exact Hnd'| |].
  - apply List.NoDup_cons; [simpl; tauto|apply List.NoDup_nil].
  - intros u Hu [<-|[]]. apply Hsub in Hu as [_ Hne]. unfold record_of in Hne.
    simpl in Hne. congruence.
Qed.

Lemma NoDup_upsert_all (batch : list BookmarkItem) :
  forall recs : list BookmarkRecord,
    List.NoDup (map rec_URL recs) -> List.NoDup (map rec_URL (upsert_all recs batch)).
Proof.
  induction batch as [|b rest IH]; intros recs Hnd; [exact Hnd|].
  apply (IH (upsert_record recs b)). now apply NoDup_upsert_record.
Qed.

(** The urls stored after a batch on an empty store are the urls of the
    batch. *)
Lemma urls_upsert_all (batch : list BookmarkItem) (u : string) :
  In u (map rec_URL (upsert_all [] batch)) <-> In u (map item_URL batch).
Proof.
  rewrite !List.in_map_iff. split.
  - intros (r & <- & Hr). apply in_upsert_all in Hr as [[[] _]|(pre & b & post & -> & -> & _)].
    exists b. split; [reflexivity|]. apply List.in_app_iff. right. now left.
  - intros (b & <- & Hb).
    induction batch as [|b0 rest IH] using List.rev_ind; [destruct Hb|].
    apply List.in_app_iff in Hb.
    destruct (string_dec (item_URL b0) (item_URL b)) as [Heq|Hne].
    + exists (record_of b0). split; [exact Heq|].
      apply in_upsert_all. right. exists rest, b0, []. simpl. auto.
    + destruct Hb as [Hb|[->|[]]]; [|congruence].
      destruct (IH Hb) as (r & Hu & Hr). exists r. split; [exact Hu|].
      rewrite upsert_all_app. simpl. apply in_upsert_record. left.
      split; [exact Hr|congruence].
Qed.

(** *** The operations on a store that holds known records *)

Lemma compile_bookmarks (t : list row) (q : statement) :
  q = insertSQL \/ q = selectSQL ->
  compile {[ "bookmarks" := mkTable bookmarks_columns t ]} q = None.
Proof. intros [->| ->]; unfold compile; simpl; now rewrite lookup_singleton_eq. Qed.

(** Preparing the insert on such a store fails only by a fault. *)
Lemma db_Prepare_stored (path : string) (recs : list BookmarkRecord) (w : World) :
  stored path recs w ->
  let '(r, w') := db_Prepare (mkDB path) insertSQL w in
  r = match head (faults w) with
      | Some (Some e) => Err e
      | _ => Ok (mkStmt path insertSQL)
      end
  /\ stored path recs w'
  /\ trace w' = trace w ++ [EvPrepare path insertSQL]
  /\ stdout w' = stdout w /\ stderr w' = stderr w /\ environ w' = environ w
  /\ faults w' = tail (faults w).
Proof.
  unfold stored, db_Prepare, next_fault; simpl. intros Hst.
  destruct (faults w) as [|[e|] fs] eqn:Hfl; simpl;
    rewrite ?connect_existing by (simpl; rewrite Hst; eauto);
    simpl; rewrite ?Hst; repeat split; auto.
Qed.

Lemma saveBookmarksToDB_stored (path : string) (recs : list BookmarkRecord)
    (batch : list BookmarkItem) (w : World) :
  stored path recs w ->
  let '(err, w') := saveBookmarksToDB (mkDB path) batch w in
  (err = None ->
   stored path (upsert_all recs batch) w'
   /\ trace w' = trace w ++ [EvPrepare path insertSQL]
                 ++ map (fun b => EvStmtExec path insertSQL (insert_args b)) batch
                 ++ [EvStmtClose path])
  /\ (exists done, stored path (upsert_all recs done) w'
                   /\ done = firstn (length done) batch)
  /\ stdout w' = stdout w /\ stderr w' = stderr w /\ environ w' = environ w.
Proof.
  intros Hst. unfold saveBookmarksToDB.
  pose proof (db_Prepare_stored path recs w Hst) as Hp.
  destruct (db_Prepare (mkDB path) insertSQL w) as [[stmt|e] w1].
  - destruct Hp as (Hr & Hst1 & Ht1 & Ho1 & He1 & Hv1 & _).
    assert (stmt = mkStmt path insertSQL) as ->
      by (destruct (head (faults w)) as [[e|]|]; congruence).
    unfold defer.
    pose proof (saveBookmarksToDB_loop_stored path batch recs w1 Hst1) as Hl.
    destruct (saveBookmarksToDB_loop (mkStmt path insertSQL) batch w1) as [err w2].
    destruct Hl as (done & Hst2 & Ht2 & Hpre & Hall & Ho2 & He2 & Hv2).
    unfold stmt_Close, stored in *. simpl.
    rewrite Ho2, He2, Hv2, Ht2, Ht1. repeat split; auto.
    + rewrite <- (Hall H). exact Hst2.
    + rewrite H in *. rewrite <- (Hall eq_refl). now rewrite <- !app_assoc.
    + exists done. auto.
  - destruct Hp as (_ & Hst1 & Ht1 & Ho1 & He1 & Hv1 & _).
    repeat split; auto; try discriminate.
    exists []. auto.
Qed.

Lemma rows_Scan_record (r : BookmarkRecord) : rows_Scan (row_of_record r) = Ok r.
Proof. now destruct r. Qed.

Lemma GetAllBookmarks_loop_records (recs : list BookmarkRecord) :
  forall (acc rs : list BookmarkRecord) (w w' : World),
    GetAllBookmarks_loop (map row_of_record recs) acc w = (Ok rs, w') ->
    rs = acc ++ recs
    /\ files w' = files w /\ trace w' = trace w /\ stdout w' = stdout w
    /\ stderr w' = stderr w /\ environ w' = environ w.
Proof.
  induction recs as [|r recs IH]; intros acc rs w w'; cbn [map GetAllBookmarks_loop].
  - intros [= <- <-]. rewrite app_nil_r. auto 10.
  - pose proof (next_fault_frame w) as (Hf & Ht & Ho & He & Hv).
    destruct (next_fault w) as [[e|] w1]; [discriminate|]. cbn [snd] in *.
    rewrite rows_Scan_record. intros H. apply IH in H as (-> & Hf' & Ht' & Ho' & He' & Hv').
    rewrite <- app_assoc. simpl. repeat split; congruence.
Qed.

Lemma select_bookmarks (recs : list BookmarkRecord) :
  select (mkTable bookmarks_columns (map row_of_record recs)) ["name"; "url"]
  = map row_of_record recs.
Proof.
  unfold select. simpl. rewrite List.map_map. apply List.map_ext. now intros [n u].
Qed.

(** The query on a store that holds [recs] fails only by a fault, and its
    rows are those of [recs]. *)
Lemma db_Query_stored (path : string) (recs : list BookmarkRecord) (w : World) :
  stored path recs w ->
  db_Query (mkDB path) selectSQL w
  = match next_fault (record (EvQuery path selectSQL) w) with
    | (Some e, w1) => (Err e, w1)
    | (None, w1) => (Ok (mkRows path (map row_of_record recs)), w1)
    end.
Proof.
  unfold stored, db_Query. cbn [db_path]. intros Hst.
  set (w0 := record _ w).
  pose proof (next_fault_frame w0) as (Hf & _).
  destruct (next_fault w0) as [fault w1]. cbn [snd] in Hf.
  assert (Hw1 : files w1 !! path
                = Some (DatabaseFile {[ "bookmarks" :=
                          mkTable bookmarks_columns (map row_of_record recs) ]}))
    by (rewrite Hf; exact Hst).
  cbv zeta. rewrite connect_existing by (rewrite Hw1; eauto).
  destruct fault as [e|]; [reflexivity|].
  unfold database_at. rewrite Hw1.
  rewrite compile_bookmarks by auto.
  unfold selectSQL. now rewrite lookup_singleton_eq, select_bookmarks.
Qed.

(** A query that succeeds on a store that holds [recs] returns [recs], in
    rowid order, and leaves the store as it is. *)
Lemma GetAllBookmarks_stored (path : string) (recs rs : list BookmarkRecord)
    (w w' : World) :
  stored path recs w ->
  GetAllBookmarks (mkDB path) w = (Ok rs, w') ->
  rs = recs /\ stored path recs w'
  /\ trace w' = trace w ++ [EvQuery path selectSQL; EvRowsClose path]
  /\ stdout w' = stdout w /\ stderr w' = stderr w /\ environ w' = environ w.
Proof.
  intros Hst. unfold GetAllBookmarks. rewrite (db_Query_stored path recs w Hst).
  unfold stored in *.
  set (w0 := record _ w).
  pose proof (next_fault_frame w0) as (Hf & Ht & Ho & He & Hv).
  destruct (next_fault w0) as [[e|] w1]; [discriminate|]. simpl in *.
  unfold defer. simpl.
  destruct (GetAllBookmarks_loop _ [] w1) as [r w2] eqn:Hloop.
  intros [= -> <-].
  apply GetAllBookmarks_loop_records in Hloop as (-> & Hf' & Ht' & Ho' & He' & Hv').
  unfold rows_Close. simpl. rewrite Hf', Ht', Ho', He', Hv', Hf, Ht, Ho, He, Hv.
  rewrite <- app_assoc. auto 10.
Qed.

(** When nothing fails, the query on such a store returns. *)
Lemma GetAllBookmarks_loop_total (pending : list BookmarkRecord) :
  forall (acc : list BookmarkRecord) (w : World),
    faults w = [] ->
    exists w', GetAllBookmarks_loop (map row_of_record pending) acc w
               = (Ok (acc ++ pending), w') /\ faults w' = [].
Proof.
  induction pending as [|r rest IH]; intros acc w Hnf; cbn [map GetAllBookmarks_loop].
  - exists w. now rewrite app_nil_r.
  - rewrite (next_fault_none w Hnf), rows_Scan_record.
    destruct (IH (acc ++ [r]) w Hnf) as (w' & -> & Hnf').
    exists w'. now rewrite <- app_assoc.
Qed.

(** *** When nothing fails, the operations succeed *)

Lemma initDB_total (path : string) (w : World) :
  faults w = [] ->
  exists w1, initDB path w = (Ok (mkDB path), w1) /\ faults w1 = [].
Proof.
  intros Hnf. unfold initDB.
  assert (Hgo : forall w0 : World,
             faults w0 = [] -> files w0 !! path = None ->
             exists w1,
               match sql_Open "sqlite" path w0 with
               | (Err err, w2) => (Err (ErrWrap "ошибка открытия базы данных: " err), w2)
               | (Ok db0, w2) =>
                   match db_Exec db0 createTableSQL [] w2 with
                   | (Some err, w3) =>
                       (Err (ErrWrap "ошибка создания таблицы: " err), db_Close db0 w3)
                   | (None, w3) => (Ok db0, w3)
                   end
               end = (Ok (mkDB path), w1) /\ faults w1 = []).
  { intros w0 Hnf0 Hnone. simpl. unfold db_Exec, engine_write.
    rewrite next_fault_none by (simpl; exact Hnf0). cbv zeta.
    rewrite database_at_connect. unfold database_at. simpl. rewrite Hnone. simpl.
    rewrite lookup_empty. eexists. split; [reflexivity|].
    simpl. now rewrite (proj2 (proj2 (proj2 (proj2 (connect_frame path _))))). }
  unfold os_Stat_ok, os_Remove. rewrite (next_fault_none w Hnf).
  case_bool_decide as Hex.
  - apply Hgo; [exact Hnf|]. simpl. apply lookup_delete_eq.
  - apply Hgo; [exact Hnf|]. now apply eq_None_not_Some.
Qed.

Lemma saveBookmarksToDB_loop_total (path : string) (batch : list BookmarkItem) :
  forall (recs : list BookmarkRecord) (w : World),
    stored path recs w -> faults w = [] ->
    exists w', saveBookmarksToDB_loop (mkStmt path insertSQL) batch w = (None, w')
               /\ faults w' = [].
Proof.
  induction batch as [|b rest IH]; intros recs w Hst Hnf; simpl.
  - now exists w.
  - pose proof (stmt_Exec_stored path recs b w Hst) as Hone.
    unfold stmt_Exec, engine_write in *. cbn [stmt_path stmt_query] in *.
    rewrite next_fault_none in * by (simpl; exact Hnf). cbv zeta in *.
    rewrite connect_existing in * by (simpl; rewrite Hst; eauto).
    unfold database_at in *. simpl in *.
    unfold stored in Hst. rewrite Hst in *. simpl in *.
    rewrite lookup_singleton_eq in *. simpl in *.
    destruct Hone as (Hst1 & _).
    eapply IH; [exact Hst1|exact Hnf].
Qed.

Lemma saveBookmarksToDB_total (path : string) (recs : list BookmarkRecord)
    (batch : list BookmarkItem) (w : World) :
  stored path recs w -> faults w = [] ->
  exists w', saveBookmarksToDB (mkDB path) batch w = (None, w') /\ faults w' = [].
Proof.
  intros Hst Hnf. unfold saveBookmarksToDB.
  pose proof (db_Prepare_stored path recs w Hst) as Hp.
  destruct (db_Prepare (mkDB path) insertSQL w) as [r w1].
  destruct Hp as (-> & Hst1 & _ & _ & _ & _ & Hnf1).
  rewrite Hnf in *. simpl in *.
  destruct (saveBookmarksToDB_loop_total path batch recs w1 Hst1 Hnf1) as (w2 & Hl & Hnf2).
  unfold defer. rewrite Hl. eexists. split; [reflexivity|exact Hnf2].
Qed.

Lemma GetAllBookmarks_total (path : string) (recs : list BookmarkRecord) (w : World) :
  stored path recs w -> faults w = [] ->
  exists w', GetAllBookmarks (mkDB path) w = (Ok recs, w') /\ faults w' = [].
Proof.
  intros Hst Hnf. unfold GetAllBookmarks. rewrite (db_Query_stored path recs w Hst).
  rewrite next_fault_none by (simpl; exact Hnf). simpl.
  destruct (GetAllBookmarks_loop_total recs [] (record (EvQuery path selectSQL) w))
    as (w' & Hl & Hnf'); [exact Hnf|].
  unfold defer. rewrite Hl. eexists. split; [reflexivity|exact Hnf'].
Qed.

(** The sequence of the specification returns the upsert of the batch on
    an empty store, whatever the world it starts in. *)
Lemma store_run_result (path : string) (batch : list BookmarkItem) (w w' : World)
    (rs : list BookmarkRecord) :
  store_run path batch w = (Ok rs, w') ->
  rs = upsert_all [] batch /\ stored path rs w'.
Proof.
  unfold store_run.
  destruct (initDB path w) as [[db|e] w1] eqn:Hi; [|discriminate].
  apply initDB_fresh in Hi as (-> & Hst1 & _).
  pose proof (saveBookmarksToDB_stored path [] batch w1 Hst1) as Hs.
  destruct (saveBookmarksToDB (mkDB path) batch w1) as [[e|] w2]; [discriminate|].
  destruct Hs as (Hs & _). destruct (Hs eq_refl) as (Hst2 & _).
  destruct (GetAllBookmarks (mkDB path) w2) as [r w3] eqn:Hq.
  intros [= -> <-].
  apply (GetAllBookmarks_stored _ _ _ _ _ Hst2) in Hq as (-> & Hst3 & _).
  split; [reflexivity|exact Hst3].
Qed.

Lemma store_run_total (path : string) (batch : list BookmarkItem) (w : World) :
  faults w = [] ->
  exists w', store_run path batch w = (Ok (upsert_all [] batch), w').
Proof.
  intros Hnf. unfold store_run.
  destruct (initDB_total path w Hnf) as (w1 & Hi & Hnf1). rewrite Hi.
  apply initDB_fresh in Hi as (_ & Hst1 & _).
  destruct (saveBookmarksToDB_total path [] batch w1 Hst1 Hnf1) as (w2 & Hs & Hnf2).
  pose proof (saveBookmarksToDB_stored path [] batch w1 Hst1) as Hs'.
  rewrite Hs in *. destruct Hs' as (Hs' & _). destruct (Hs' eq_refl) as (Hst2 & _).
  destruct (GetAllBookmarks_total path _ w2 Hst2 Hnf2) as (w3 & Hq & _).
  rewrite Hq. eexists. reflexivity.
Qed.

(** C2. After [initDB], [saveBookmarksToDB] of the records and
    [GetAllBookmarks], each in the world that the one before has left and
    each without error: no url is returned twice, the urls returned are the
    urls of the records, and the records returned are exactly the last
    occurrences of their urls in the batch, so the name that comes with a
    url is the name of its last occurrence. *)
Theorem upsert_then_queryAll_last_occurrence_wins
    (path : string) (records : list BookmarkItem) (rs : list BookmarkRecord)
    (db : DB) (w w1 w2 w3 : World) :
  initDB path w = (Ok db, w1) ->
  saveBookmarksToDB db records w1 = (None, w2) ->
  GetAllBookmarks db w2 = (Ok rs, w3) ->
  List.NoDup (map rec_URL rs)
  /\ (forall u : string, In u (map rec_URL rs) <-> In u (map item_URL records))
  /\ (forall r : BookmarkRecord,
         In r rs
         <-> exists pre b post,
               records = pre ++ b :: post
               /\ rec_Name r = item_Name b /\ rec_URL r = item_URL b
               /\ ~ In (item_URL b) (map item_URL post)).
Proof.
  intros Hi Hs Hq.
  apply initDB_fresh in Hi as (-> & Hst1 & _).
  pose proof (saveBookmarksToDB_stored path [] records w1 Hst1) as Hs'.
  rewrite Hs in Hs'. destruct Hs' as (Hs' & _). destruct (Hs' eq_refl) as (Hst2 & _).
  apply (GetAllBookmarks_stored _ _ _ _ _ Hst2) in Hq as (-> & _).
  split; [apply NoDup_upsert_all; constructor|].
  split; [apply urls_upsert_all|].
  intros r. rewrite in_upsert_all. split.
  - intros [[[] _]|(pre & b & post & Hsplit & -> & Hlast)].
    exists pre, b, post. auto.
  - intros (pre & b & post & Hsplit & Hn & Hu & Hlast).
    right. exists pre, b, post. destruct r as [n u]. simpl in *. subst n u. auto.
Qed.

Lemma upsert_then_queryAll_worked_example :
  let w := example_world [] in
  let w1 := snd (initDB "bookmarks.db" w) in
  let w2 := snd (saveBookmarksToDB (mkDB "bookmarks.db") [example_X1; example_X2] w1) in
  let rs := [mkBookmarkRecord "X2" "http://x"] in
  (initDB "bookmarks.db" w = (Ok (mkDB "bookmarks.db"), w1)
   /\ saveBookmarksToDB (mkDB "bookmarks.db") [example_X1; example_X2] w1 = (None, w2)
   /\ GetAllBookmarks (mkDB "bookmarks.db") w2
      = (Ok rs, snd (GetAllBookmarks (mkDB "bookmarks.db") w2)))
  /\ List.NoDup (map rec_URL rs)
  /\ (forall u : string,
         In u (map rec_URL rs) <-> In u (map item_URL [example_X1; example_X2])).
Proof.
  intros w w1 w2 rs.
  assert (H1 : initDB "bookmarks.db" w = (Ok (mkDB "bookmarks.db"), w1))
    by (vm_compute; reflexivity).
  assert (H2 : saveBookmarksToDB (mkDB "bookmarks.db") [example_X1; example_X2] w1
               = (None, w2)) by (vm_compute; reflexivity).
  assert (H3 : GetAllBookmarks (mkDB "bookmarks.db") w2
               = (Ok rs, snd (GetAllBookmarks (mkDB "bookmarks.db") w2)))
    by (vm_compute; reflexivity).
  split; [auto|].
  destruct (upsert_then_queryAll_last_occurrence_wins _ _ _ _ _ _ _ _ H1 H2 H3)
    as (Hnd & Hurls & _).
  split; [exact Hnd|exact Hurls].
Defined.

(** C3. [initDB] that succeeds leaves at the path a database whose only
    table is [bookmarks] with the columns [name TEXT NOT NULL] and [url TEXT
    NOT NULL PRIMARY KEY] and no row, whatever the path held before; it
    succeeds when nothing fails.  The sequence initialize, upsert, queryAll
    therefore returns the upsert of its batch on an empty store from any
    world: run twice in succession with one batch it returns the same
    records, and after a run with another batch it returns and leaves stored
    only records of its own batch. *)
Theorem initDB_overwrites :
  (forall (path : string) (w w1 : World) (db : DB),
      initDB path w = (Ok db, w1) ->
      db_path db = path
      /\ files w1 !! path
         = Some (DatabaseFile
                   {[ "bookmarks" :=
                        mkTable [mkColumn "name" "TEXT" true false;
                                 mkColumn "url" "TEXT" true true] [] ]}))
  /\ (forall (path : string) (w : World),
         faults w = [] -> exists db w1, initDB path w = (Ok db, w1))
  /\ (forall (path : string) (R : list BookmarkItem) (w w1 w2 : World)
             (rs1 rs2 : list BookmarkRecord),
         store_run path R w = (Ok rs1, w1) ->
         store_run path R w1 = (Ok rs2, w2) ->
         rs2 = rs1)
  /\ (forall (path : string) (R' R : list BookmarkItem) (w w1 w2 : World)
             (rs' rs : list BookmarkRecord),
         store_run path R' w = (Ok rs', w1) ->
         store_run path R w1 = (Ok rs, w2) ->
         rs = upsert_all [] R /\ stored path rs w2
         /\ forall r, In r rs -> exists b, In b R /\ r = record_of b).
Proof.
  split; [|split; [|split]].
  - intros path w w1 db Hi. apply initDB_fresh in Hi as (-> & Hst & _).
    split; [reflexivity|exact Hst].
  - intros path w Hnf. destruct (initDB_total path w Hnf) as (w1 & Hi & _). eauto.
  - intros path R w w1 w2 rs1 rs2 H1 H2.
    apply store_run_result in H1 as (-> & _). now apply store_run_result in H2 as (-> & _).
  - intros path R' R w w1 w2 rs' rs _ H2.
    apply store_run_result in H2 as (-> & Hst).
    split; [reflexivity|]. split; [exact Hst|].
    intros r Hr. apply in_upsert_all in Hr as [[[] _]|(pre & b & post & -> & -> & _)].
    exists b. split; [|reflexivity]. apply List.in_app_iff. right. now left.
Qed.

Lemma initDB_overwrites_example :
  let w := example_world [] in
  let run1 := store_run "bookmarks.db" [example_X1] w in
  let run2 := store_run "bookmarks.db" [example_X1; example_X2] (snd run1) in
  (run1 = (Ok [mkBookmarkRecord "X1" "http://x"], snd run1)
   /\ run2 = (Ok [mkBookmarkRecord "X2" "http://x"], snd run2))
  /\ stored "bookmarks.db" [mkBookmarkRecord "X2" "http://x"] (snd run2).
Proof.
  intros w run1 run2.
  assert (H1 : run1 = (Ok [mkBookmarkRecord "X1" "http://x"], snd run1))
    by (vm_compute; reflexivity).
  assert (H2 : run2 = (Ok [mkBookmarkRecord "X2" "http://x"], snd run2))
    by (vm_compute; reflexivity).
  split; [auto|].
  destruct initDB_overwrites as (_ & _ & _ & Hprior).
  destruct (Hprior _ _ _ _ _ _ _ _ H1 H2) as (_ & Hst & _).
  exact Hst.
Defined.

(** *** The batch is not atomic *)

Lemma stmt_Exec_trace (stmt : Stmt) (args : list sqlvalue) (w : World) :
  trace (snd (stmt_Exec stmt args w))
  = trace w ++ [EvStmtExec (stmt_path stmt) (stmt_query stmt) args].
Proof.
  unfold stmt_Exec. set (w0 := record _ w).
  pose proof (next_fault_frame w0) as (_ & Ht & _).
  destruct (engine_write _ _ args w0) as [[e|] w'] eqn:Hw; simpl.
  - apply engine_write_failed in Hw as ->.
    now rewrite (proj1 (connect_frame _ _)).
  - apply engine_write_done in Hw as (d & d' & _ & _ & _ & ->). exact Ht.
Qed.

(** An execution that fails on a database that is there leaves the files
    as they were. *)
Lemma stmt_Exec_failed_files (stmt : Stmt) (args : list sqlvalue) (w w' : World)
    (e : error) :
  is_Some (files w !! stmt_path stmt) ->
  stmt_Exec stmt args w = (Some e, w') -> files w' = files w.
Proof.
  unfold stmt_Exec. intros Hex H. apply engine_write_failed in H as ->.
  destruct (next_fault_frame (record (EvStmtExec (stmt_path stmt) (stmt_query stmt) args) w))
    as (Hf & _).
  rewrite connect_existing by (rewrite Hf; exact Hex).
  now rewrite Hf.
Qed.

(** After an execution there is a file at the path of the statement. *)
Lemma stmt_Exec_file (stmt : Stmt) (args : list sqlvalue) (w : World) :
  is_Some (files (snd (stmt_Exec stmt args w)) !! stmt_path stmt).
Proof.
  unfold stmt_Exec.
  destruct (engine_write _ _ args _) as [[e|] w'] eqn:Hw; cbn [snd].
  - apply engine_write_failed in Hw as ->. apply connect_is_Some.
  - apply engine_write_done in Hw as (d & d' & _ & _ & _ & ->).
    simpl. rewrite lookup_insert_eq. now eexists.
Qed.

(** A statement that has been prepared has the path and the text it was
    prepared with, and its connection has left a file at the path. *)
Lemma db_Prepare_connected (db : DB) (q : statement) (w w0 : World) (stmt : Stmt) :
  db_Prepare db q w = (Ok stmt, w0) ->
  stmt = mkStmt (db_path db) q /\ is_Some (files w0 !! db_path db).
Proof.
  unfold db_Prepare.
  destruct (next_fault _) as [[e|] w1]; [discriminate|].
  intros [= <- <-]. split; [reflexivity|apply connect_is_Some].
Qed.

Lemma world_after_cons (stmt : Stmt) (b : BookmarkItem) (rest : list BookmarkItem)
    (w : World) :
  world_after stmt (b :: rest) w
  = world_after stmt rest (snd (stmt_Exec stmt (insert_args b) w)).
Proof. reflexivity. Qed.

Lemma world_after_file (stmt : Stmt) (batch : list BookmarkItem) :
  forall w : World,
    is_Some (files w !! stmt_path stmt) ->
    is_Some (files (world_after stmt batch w) !! stmt_path stmt).
Proof.
  induction batch as [|b rest IH]; intros w Hex; [exact Hex|].
  rewrite world_after_cons. apply IH, stmt_Exec_file.
Qed.

Lemma world_after_trace (stmt : Stmt) (batch : list BookmarkItem) :
  forall w : World,
    trace (world_after stmt batch w)
    = trace w ++ map (fun b => EvStmtExec (stmt_path stmt) (stmt_query stmt) (insert_args b))
                   batch.
Proof.
  induction batch as [|b rest IH]; intros w.
  - simpl. now rewrite app_nil_r.
  - rewrite world_after_cons, IH, stmt_Exec_trace, <- app_assoc. reflexivity.
Qed.

Lemma all_succeed_cons (stmt : Stmt) (b : BookmarkItem) (rest : list BookmarkItem)
    (w : World) :
  all_succeed stmt (b :: rest) w ->
  fst (stmt_Exec stmt (insert_args b) w) = None
  /\ all_succeed stmt rest (snd (stmt_Exec stmt (insert_args b) w)).
Proof.
  intros H. split.
  - exact (H [] b rest eq_refl).
  - intros pre r post ->. exact (H (b :: pre) r post eq_refl).
Qed.

Lemma saveBookmarksToDB_loop_all (stmt : Stmt) (batch : list BookmarkItem) :
  forall w : World,
    all_succeed stmt batch w ->
    saveBookmarksToDB_loop stmt batch w = (None, world_after stmt batch w).
Proof.
  induction batch as [|b rest IH]; intros w Hall; [reflexivity|].
  apply all_succeed_cons in Hall as [Hb Hrest].
  rewrite world_after_cons. simpl.
  destruct (stmt_Exec stmt (insert_args b) w) as [[e|] w1]; [discriminate|].
  now apply IH.
Qed.

Lemma saveBookmarksToDB_loop_first_failure (stmt : Stmt) (pre : list BookmarkItem) :
  forall (r : BookmarkItem) (post : list BookmarkItem) (w w2 : World) (e : error),
    all_succeed stmt pre w ->
    stmt_Exec stmt (insert_args r) (world_after stmt pre w) = (Some e, w2) ->
    saveBookmarksToDB_loop stmt (pre ++ r :: post) w
    = (Some (ErrWrap "ошибка вставки закладки: " e), w2).
Proof.
  induction pre as [|b rest IH]; intros r post w w2 e Hall Hfail; simpl in *.
  - now rewrite Hfail.
  - apply all_succeed_cons in Hall as [Hb Hrest].
    destruct (stmt_Exec stmt (insert_args b) w) as [[e0|] w1]; [discriminate|].
    now apply IH.
Qed.

Lemma world_after_stored (path : string) (batch : list BookmarkItem) :
  forall (recs : list BookmarkRecord) (w : World),
    stored path recs w ->
    all_succeed (mkStmt path insertSQL) batch w ->
    stored path (upsert_all recs batch) (world_after (mkStmt path insertSQL) batch w).
Proof.
  induction batch as [|b rest IH]; intros recs w Hst Hall; [exact Hst|].
  apply all_succeed_cons in Hall as [Hb Hrest].
  rewrite world_after_cons.
  pose proof (stmt_Exec_stored path recs b w Hst) as Hone.
  destruct (stmt_Exec (mkStmt path insertSQL) (insert_args b) w) as [[e|] w1];
    [discriminate|].
  destruct Hone as (Hst1 & _). now apply IH.
Qed.

(** C8. Once its statement is prepared, [saveBookmarksToDB] executes the
    insert record by record and stops at the first failure: if the inserts
    of the records before record [r] succeed and the insert of [r] fails
    with [e], the function returns [e] wrapped; the files are those that the
    inserts before [r] have left, so a store that held [recs] holds [recs]
    upserted with the records before [r]; and the statement has been
    executed for the records up to [r] and for no record after it.  If every
    insert succeeds the function returns no error. *)
Theorem saveBookmarksToDB_stops_at_first_failure
    (db : DB) (stmt : Stmt) (w w0 : World) :
  db_Prepare db insertSQL w = (Ok stmt, w0) ->
  (forall (pre : list BookmarkItem) (r : BookmarkItem) (post : list BookmarkItem)
          (e : error) (w2 : World),
      all_succeed stmt pre w0 ->
      stmt_Exec stmt (insert_args r) (world_after stmt pre w0) = (Some e, w2) ->
      saveBookmarksToDB db (pre ++ r :: post) w
      = (Some (ErrWrap "ошибка вставки закладки: " e), stmt_Close stmt w2)
      /\ files (stmt_Close stmt w2) = files (world_after stmt pre w0)
      /\ (forall recs : list BookmarkRecord,
             stored (db_path db) recs w ->
             stored (db_path db) (upsert_all recs pre) (stmt_Close stmt w2))
      /\ trace (stmt_Close stmt w2)
         = trace w0
           ++ map (fun b => EvStmtExec (stmt_path stmt) (stmt_query stmt) (insert_args b))
                (pre ++ [r])
           ++ [EvStmtClose (stmt_path stmt)])
  /\ (forall batch : list BookmarkItem,
         all_succeed stmt batch w0 ->
         saveBookmarksToDB db batch w
         = (None, stmt_Close stmt (world_after stmt batch w0))).
Proof.
  intros Hprep. split.
  - intros pre r post e w2 Hall Hfail.
    destruct (db_Prepare_connected _ _ _ _ _ Hprep) as [Hstmt Hex].
    assert (Hfiles : files w2 = files (world_after stmt pre w0)).
    { apply (stmt_Exec_failed_files stmt (insert_args r) _ _ e); [|exact Hfail].
      apply world_after_file. now rewrite Hstmt. }
    split; [|split; [|split]].
    + unfold saveBookmarksToDB. rewrite Hprep. unfold defer.
      now rewrite (saveBookmarksToDB_loop_first_failure stmt pre r post w0 w2 e Hall Hfail).
    + exact Hfiles.
    + intros recs Hst. destruct db as [path]. simpl in *.
      pose proof (db_Prepare_stored path recs w Hst) as Hp.
      rewrite Hprep in Hp. destruct Hp as (Hr & Hst0 & _).
      assert (stmt = mkStmt path insertSQL) as ->
        by (destruct (head (faults w)) as [[e0|]|]; congruence).
      pose proof (world_after_stored path pre recs w0 Hst0 Hall) as Hst1.
      unfold stored in *. simpl. now rewrite Hfiles.
    + pose proof (stmt_Exec_trace stmt (insert_args r) (world_after stmt pre w0)) as Ht.
      rewrite Hfail in Ht. simpl in *. rewrite Ht, world_after_trace, map_app.
      simpl. now rewrite <- !app_assoc.
  - intros batch Hall. unfold saveBookmarksToDB. rewrite Hprep. unfold defer.
    now rewrite (saveBookmarksToDB_loop_all stmt batch w0 Hall).
Qed.

Lemma saveBookmarksToDB_disk_error_example :
  let A := example_url "A" "http://a" in
  let B := example_url "B" "http://b" in
  let C := example_url "C" "http://c" in
  let e := ErrMsg "disk I/O error" in
  let db := mkDB "bookmarks.db" in
  let stmt := mkStmt "bookmarks.db" insertSQL in
  let w := snd (initDB "bookmarks.db" (example_world [None; None; None; None; Some e])) in
  let w0 := snd (db_Prepare db insertSQL w) in
  let w' := stmt_Close stmt (snd (stmt_Exec stmt (insert_args B) (world_after stmt [A] w0))) in
  db_Prepare db insertSQL w = (Ok stmt, w0)
  /\ saveBookmarksToDB db ([A] ++ B :: [C]) w
     = (Some (ErrWrap "ошибка вставки закладки: " e), w')
  /\ stored "bookmarks.db" [record_of A] w'.
Proof.
  intros A B C e db stmt w w0 w'.
  assert (Hprep : db_Prepare db insertSQL w = (Ok stmt, w0)) by (vm_compute; reflexivity).
  assert (Hall : all_succeed stmt [A] w0).
  { intros pre r post Heq.
    destruct pre as [|x [|y pre]]; simpl in Heq; try discriminate.
    injection Heq as <- <-. vm_compute. reflexivity. }
  assert (Hfail : stmt_Exec stmt (insert_args B) (world_after stmt [A] w0)
                  = (Some e, snd (stmt_Exec stmt (insert_args B) (world_after stmt [A] w0))))
    by (vm_compute; reflexivity).
  assert (Hst : stored (db_path db) [] w) by (vm_compute; reflexivity).
  destruct (saveBookmarksToDB_stops_at_first_failure db stmt w w0 Hprep) as [Hstop _].
  destruct (Hstop [A] B [C] e _ Hall Hfail) as (Hret & _ & Hkept & _).
  split; [exact Hprep|]. split; [exact Hret|]. exact (Hkept [] Hst).
Defined.

(** C10. The url of a node is not looked at: a node whose type is exactly
    "url" is emitted also when its url is the empty string, and saved after
    [initDB] it is stored under the empty string as its key; a node typed
    "URL" or "Url" contributes nothing, the comparison of the type being
    exact. *)
Theorem extractBookmarks_does_not_validate_url :
  (forall (da id name : string) (children rest : list BookmarkItem),
      extractBookmarks (mkBookmarkItem da id name "url" "" children :: rest)
      = mkBookmarkItem da id name "url" "" children :: extractBookmarks rest)
  /\ (forall (n : BookmarkItem) (path : string) (db : DB) (w w1 w2 : World),
         item_Type n = "url" -> item_URL n = "" ->
         initDB path w = (Ok db, w1) ->
         saveBookmarksToDB db (extractBookmarks [n]) w1 = (None, w2) ->
         stored path [mkBookmarkRecord (item_Name n) ""] w2)
  /\ (forall (n : BookmarkItem) (rest : list BookmarkItem),
         item_Type n = "URL" \/ item_Type n = "Url" ->
         extractBookmarks (n :: rest) = extractBookmarks rest).
Proof.
  split; [reflexivity|]. split.
  - intros n path db w w1 w2 Hty Hurl Hi Hs.
    apply initDB_fresh in Hi as (-> & Hst1 & _).
    assert (Hn : extractBookmarks [n] = [n]).
    { simpl. rewrite extractBookmarks_children, Hty. reflexivity. }
    rewrite Hn in Hs.
    pose proof (saveBookmarksToDB_stored path [] [n] w1 Hst1) as Hs'.
    rewrite Hs in Hs'. destruct Hs' as (Hs' & _). destruct (Hs' eq_refl) as (Hst2 & _).
    unfold upsert_all, upsert_record, record_of in Hst2. simpl in Hst2.
    now rewrite Hurl in Hst2.
  - intros n rest Hty. simpl. rewrite extractBookmarks_children.
    now destruct Hty as [-> | ->].
Qed.

Lemma extractBookmarks_empty_url_example :
  let n := example_url "No address" "" in
  let w := example_world [] in
  let w1 := snd (initDB "bookmarks.db" w) in
  let w2 := snd (saveBookmarksToDB (mkDB "bookmarks.db") (extractBookmarks [n]) w1) in
  (item_Type n = "url" /\ item_URL n = ""
   /\ initDB "bookmarks.db" w = (Ok (mkDB "bookmarks.db"), w1)
   /\ saveBookmarksToDB (mkDB "bookmarks.db") (extractBookmarks [n]) w1 = (None, w2))
  /\ stored "bookmarks.db" [mkBookmarkRecord "No address" ""] w2
  /\ extractBookmarks [example_url "Upper" "http://u"; n] = [example_url "Upper" "http://u"; n]
  /\ extractBookmarks
       [mkBookmarkItem "1" "2" "Upper" "URL" "http://u" []; n] = [n].
Proof.
  intros n w w1 w2.
  assert (H1 : initDB "bookmarks.db" w = (Ok (mkDB "bookmarks.db"), w1))
    by (vm_compute; reflexivity).
  assert (H2 : saveBookmarksToDB (mkDB "bookmarks.db") (extractBookmarks [n]) w1
               = (None, w2)) by (vm_compute; reflexivity).
  destruct extractBookmarks_does_not_validate_url as (_ & Hstore & Hcase).
  split; [auto|]. split.
  - exact (Hstore n _ _ _ _ _ eq_refl eq_refl H1 H2).
  - split; [reflexivity|].
    exact (Hcase (mkBookmarkItem "1" "2" "Upper" "URL" "http://u" []) [n]
             (or_introl eq_refl)).
Defined.

(** C6 at a folder without children that carries a url, and at a node of
    an unknown type with a child of type url. *)
Lemma extractBookmarks_skips_example :
  let a := example_url "A" "http://a" in
  let c := example_url "C" "http://c" in
  let empty := mkBookmarkItem "1" "2" "Empty" "folder" "http://ignored" [] in
  let unknown := mkBookmarkItem "1" "3" "Odd" "separator" "http://odd" [a] in
  ((item_Type empty = "folder" /\ item_Children empty = [])
   \/ (item_Type empty <> "folder" /\ item_Type empty <> "url"))
  /\ extractBookmarks ([a] ++ empty :: [c]) = extractBookmarks [a] ++ extractBookmarks [c]
  /\ extractBookmarks ([a] ++ unknown :: [c]) = [a; c].
Proof.
  intros a c empty unknown.
  assert (H : (item_Type empty = "folder" /\ item_Children empty = [])
              \/ (item_Type empty <> "folder" /\ item_Type empty <> "url"))
    by (left; split; reflexivity).
  split; [exact H|]. split.
  - exact (extractBookmarks_skips_empty_and_unknown empty [a] [c] H).
  - apply (extractBookmarks_skips_empty_and_unknown unknown [a] [c]).
    right. split; discriminate.
Defined.

(** ** Decoding *)

Lemma is_Ok_map_result {A B : Type} (f : A -> B) (r : result A) :
  is_Ok (map_result f r) = is_Ok r.
Proof. now destruct r. Qed.

Lemma is_Ok_decode_string (v : value) (cur : string) :
  is_Ok (decode_string v cur) = fits_string v.
Proof. now destruct v. Qed.

Lemma is_Ok_decode_int (v : value) (cur : Z) :
  is_Ok (decode_int v cur) = fits_int v.
Proof.
  destruct v as [| |[z|]| | |]; simpl; try reflexivity.
  now destruct ((- 2 ^ 63 <=? z)%Z && (z <? 2 ^ 63)%Z).
Qed.

Lemma find_field_In (names : list string) (key f : string) :
  find_field names key = Some f -> In f names.
Proof.
  unfold find_field.
  destruct (List.find (String.eqb key) names) as [f0|] eqn:Hexact.
  - intros [= <-]. now apply List.find_some in Hexact.
  - intros Hfold. now apply List.find_some in Hfold.
Qed.

(** The members of an object are decoded without error exactly when each
    member that selects a field fits it. *)
Lemma is_Ok_decode_object {T : Type} (names : list string)
    (set_field : string -> value -> T -> result T) (fits_field : string -> value -> bool)
    (ms : list (string * value)) :
  (forall m f cur, In m ms -> In f names ->
                   is_Ok (set_field f (snd m) cur) = fits_field f (snd m)) ->
  forall cur : T,
    is_Ok (decode_object names set_field ms cur)
    = forallb (fun m => match find_field names (fst m) with
                        | Some f => fits_field f (snd m)
                        | None => true
                        end) ms.
Proof.
  induction ms as [|m ms IH]; intros Hfield cur; [reflexivity|].
  simpl. destruct (find_field names (fst m)) as [f|] eqn:Hf.
  - rewrite <- (Hfield m f cur) by (simpl; eauto using find_field_In).
    destruct (set_field f (snd m) cur) as [cur'|e]; simpl; [|reflexivity].
    apply IH. intros m' f' c Hin. apply Hfield. now right.
  - apply IH. intros m' f' c Hin. apply Hfield. now right.
Qed.

Lemma is_Ok_decode_array {T : Type} (decode_elem : value -> T -> result T) (zero : T)
    (fits : value -> bool) (vs : list value) :
  Forall (fun v => forall cur, is_Ok (decode_elem v cur) = fits v) vs ->
  forall cur : list T,
    is_Ok (decode_array decode_elem zero vs cur) = forallb fits vs.
Proof.
  induction 1 as [|v vs Hv _ IH]; intros cur; [reflexivity|].
  simpl. rewrite <- (Hv (hd zero cur)).
  destruct (decode_elem v (hd zero cur)) as [x|e]; simpl; [|reflexivity].
  rewrite <- (IH (tl cur)).
  now destruct (decode_array decode_elem zero vs (tl cur)).
Qed.

(** A member whose key selects no field does not change what the object
    decodes to. *)
Lemma decode_object_skips {T : Type} (names : list string)
    (set_field : string -> value -> T -> result T) (key : string) (v : value)
    (ms1 ms2 : list (string * value)) :
  find_field names key = None ->
  forall cur : T,
    decode_object names set_field (ms1 ++ (key, v) :: ms2) cur
    = decode_object names set_field (ms1 ++ ms2) cur.
Proof.
  intros Hnone. induction ms1 as [|m ms1 IH]; intros cur; simpl.
  - now rewrite Hnone.
  - destruct (find_field names (fst m)); [|apply IH].
    destruct (set_field s (snd m) cur); [apply IH|reflexivity].
Qed.

Lemma is_Ok_decode_BookmarkItem_elements (v : value) :
  (forall cur : BookmarkItem, is_Ok (decode_BookmarkItem v cur) = fits_BookmarkItem v)
  /\ match v with
     | JArray es =>
         Forall (fun e => forall cur : BookmarkItem,
                     is_Ok (decode_BookmarkItem e cur) = fits_BookmarkItem e) es
     | _ => True
     end.
Proof.
  induction v as [| | | |es IH|ms IH] using value_forall_ind;
    try (split; [reflexivity|exact I]).
  - split; [reflexivity|].
    apply List.Forall_forall. rewrite List.Forall_forall in IH.
    intros e He. now destruct (IH e He).
  - split; [|exact I]. intros cur.
    cbn [decode_BookmarkItem fits_BookmarkItem].
    apply (is_Ok_decode_object BookmarkItem_tags _
             (fun f fv => if String.eqb f "children" then
                            match fv with
                            | JNull => true
                            | JArray es => forallb fits_BookmarkItem es
                            | _ => false
                            end
                          else fits_string fv)).
    intros m f [da id name ty url children] Hm Hf.
    rewrite List.Forall_forall in IH. destruct (IH m Hm) as [_ Helems].
    simpl in Hf.
    destruct Hf as [<-|[<-|[<-|[<-|[<-|[<-|[]]]]]]]; simpl;
      rewrite is_Ok_map_result; try apply is_Ok_decode_string.
    destruct (snd m) as [| | | |es|]; try reflexivity.
    now apply is_Ok_decode_array.
Qed.

Lemma is_Ok_decode_BookmarkItem (v : value) (cur : BookmarkItem) :
  is_Ok (decode_BookmarkItem v cur) = fits_BookmarkItem v.
Proof. apply is_Ok_decode_BookmarkItem_elements. Qed.

Lemma is_Ok_decode_BookmarkItems (v : value) (cur : list BookmarkItem) :
  is_Ok (decode_BookmarkItems v cur) = fits_BookmarkItems v.
Proof.
  destruct v as [| | | |es|]; try reflexivity.
  apply is_Ok_decode_array, List.Forall_forall.
  intros e _ c. apply is_Ok_decode_BookmarkItem.
Qed.

Lemma is_Ok_decode_BookmarkFolder (v : value) (cur : BookmarkFolder) :
  is_Ok (decode_BookmarkFolder v cur) = fits_BookmarkFolder v.
Proof.
  destruct v as [| | | | |ms]; try reflexivity.
  apply is_Ok_decode_object.
  intros m f [children da dm id name ty] _ Hf. simpl in Hf.
  destruct Hf as [<-|[<-|[<-|[<-|[<-|[<-|[]]]]]]]; simpl;
    rewrite is_Ok_map_result;
    first [apply is_Ok_decode_string | apply is_Ok_decode_BookmarkItems].
Qed.

Lemma is_Ok_decode_Roots (v : value) (cur : Roots) :
  is_Ok (decode_Roots v cur) = fits_Roots v.
Proof.
  destruct v as [| | | | |ms]; try reflexivity.
  apply is_Ok_decode_object.
  intros m f [bar other synced] _ Hf. simpl in Hf.
  destruct Hf as [<-|[<-|[<-|[]]]]; simpl;
    rewrite is_Ok_map_result; apply is_Ok_decode_BookmarkFolder.
Qed.

Lemma is_Ok_decode_Bookmarks (v : value) (cur : Bookmarks) :
  is_Ok (decode_Bookmarks v cur) = fits_Bookmarks v.
Proof.
  destruct v as [| | | | |ms]; try reflexivity.
  apply is_Ok_decode_object.
  intros m f [roots version checksum] _ Hf. simpl in Hf.
  destruct Hf as [<-|[<-|[<-|[]]]]; simpl; rewrite is_Ok_map_result;
    first [apply is_Ok_decode_Roots | apply is_Ok_decode_int | apply is_Ok_decode_string].
Qed.

Lemma is_Ok_json_Unmarshal (data : text) (cur : Bookmarks) :
  is_Ok (json_Unmarshal data cur) = accepted data.
Proof.
  destruct data as [|doc]; [reflexivity|]. simpl.
  destruct (N.of_nat (nesting doc) <=? maxNestingDepth)%N; [|reflexivity].
  apply is_Ok_decode_Bookmarks.
Qed.

(** C4, as the code has it.  Once the file is read, [parseBookmarks] fails
    with the wrapped JSON error exactly when the bytes are not accepted:
    they are not a JSON text, or nest deeper than the scanner allows, or a
    member whose key selects a field of the structs carries a value that
    does not fit the field.  A string fits a string field; a number written
    as an integer literal within 64 bits fits [version], a number with a
    fraction or an exponent or out of that range does not; an object fits a
    struct, and an array of fitting items fits [children]; null fits every
    field.  A field that is missing is no error: the empty object decodes
    to the zero value, and at every level an object that is decoded without
    error is still decoded without error with one of its members taken
    away.  A member whose key selects no field is ignored at every
    level. *)
Theorem parseBookmarks_fails_iff_not_accepted :
  (forall (path : string) (w w1 : World) (data : text),
      os_ReadFile path w = (Ok data, w1) ->
      ((exists e, parseBookmarks path w = (Err (ErrWrap "ошибка парсинга JSON: " e), w1))
       <-> accepted data = false)
      /\ ((exists bookmarks, parseBookmarks path w = (Ok bookmarks, w1))
          <-> accepted data = true))
  /\ (forall (path : string) (w w1 : World),
         os_ReadFile path w = (Ok (Document (JObject [])), w1) ->
         parseBookmarks path w = (Ok zero_Bookmarks, w1))
  /\ (forall (key : string) (v : value) (ms1 ms2 : list (string * value)),
         (find_field Bookmarks_tags key = None ->
          forall cur, decode_Bookmarks (JObject (ms1 ++ (key, v) :: ms2)) cur
                      = decode_Bookmarks (JObject (ms1 ++ ms2)) cur)
         /\ (find_field Roots_tags key = None ->
             forall cur, decode_Roots (JObject (ms1 ++ (key, v) :: ms2)) cur
                         = decode_Roots (JObject (ms1 ++ ms2)) cur)
         /\ (find_field BookmarkFolder_tags key = None ->
             forall cur, decode_BookmarkFolder (JObject (ms1 ++ (key, v) :: ms2)) cur
                         = decode_BookmarkFolder (JObject (ms1 ++ ms2)) cur)
         /\ (find_field BookmarkItem_tags key = None ->
             forall cur, decode_BookmarkItem (JObject (ms1 ++ (key, v) :: ms2)) cur
                         = decode_BookmarkItem (JObject (ms1 ++ ms2)) cur))
  /\ (forall (m : string * value) (ms1 ms2 : list (string * value)),
         (forall cur, is_Ok (decode_Bookmarks (JObject (ms1 ++ m :: ms2)) cur) = true ->
                      is_Ok (decode_Bookmarks (JObject (ms1 ++ ms2)) cur) = true)
         /\ (forall cur, is_Ok (decode_Roots (JObject (ms1 ++ m :: ms2)) cur) = true ->
                         is_Ok (decode_Roots (JObject (ms1 ++ ms2)) cur) = true)
         /\ (forall cur,
                is_Ok (decode_BookmarkFolder (JObject (ms1 ++ m :: ms2)) cur) = true ->
                is_Ok (decode_BookmarkFolder (JObject (ms1 ++ ms2)) cur) = true)
         /\ (forall cur,
                is_Ok (decode_BookmarkItem (JObject (ms1 ++ m :: ms2)) cur) = true ->
                is_Ok (decode_BookmarkItem (JObject (ms1 ++ ms2)) cur) = true)).
Proof.
  split; [|split; [|split]]; cycle 3.
  { intros m ms1 ms2.
    assert (Hdrop : forall f : string * value -> bool,
               forallb f (ms1 ++ m :: ms2) = true -> forallb f (ms1 ++ ms2) = true).
    { intros f. rewrite !forallb_app. simpl. intros H.
      apply andb_true_iff in H as [H1 H2]. apply andb_true_iff in H2 as [_ H2].
      now rewrite H1, H2. }
    repeat split; intros cur.
    - rewrite !is_Ok_decode_Bookmarks. apply Hdrop.
    - rewrite !is_Ok_decode_Roots. apply Hdrop.
    - rewrite !is_Ok_decode_BookmarkFolder. apply Hdrop.
    - rewrite !is_Ok_decode_BookmarkItem. apply Hdrop. }
  - intros path w w1 data Hread. unfold parseBookmarks. rewrite Hread.
    pose proof (is_Ok_json_Unmarshal data zero_Bookmarks) as Hok.
    destruct (json_Unmarshal data zero_Bookmarks) as [b|e]; simpl in Hok; rewrite <- Hok.
    + split; split; try discriminate; eauto.
      intros (e & He). discriminate.
    + split; split; eauto; try discriminate.
      intros (b & Hb). discriminate.
  - intros path w w1 Hread. unfold parseBookmarks. now rewrite Hread.
  - intros key v ms1 ms2. repeat split; intros Hnone cur.
    + now apply decode_object_skips.
    + now apply decode_object_skips.
    + now apply decode_object_skips.
    + cbn [decode_BookmarkItem]. now apply decode_object_skips.
Qed.

(** C4 as stated fails twice.  The empty object has none of the fields
    that the shape of the specification requires, and [parseBookmarks]
    decodes it without error.  And a file that has every field of the
    shape, but null where the version should be an integer, has a field of
    the wrong type and is decoded without error as well. *)
Lemma parseBookmarks_accepts_missing_and_null :
  ~ (forall (path : string) (w w1 : World) (doc : value),
        os_ReadFile path w = (Ok (Document doc), w1) ->
        spec_RootSet doc = false ->
        exists e, parseBookmarks path w = (Err (ErrWrap "ошибка парсинга JSON: " e), w1))
  /\ spec_RootSet (example_versioned (JNumber (Integer 1))) = true
  /\ ~ (forall (path : string) (w w1 : World) (ms : list (string * value)) (v : value),
           os_ReadFile path w = (Ok (Document (JObject ms)), w1) ->
           member "version" ms = Some v -> is_int v = false ->
           exists e,
             parseBookmarks path w = (Err (ErrWrap "ошибка парсинга JSON: " e), w1)).
Proof.
  split; [|split; [reflexivity|]]; intros H.
  - destruct (H "Bookmarks" (example_file_world (Document (JObject [])))
                (example_file_world (Document (JObject []))) (JObject [])
                eq_refl eq_refl) as (e & He).
    vm_compute in He. discriminate.
  - destruct (H "Bookmarks" (example_file_world (Document (example_versioned JNull)))
                (example_file_world (Document (example_versioned JNull))) _ JNull
                eq_refl eq_refl eq_refl) as (e & He).
    vm_compute in He. discriminate.
Qed.

Lemma parseBookmarks_wrong_type_example :
  let doc := JObject [("version", JString "1"); ("roots", JObject [])] in
  let w := example_file_world (Document doc) in
  (os_ReadFile "Bookmarks" w = (Ok (Document doc), w)
   /\ accepted (Document doc) = false
   /\ find_field Bookmarks_tags "sync_metadata" = None)
  /\ (exists e, parseBookmarks "Bookmarks" w = (Err (ErrWrap "ошибка парсинга JSON: " e), w))
  /\ decode_Bookmarks
       (JObject ([("Version", JNumber (Integer 1))]
                 ++ ("sync_metadata", JString "x") :: [("checksum", JString "c")]))
       zero_Bookmarks
     = Ok (mkBookmarks zero_Roots 1 "c").
Proof.
  intros doc w.
  assert (Hread : os_ReadFile "Bookmarks" w = (Ok (Document doc), w))
    by (vm_compute; reflexivity).
  assert (Hkey : find_field Bookmarks_tags "sync_metadata" = None)
    by (vm_compute; reflexivity).
  split; [auto|].
  destruct parseBookmarks_fails_iff_not_accepted as (Hiff & _ & Hskip & _).
  split.
  - destruct (Hiff "Bookmarks" w w (Document doc) Hread) as ((_ & Hfail) & _).
    apply Hfail. reflexivity.
  - destruct (Hskip "sync_metadata" (JString "x") [("Version", JNumber (Integer 1))]
                [("checksum", JString "c")]) as (Hb & _).
    rewrite (Hb Hkey zero_Bookmarks). reflexivity.
Defined.

(** The file of the example has the shape of the specification, is
    accepted, and decodes to the forest of the worked example. *)
Lemma parseBookmarks_example_document :
  spec_RootSet example_document = true
  /\ accepted (Document example_document) = true
  /\ exists bookmarks,
       json_Unmarshal (Document example_document) zero_Bookmarks = Ok bookmarks
       /\ extractBookmarks (folder_Children (BookmarkBar (bm_Roots bookmarks)))
          = [example_url "A" "http://a"; example_url "B" "http://b";
             example_url "C" "http://c"].
Proof.
  split; [reflexivity|]. split; [reflexivity|].
  eexists. split; [vm_compute; reflexivity|reflexivity].
Qed.

(** ** The driver *)

Lemma parseBookmarks_stdout (path s : string) (w : World) :
  fst (parseBookmarks path (write_stdout s w)) = fst (parseBookmarks path w).
Proof.
  unfold parseBookmarks, os_ReadFile, next_fault. simpl.
  destruct (faults w) as [|[e|] fs]; simpl; try reflexivity;
    destruct (files w !! path) as [[data|d]|]; simpl; try reflexivity;
    now destruct (json_Unmarshal _ zero_Bookmarks).
Qed.

Lemma parseBookmarks_frame (path : string) (w : World) :
  let w' := snd (parseBookmarks path w) in
  files w' = files w /\ trace w' = trace w.
Proof.
  unfold parseBookmarks, os_ReadFile, next_fault.
  destruct (faults w) as [|[e|] fs]; simpl; auto;
    destruct (files w !! path) as [[data|d]|]; simpl; auto;
    now destruct (json_Unmarshal _ zero_Bookmarks).
Qed.

Lemma GetAllBookmarks_loop_frame (pending : list row) :
  forall (acc : list BookmarkRecord) (w : World),
    let w' := snd (GetAllBookmarks_loop pending acc w) in
    files w' = files w /\ trace w' = trace w.
Proof.
  induction pending as [|r rest IH]; intros acc w; simpl; [auto|].
  pose proof (next_fault_frame w) as (Hf & Ht & _).
  destruct (next_fault w) as [[e|] w1]; simpl in *; [auto|].
  destruct (rows_Scan r) as [b|e]; simpl; [|auto].
  destruct (IH (acc ++ [b]) w1) as (Hf' & Ht'). split; congruence.
Qed.

Lemma stmt_execs_app (tr1 tr2 : list event) :
  stmt_execs (tr1 ++ tr2) = stmt_execs tr1 ++ stmt_execs tr2.
Proof. apply List.filter_app. Qed.

Lemma closes_app (path : string) (tr1 tr2 : list event) :
  closes path (tr1 ++ tr2) = (closes path tr1 + closes path tr2)%nat.
Proof. unfold closes. now rewrite List.filter_app, length_app. Qed.

Lemma opens_app (path : string) (tr1 tr2 : list event) :
  opens path (tr1 ++ tr2) = (opens path tr1 + opens path tr2)%nat.
Proof. unfold opens. now rewrite List.filter_app, length_app. Qed.

Lemma query_events_quiet (path : string) (evs : list event) :
  forallb is_query_event evs = true ->
  stmt_execs evs = [] /\ closes path evs = 0%nat /\ opens path evs = 0%nat.
Proof.
  induction evs as [|ev evs IH]; simpl; [auto|].
  intros H. apply andb_true_iff in H as [Hev Hevs].
  destruct (IH Hevs) as (He & Hc & Ho).
  unfold closes, opens in *. destruct ev; try discriminate; simpl; auto.
Qed.

Lemma connect_files_eq (path : string) (w1 w2 : World) :
  files w1 = files w2 -> files (connect path w1) = files (connect path w2).
Proof. intros H. now rewrite !connect_files, H. Qed.

(** A query, successful or not, leaves the files as its connection found
    them; it adds to the trace only events of the query. *)
Lemma GetAllBookmarks_frame (db : DB) (w : World) :
  files (snd (GetAllBookmarks db w)) = files (connect (db_path db) w)
  /\ exists evs, trace (snd (GetAllBookmarks db w)) = trace w ++ evs
                 /\ forallb is_query_event evs = true.
Proof.
  unfold GetAllBookmarks, db_Query.
  set (w0 := record _ w).
  pose proof (next_fault_frame w0) as (Hf & Ht & _).
  destruct (next_fault w0) as [fault w1]; cbn [fst snd] in *. cbv zeta.
  assert (Hone : files (connect (db_path db) w1) = files (connect (db_path db) w)
                 /\ trace (connect (db_path db) w1)
                    = trace w ++ [EvQuery (db_path db) selectSQL]).
  { split; [apply connect_files_eq; rewrite Hf; reflexivity|].
    rewrite (proj1 (connect_frame _ _)), Ht. reflexivity. }
  clear Hf Ht. destruct Hone as (Hf & Ht).
  destruct fault as [e|]; cbn [fst snd];
    [split; [exact Hf|eexists; split; [exact Ht|reflexivity]]|].
  destruct (database_at (db_path db) _) as [d|e]; cbn [fst snd];
    [|split; [exact Hf|eexists; split; [exact Ht|reflexivity]]].
  destruct (compile d selectSQL); cbn [fst snd];
    [split; [exact Hf|eexists; split; [exact Ht|reflexivity]]|].
  unfold defer, selectSQL. cbn [rows_pending].
  match goal with |- context [GetAllBookmarks_loop ?p ?a ?x] =>
    pose proof (GetAllBookmarks_loop_frame p a x) as (Hf' & Ht');
    destruct (GetAllBookmarks_loop p a x) as [r w2]
  end.
  cbn [fst snd] in *. unfold rows_Close. simpl. rewrite Hf', Ht', Hf, Ht.
  split; [reflexivity|].
  exists [EvQuery (db_path db) selectSQL; EvRowsClose (db_path db)].
  now rewrite <- app_assoc.
Qed.

(** A query that succeeds has found its table, so the file was there and
    the files are as they were. *)
Lemma GetAllBookmarks_found (db : DB) (w w' : World) (rs : list BookmarkRecord) :
  GetAllBookmarks db w = (Ok rs, w') ->
  is_Some (files w !! db_path db) /\ files w' = files w.
Proof.
  intros H.
  assert (Hex : is_Some (files w !! db_path db)).
  { revert H. unfold GetAllBookmarks, db_Query.
    set (w0 := record _ w).
    pose proof (next_fault_frame w0) as (Hf & _).
    destruct (next_fault w0) as [[e|] w1]; cbn [fst snd] in *; cbv zeta;
      [discriminate|].
    rewrite database_at_connect. unfold database_at. rewrite Hf. subst w0; simpl.
    destruct (files w !! db_path db) as [[data|d]|]; [discriminate|eauto|].
    unfold compile, selectSQL. now rewrite lookup_empty. }
  split; [exact Hex|].
  pose proof (GetAllBookmarks_frame db w) as (Hf & _).
  rewrite H in Hf. cbn [snd] in Hf. now rewrite connect_existing in Hf.
Qed.

Lemma fold_left_Printf_frame (lines : list BookmarkRecord) :
  forall w : World,
    let w' := fold_left (fun wi b => fmt_Printf (PrintBookmarks_line b) wi) lines w in
    files w' = files w /\ trace w' = trace w /\ stderr w' = stderr w
    /\ stdout w' = stdout w ++ map PrintBookmarks_line lines.
Proof.
  induction lines as [|b rest IH]; intros w; simpl.
  - now rewrite app_nil_r.
  - destruct (IH (fmt_Printf (PrintBookmarks_line b) w)) as (Hf & Ht & He & Ho).
    simpl in *. rewrite Hf, Ht, He, Ho, <- app_assoc. auto.
Qed.

Lemma PrintBookmarks_frame (db : DB) (w : World) :
  files (snd (PrintBookmarks db w)) = files (connect (db_path db) w)
  /\ exists evs, trace (snd (PrintBookmarks db w)) = trace w ++ evs
                 /\ forallb is_query_event evs = true.
Proof.
  unfold PrintBookmarks.
  pose proof (GetAllBookmarks_frame db w) as (Hf & evs & Ht & Hq).
  destruct (GetAllBookmarks db w) as [[rs|e] w1]; cbn [fst snd] in *; [|eauto].
  match goal with |- context [fold_left ?f rs ?x] =>
    destruct (fold_left_Printf_frame rs x) as (Hf' & Ht' & _) end.
  simpl in *. rewrite Hf', Ht'. eauto.
Qed.

Lemma stmt_execs_inserts (path : string) (batch : list BookmarkItem) :
  stmt_execs (map (fun b => EvStmtExec path insertSQL (insert_args b)) batch)
  = map (fun b => EvStmtExec path insertSQL (insert_args b)) batch.
Proof. induction batch as [|b rest IH]; simpl; [reflexivity|]. now rewrite IH. Qed.

(** C9. When [main] returns, the bookmark file has been found and decoded,
    and with the slices that [extractBookmarks] gives for the children of
    the bookmark bar, of the other bookmarks and of the synced bookmarks,
    each extracted on its own: the prepared insert has been executed for
    exactly the concatenation of the three, in that order, and the store
    holds the upsert of that concatenation on an empty store, that is, the
    last occurrence of each url in it. *)
Theorem main_upserts_roots_in_order
    (filepath_Join : list string -> string) (w w' : World) :
  main filepath_Join w = (Returned, w') ->
  exists (path : string) (bookmarks : Bookmarks),
    getBookmarksFilePath filepath_Join w = Ok path
    /\ fst (parseBookmarks path w) = Ok bookmarks
    /\ let all :=
         extractBookmarks (folder_Children (BookmarkBar (bm_Roots bookmarks)))
         ++ extractBookmarks (folder_Children (Other (bm_Roots bookmarks)))
         ++ extractBookmarks (folder_Children (Synced (bm_Roots bookmarks))) in
       stmt_execs (trace w')
       = stmt_execs (trace w)
         ++ map (fun b => EvStmtExec "bookmarks.db" insertSQL (insert_args b)) all
       /\ stored "bookmarks.db" (upsert_all [] all) w'
       /\ forall r : BookmarkRecord,
            In r (upsert_all [] all)
            <-> exists pre b post,
                  all = pre ++ b :: post /\ r = record_of b
                  /\ ~ In (item_URL b) (map item_URL post).
Proof.
  unfold main. intros Hmain.
  destruct (getBookmarksFilePath filepath_Join w) as [path|e] eqn:Hpath;
    [|discriminate].
  set (w1 := fmt_Printf _ w) in Hmain.
  pose proof (parseBookmarks_stdout path
                ("Найден файл закладок: " ++ path ++ newline) w) as Hsame.
  pose proof (parseBookmarks_frame path w1) as (Hf2 & Ht2).
  fold (fmt_Printf ("Найден файл закладок: " ++ path ++ newline) w) in Hsame.
  fold w1 in Hsame.
  destruct (parseBookmarks path w1) as [[bookmarks|e] w2]; [|discriminate].
  simpl in Hsame, Hf2, Ht2.
  destruct (initDB "bookmarks.db" w2) as [[db|e] w3] eqn:Hinit; [|discriminate].
  apply initDB_fresh in Hinit as (-> & Hst3 & Ht3 & _).
  unfold defer_in_main in Hmain. simpl app in Hmain.
  set (all := (extractBookmarks (folder_Children (BookmarkBar (bm_Roots bookmarks)))
               ++ extractBookmarks (folder_Children (Other (bm_Roots bookmarks))))
              ++ extractBookmarks (folder_Children (Synced (bm_Roots bookmarks)))) in *.
  pose proof (saveBookmarksToDB_stored "bookmarks.db" [] all w3 Hst3) as Hsave.
  destruct (saveBookmarksToDB (mkDB "bookmarks.db") all w3) as [[e|] w5];
    [discriminate|].
  destruct Hsave as (Hsave & _). destruct (Hsave eq_refl) as (Hst5 & Ht5).
  set (w6 := fmt_Printf _ w5) in Hmain.
  pose proof (PrintBookmarks_frame (mkDB "bookmarks.db") w6) as (Hf7 & evs & Ht7 & Hq).
  rewrite connect_existing in Hf7 by (subst w6; simpl; rewrite Hst5; eauto).
  destruct (query_events_quiet "bookmarks.db" evs Hq) as (Hquiet & _).
  exists path, bookmarks. split; [reflexivity|]. split; [now rewrite <- Hsame|].
  rewrite app_assoc. fold all.
  assert (Hfinal : files w' = files w5 /\ stmt_execs (trace w') = stmt_execs (trace w5)).
  { destruct (PrintBookmarks (mkDB "bookmarks.db") w6) as [[e|] w7];
      injection Hmain as <-; simpl in *; rewrite Hf7, Ht7, !stmt_execs_app, Hquiet;
      simpl; now rewrite !app_nil_r. }
  destruct Hfinal as (Hf & Ht).
  split; [|split].
  - rewrite Ht, Ht5, Ht3, Ht2. rewrite !stmt_execs_app, stmt_execs_inserts.
    subst w1. simpl. now rewrite !app_nil_r.
  - unfold stored in *. now rewrite Hf.
  - intros r. rewrite in_upsert_all. split.
    + intros [[[] _]|H]; exact H.
    + intros H. now right.
Qed.

Lemma main_upserts_roots_in_order_example :
  let w := example_main_world [] in
  let w' := snd (main windows_Join w) in
  main windows_Join w = (Returned, w')
  /\ stmt_execs (trace w')
     = map (fun b => EvStmtExec "bookmarks.db" insertSQL (insert_args b))
         [example_url "A" "http://a"; example_url "B" "http://b";
          example_url "C" "http://c"; example_url "A again" "http://a"]
  /\ stored "bookmarks.db"
       [mkBookmarkRecord "B" "http://b"; mkBookmarkRecord "C" "http://c";
        mkBookmarkRecord "A again" "http://a"] w'.
Proof.
  intros w w'.
  assert (Hmain : main windows_Join w = (Returned, w')) by (vm_compute; reflexivity).
  split; [exact Hmain|].
  destruct (main_upserts_roots_in_order windows_Join w w' Hmain)
    as (path & bookmarks & Hpath & Hparse & Hexecs & Hstored & _).
  assert (Hb : fst (parseBookmarks example_bookmarks_path w) = Ok bookmarks).
  { assert (Hp : getBookmarksFilePath windows_Join w = Ok example_bookmarks_path)
      by (vm_compute; reflexivity).
    rewrite Hp in Hpath. injection Hpath as <-. exact Hparse. }
  vm_compute in Hb. injection Hb as <-.
  split; [exact Hexecs|exact Hstored].
Defined.

(** *** The handle of the database in the driver *)

Lemma db_Prepare_trace (db : DB) (q : statement) (w : World) :
  trace (snd (db_Prepare db q w)) = trace w ++ [EvPrepare (db_path db) q].
Proof.
  unfold db_Prepare. set (w0 := record _ w).
  pose proof (next_fault_frame w0) as (_ & Ht & _).
  destruct (next_fault w0) as [[e|] w1]; cbn [fst snd] in *; [exact Ht|].
  now rewrite (proj1 (connect_frame _ _)).
Qed.

Lemma saveBookmarksToDB_loop_trace (stmt : Stmt) (batch : list BookmarkItem) :
  forall w : World,
    exists done,
      trace (snd (saveBookmarksToDB_loop stmt batch w))
      = trace w
        ++ map (fun b => EvStmtExec (stmt_path stmt) (stmt_query stmt) (insert_args b)) done.
Proof.
  induction batch as [|b rest IH]; intros w; simpl.
  - exists []. simpl. now rewrite app_nil_r.
  - pose proof (stmt_Exec_trace stmt (insert_args b) w) as Ht.
    destruct (stmt_Exec stmt (insert_args b) w) as [[e|] w1]; cbn [snd] in *.
    + now exists [b].
    + destruct (IH w1) as (done & Hdone). exists (b :: done).
      rewrite Hdone, Ht, <- app_assoc. reflexivity.
Qed.

(** [saveBookmarksToDB], successful or not, opens and closes no handle of
    the database. *)
Lemma saveBookmarksToDB_handles (db : DB) (batch : list BookmarkItem) (w : World)
    (path : string) :
  closes path (trace (snd (saveBookmarksToDB db batch w))) = closes path (trace w)
  /\ opens path (trace (snd (saveBookmarksToDB db batch w))) = opens path (trace w).
Proof.
  unfold saveBookmarksToDB.
  pose proof (db_Prepare_trace db insertSQL w) as Hp.
  destruct (db_Prepare db insertSQL w) as [[stmt|e] w1]; cbn [snd] in *.
  - unfold defer.
    destruct (saveBookmarksToDB_loop_trace stmt batch w1) as (done & Hl).
    destruct (saveBookmarksToDB_loop stmt batch w1) as [err w2]; cbn [snd] in *.
    unfold stmt_Close. simpl. rewrite Hl, Hp, !closes_app, !opens_app.
    assert (Hq : forall l : list BookmarkItem,
               closes path (map (fun b => EvStmtExec (stmt_path stmt) (stmt_query stmt)
                                            (insert_args b)) l) = 0%nat
               /\ opens path (map (fun b => EvStmtExec (stmt_path stmt) (stmt_query stmt)
                                              (insert_args b)) l) = 0%nat)
      by (induction l; simpl; auto).
    destruct (Hq done) as (-> & ->). unfold closes, opens. simpl. lia.
  - rewrite Hp, closes_app, opens_app. unfold closes, opens. simpl. lia.
Qed.

(** X22. Whenever [initDB] has succeeded and [saveBookmarksToDB] reports
    an error, [main] ends in [log.Fatalf]: the process exits with status 1
    with the handle opened and, the deferred call not being run, not
    closed. *)
Lemma main_save_error_exits_unclosed (filepath_Join : list string -> string)
    (w w2 w3 : World) (path : string) (bookmarks : Bookmarks) (db : DB) :
  getBookmarksFilePath filepath_Join w = Ok path ->
  parseBookmarks path (fmt_Printf ("Найден файл закладок: " ++ path ++ newline) w)
  = (Ok bookmarks, w2) ->
  initDB "bookmarks.db" w2 = (Ok db, w3) ->
  fst (saveBookmarksToDB db
         (extractBookmarks (folder_Children (BookmarkBar (bm_Roots bookmarks)))
          ++ extractBookmarks (folder_Children (Other (bm_Roots bookmarks)))
          ++ extractBookmarks (folder_Children (Synced (bm_Roots bookmarks)))) w3)
  <> None ->
  fst (main filepath_Join w) = Exited 1
  /\ opens "bookmarks.db" (trace (snd (main filepath_Join w)))
     = S (opens "bookmarks.db" (trace w))
  /\ closes "bookmarks.db" (trace (snd (main filepath_Join w)))
     = closes "bookmarks.db" (trace w).
Proof.
  intros Hpath Hparse Hinit Hsave. unfold main.
  rewrite Hpath, Hparse, Hinit. unfold defer_in_main. simpl app.
  rewrite app_assoc in Hsave.
  pose proof (parseBookmarks_frame path
                (fmt_Printf ("Найден файл закладок: " ++ path ++ newline) w)) as (_ & Ht2).
  rewrite Hparse in Ht2. simpl in Ht2.
  apply initDB_fresh in Hinit as (-> & _ & Ht3 & _).
  match goal with |- context [saveBookmarksToDB ?d ?l w3] =>
    destruct (saveBookmarksToDB_handles d l w3 "bookmarks.db") as (Hc & Ho);
    destruct (saveBookmarksToDB d l w3) as [[e|] w5]
  end; [|now destruct Hsave].
  cbn [fst snd] in *. unfold log_Fatalf, log_Printf. simpl.
  rewrite Hc, Ho, Ht3, Ht2, closes_app, opens_app. unfold closes, opens. simpl.
  split; [reflexivity|]. split; lia.
Qed.

(** X21. Whenever [main] returns, with or without a listing, the handle
    of the database has been opened once and closed once. *)
Lemma main_returned_closes_once (filepath_Join : list string -> string)
    (w w' : World) :
  main filepath_Join w = (Returned, w') ->
  opens "bookmarks.db" (trace w') = S (opens "bookmarks.db" (trace w))
  /\ closes "bookmarks.db" (trace w') = S (closes "bookmarks.db" (trace w)).
Proof.
  unfold main. intros Hmain.
  destruct (getBookmarksFilePath filepath_Join w) as [path|e]; [|discriminate].
  set (w1 := fmt_Printf _ w) in Hmain.
  pose proof (parseBookmarks_frame path w1) as (_ & Ht2).
  destruct (parseBookmarks path w1) as [[bookmarks|e] w2]; [|discriminate].
  simpl in Ht2.
  destruct (initDB "bookmarks.db" w2) as [[db|e] w3] eqn:Hinit; [|discriminate].
  apply initDB_fresh in Hinit as (-> & _ & Ht3 & _).
  unfold defer_in_main in Hmain. simpl app in Hmain.
  match type of Hmain with context [saveBookmarksToDB ?d ?l w3] =>
    destruct (saveBookmarksToDB_handles d l w3 "bookmarks.db") as (Hc & Ho);
    destruct (saveBookmarksToDB d l w3) as [[e|] w5]
  end; [discriminate|].
  set (w6 := fmt_Printf _ w5) in Hmain.
  pose proof (PrintBookmarks_frame (mkDB "bookmarks.db") w6) as (_ & evs & Ht7 & Hq).
  destruct (query_events_quiet "bookmarks.db" evs Hq) as (_ & Hqc & Hqo).
  destruct (PrintBookmarks (mkDB "bookmarks.db") w6) as [[e|] w7];
    injection Hmain as <-; simpl in *;
    rewrite Ht7, !closes_app, !opens_app, Hqc, Hqo, Hc, Ho, Ht3, Ht2,
      closes_app, opens_app; unfold closes, opens; simpl; lia.
Qed.

(** C5, where the code departs from it.  In the run of the example in which
    the first insert fails, [initDB] has succeeded and opened the database,
    [main] ends in [log.Fatalf], the process exits with status 1, and the
    deferred [db.Close()] has not run: the handle is never closed.  In the
    run in which nothing fails, and in the run in which only the query of
    [PrintBookmarks] fails, [main] returns and the handle is closed once. *)
Theorem main_exit_on_save_error_skips_Close :
  let failed := main windows_Join (example_main_world example_disk_full) in
  let succeeded := main windows_Join (example_main_world []) in
  let unprinted :=
    main windows_Join
      (example_main_world
         [None; None; None; None; None; None; None; Some (ErrMsg "disk I/O error")]) in
  (fst failed = Exited 1
   /\ opens "bookmarks.db" (trace (snd failed)) = 1%nat
   /\ closes "bookmarks.db" (trace (snd failed)) = 0%nat
   /\ stderr (snd failed)
      = [("Ошибка при сохранении закладок в базу данных: "
          ++ "ошибка вставки закладки: database or disk is full" ++ newline)%string])
  /\ (fst succeeded = Returned
      /\ opens "bookmarks.db" (trace (snd succeeded)) = 1%nat
      /\ closes "bookmarks.db" (trace (snd succeeded)) = 1%nat)
  /\ (fst unprinted = Returned
      /\ stderr (snd unprinted) <> []
      /\ closes "bookmarks.db" (trace (snd unprinted)) = 1%nat).
Proof.
  repeat split; try (vm_compute; reflexivity).
  vm_compute. intros H. discriminate H.
Qed.

(** *** The listing *)

(** On a store that holds [recs], [PrintBookmarks] that succeeds prints the
    heading, one line for each record in rowid order, the rule and the
    number of records. *)
Lemma PrintBookmarks_output (path : string) (recs : list BookmarkRecord) (w w' : World) :
  stored path recs w ->
  PrintBookmarks (mkDB path) w = (None, w') ->
  stdout w'
  = stdout w
    ++ [("Список закладок:" ++ newline)%string; (rule ++ newline)%string;
        table_line "Название" "URL"; (rule ++ newline)%string]
    ++ map PrintBookmarks_line recs
    ++ [(rule ++ newline)%string;
        ("Всего закладок: " ++ fmt_d (length recs) ++ newline)%string].
Proof.
  intros Hst. unfold PrintBookmarks.
  destruct (GetAllBookmarks (mkDB path) w) as [[rs|e] w1] eqn:Hq; [|discriminate].
  apply (GetAllBookmarks_stored _ _ _ _ _ Hst) in Hq as (-> & _ & _ & Ho & _).
  intros [= <-].
  match goal with |- context [fold_left ?f recs ?x] =>
    destruct (fold_left_Printf_frame recs x) as (_ & _ & _ & Hlines) end.
  simpl in *. rewrite Hlines, Ho. simpl.
  now rewrite <- !app_assoc.
Qed.

(** Where every character is one byte, bytes and characters agree. *)
Lemma PrintBookmarks_line_single_bytes (bookmark : BookmarkRecord) :
  RuneCountInString (rec_Name bookmark) = len (rec_Name bookmark) ->
  RuneCountInString (rec_URL bookmark) = len (rec_URL bookmark) ->
  PrintBookmarks_line bookmark
  = table_line
      (if (27 <? RuneCountInString (rec_Name bookmark))%nat
       then (slice_to (rec_Name bookmark) 24 ++ "...")%string
       else rec_Name bookmark)
      (if (37 <? RuneCountInString (rec_URL bookmark))%nat
       then (slice_to (rec_URL bookmark) 34 ++ "...")%string
       else rec_URL bookmark).
Proof. intros -> ->. reflexivity. Qed.

(** C7, where the code departs from it.  [PrintBookmarks] measures and
    cuts names in bytes: the name of the example has 19 characters, fewer
    than 27, and 35 bytes, so it is printed cut to its first 24 bytes, which
    end with the first byte of its thirteenth character, with the dots;
    the line is not the line of the unchanged name.  A name of 27 ASCII
    characters is printed as it is and one of 28 is cut. *)
Theorem PrintBookmarks_cuts_by_bytes_not_characters :
  let bookmark := mkBookmarkRecord example_cyrillic_name "https://example.com" in
  let w := snd (store_run "bookmarks.db"
                  [example_url example_cyrillic_name "https://example.com"]
                  (example_world [])) in
  RuneCountInString example_cyrillic_name = 19%nat
  /\ len example_cyrillic_name = 35%nat
  /\ PrintBookmarks_line bookmark
     = table_line (slice_to example_cyrillic_name 24 ++ "...")%string "https://example.com"
  /\ PrintBookmarks_line bookmark <> table_line example_cyrillic_name "https://example.com"
  /\ List.last (bytes_of (slice_to example_cyrillic_name 24)) 0%N = 208%N
  /\ nth_error (stdout (snd (PrintBookmarks (mkDB "bookmarks.db") w))) 4
     = Some (PrintBookmarks_line bookmark)
  /\ PrintBookmarks_line (mkBookmarkRecord "abcdefghijklmnopqrstuvwxyz0" "u")
     = table_line "abcdefghijklmnopqrstuvwxyz0" "u"
  /\ PrintBookmarks_line (mkBookmarkRecord "abcdefghijklmnopqrstuvwxyz01" "u")
     = table_line "abcdefghijklmnopqrstuvwx..." "u".
Proof.
  repeat split; try (vm_compute; reflexivity).
  vm_compute. intros H. discriminate H.
Qed.


(** * Further properties of the functions *)

(** ** [extractBookmarks] *)

Lemma extractBookmarks_of_urls (items : list BookmarkItem) :
  Forall (fun b => item_Type b = "url") items -> extractBookmarks items = items.
Proof.
  induction 1 as [|b rest Hb _ IH]; simpl; [reflexivity|].
  rewrite extractBookmarks_children, Hb, IH. reflexivity.
Qed.

(** X1. Extracting is idempotent: what [extractBookmarks] returns is
    already flat, so extracting it again gives it back. *)
Theorem extractBookmarks_idempotent (items : list BookmarkItem) :
  extractBookmarks (extractBookmarks items) = extractBookmarks items.
Proof. apply extractBookmarks_of_urls, extractBookmarks_only_urls. Qed.

(** X2. A folder stands for its children: replacing a node of type
    "folder" by the sequence of its children, at its place among its
    siblings, does not change what is extracted (also when it has no
    children). *)
Theorem extractBookmarks_folder_splice
    (n : BookmarkItem) (before after : list BookmarkItem) :
  item_Type n = "folder" ->
  extractBookmarks (before ++ n :: after)
  = extractBookmarks (before ++ item_Children n ++ after).
Proof.
  intros Hty. rewrite !extractBookmarks_app. simpl.
  rewrite extractBookmarks_children, Hty. simpl.
  now destruct (item_Children n).
Qed.

Lemma extractBookmarks_folder_splice_example :
  let a := example_url "A" "http://a" in
  let b := example_url "B" "http://b" in
  let c := example_url "C" "http://c" in
  let f := example_folder "F" [a; example_folder "G" [b]] in
  item_Type f = "folder"
  /\ extractBookmarks ([c] ++ f :: [c])
     = extractBookmarks ([c] ++ [a; example_folder "G" [b]] ++ [c])
  /\ extractBookmarks ([c] ++ f :: [c]) = [c; a; b; c].
Proof.
  intros a b c f. split; [reflexivity|]. split.
  - exact (extractBookmarks_folder_splice f [c] [c] eq_refl).
  - reflexivity.
Defined.

(** ** What the functions leave alone *)

Lemma only_database_refl (path : string) (w : World) : only_database path w w.
Proof.
  unfold only_database. repeat split; auto. exists []. now rewrite app_nil_r.
Qed.

Lemma only_database_trans (path : string) (w1 w2 w3 : World) :
  only_database path w1 w2 -> only_database path w2 w3 -> only_database path w1 w3.
Proof.
  intros (Hv & Ho & He & Hf & evs & Ht) (Hv' & Ho' & He' & Hf' & evs' & Ht').
  unfold only_database. repeat split; try congruence.
  - intros q Hq. rewrite (Hf' q Hq). now apply Hf.
  - exists (evs ++ evs'). now rewrite Ht', Ht, app_assoc.
Qed.

Lemma only_database_record (path : string) (ev : event) (w : World) :
  only_database path w (record ev w).
Proof. unfold only_database. simpl. repeat split; auto. now exists [ev]. Qed.

Lemma only_database_next_fault (path : string) (w : World) :
  only_database path w (snd (next_fault w)).
Proof.
  destruct (next_fault_frame w) as (Hf & Ht & Ho & He & Hv).
  unfold only_database. repeat split; auto.
  - intros q _. now rewrite Hf.
  - exists []. now rewrite app_nil_r.
Qed.

Lemma only_database_connect (path : string) (w : World) :
  only_database path w (connect path w).
Proof.
  destruct (connect_frame path w) as (Ht & Ho & He & Hv & _).
  unfold only_database. repeat split; auto.
  - intros q Hq. now apply connect_other.
  - exists []. now rewrite app_nil_r.
Qed.

Lemma only_database_engine_write (path : string) (q : statement)
    (args : list sqlvalue) (w : World) :
  only_database path w (snd (engine_write path q args w)).
Proof.
  destruct (engine_write path q args w) as [[e|] w'] eqn:Hw; simpl.
  - apply engine_write_failed in Hw as ->.
    eapply only_database_trans; [apply only_database_next_fault|].
    apply only_database_connect.
  - apply engine_write_done in Hw as (d & d' & _ & _ & _ & ->).
    destruct (only_database_next_fault path w) as (Hv & Ho & He & Hf & evs & Ht).
    unfold only_database. simpl. repeat split; auto.
    + intros p Hp. now rewrite lookup_insert_ne by congruence.
    + now exists evs.
Qed.

Lemma only_database_stmt_Exec (path : string) (q : statement) (args : list sqlvalue)
    (w : World) :
  only_database path w (snd (stmt_Exec (mkStmt path q) args w)).
Proof.
  unfold stmt_Exec. eapply only_database_trans; [apply only_database_record|].
  apply only_database_engine_write.
Qed.

Lemma only_database_db_Prepare (path : string) (q : statement) (w : World) :
  only_database path w (snd (db_Prepare (mkDB path) q w)).
Proof.
  unfold db_Prepare. simpl.
  eapply only_database_trans; [apply (only_database_record path (EvPrepare path q))|].
  pose proof (only_database_next_fault path (record (EvPrepare path q) w)) as H.
  destruct (next_fault (record (EvPrepare path q) w)) as [[e|] w1];
    cbn [fst snd] in *; [exact H|].
  eapply only_database_trans; [exact H|apply only_database_connect].
Qed.

Lemma only_database_loop (path : string) (batch : list BookmarkItem) :
  forall w : World,
    only_database path w (snd (saveBookmarksToDB_loop (mkStmt path insertSQL) batch w)).
Proof.
  induction batch as [|b rest IH]; intros w; simpl; [apply only_database_refl|].
  pose proof (only_database_stmt_Exec path insertSQL (insert_args b) w) as H.
  destruct (stmt_Exec (mkStmt path insertSQL) (insert_args b) w) as [[e|] w1];
    simpl in *; [exact H|].
  eapply only_database_trans; [exact H|apply IH].
Qed.

Lemma db_Prepare_stmt (db : DB) (q : statement) (w w' : World) (stmt : Stmt) :
  db_Prepare db q w = (Ok stmt, w') -> stmt = mkStmt (db_path db) q.
Proof.
  unfold db_Prepare.
  destruct (next_fault _) as [[e|] w1]; [discriminate|].
  now intros [= <- _].
Qed.

Lemma only_database_saveBookmarksToDB (path : string) (batch : list BookmarkItem)
    (w : World) :
  only_database path w (snd (saveBookmarksToDB (mkDB path) batch w)).
Proof.
  unfold saveBookmarksToDB.
  pose proof (only_database_db_Prepare path insertSQL w) as Hp.
  destruct (db_Prepare (mkDB path) insertSQL w) as [[stmt|e] w1] eqn:Hprep;
    simpl in *; [|exact Hp].
  apply db_Prepare_stmt in Hprep as ->. simpl. unfold defer.
  pose proof (only_database_loop path batch w1) as Hl.
  destruct (saveBookmarksToDB_loop (mkStmt path insertSQL) batch w1) as [err w2].
  simpl in *.
  eapply only_database_trans; [exact Hp|].
  eapply only_database_trans; [exact Hl|apply only_database_record].
Qed.

Lemma only_database_GetAllBookmarks_loop (path : string) (pending : list row) :
  forall (acc : list BookmarkRecord) (w : World),
    only_database path w (snd (GetAllBookmarks_loop pending acc w)).
Proof.
  induction pending as [|r rest IH]; intros acc w; simpl; [apply only_database_refl|].
  pose proof (only_database_next_fault path w) as H.
  destruct (next_fault w) as [[e|] w1]; simpl in *; [exact H|].
  destruct (rows_Scan r); simpl; [|exact H].
  eapply only_database_trans; [exact H|apply IH].
Qed.

Lemma only_database_GetAllBookmarks (path : string) (w : World) :
  only_database path w (snd (GetAllBookmarks (mkDB path) w)).
Proof.
  unfold GetAllBookmarks, db_Query. cbn [db_path].
  eapply only_database_trans;
    [apply (only_database_record path (EvQuery path selectSQL))|].
  pose proof (only_database_next_fault path (record (EvQuery path selectSQL) w)) as H0.
  destruct (next_fault (record (EvQuery path selectSQL) w)) as [fault w1];
    cbn [fst snd] in *. cbv zeta.
  assert (H : only_database path (record (EvQuery path selectSQL) w) (connect path w1))
    by (eapply only_database_trans; [exact H0|apply only_database_connect]).
  clear H0. destruct fault as [e|]; cbn [fst snd]; [exact H|].
  destruct (database_at path _) as [d|e]; cbn [fst snd]; [|exact H].
  destruct (compile d selectSQL); cbn [fst snd]; [exact H|].
  unfold defer, selectSQL. cbn [rows_pending].
  match goal with |- context [GetAllBookmarks_loop ?p ?a ?x] =>
    pose proof (only_database_GetAllBookmarks_loop path p a x) as Hl;
    destruct (GetAllBookmarks_loop p a x) as [r w2]
  end.
  cbn [fst snd] in *.
  eapply only_database_trans; [exact H|].
  eapply only_database_trans; [exact Hl|apply only_database_record].
Qed.

Lemma only_database_initDB (path : string) (w : World) :
  only_database path w (snd (initDB path w)).
Proof.
  unfold initDB.
  assert (Hgo : forall w0 : World,
             only_database path w0
               (snd (match sql_Open "sqlite" path w0 with
                     | (Err err, w2) =>
                         (Err (ErrWrap "ошибка открытия базы данных: " err), w2)
                     | (Ok db0, w2) =>
                         match db_Exec db0 createTableSQL [] w2 with
                         | (Some err, w3) =>
                             (Err (ErrWrap "ошибка создания таблицы: " err),
                              db_Close db0 w3)
                         | (None, w3) => (Ok db0, w3)
                         end
                     end))).
  { intros w0. simpl. unfold db_Exec. simpl.
    eapply only_database_trans; [apply (only_database_record path (EvOpen path))|].
    eapply only_database_trans;
      [apply (only_database_record path (EvExec path createTableSQL []))|].
    match goal with |- context [engine_write path ?q ?a ?x] =>
      pose proof (only_database_engine_write path q a x) as Hw;
      destruct (engine_write path q a x) as [[e|] w3]
    end; simpl in *; [|exact Hw].
    eapply only_database_trans; [exact Hw|apply only_database_record]. }
  destruct (os_Stat_ok path w); [|apply Hgo].
  unfold os_Remove.
  pose proof (only_database_next_fault path w) as H.
  destruct (next_fault w) as [[e|] w0]; simpl in *; [exact H|].
  eapply only_database_trans; [exact H|].
  eapply only_database_trans; [|apply Hgo].
  unfold only_database. simpl. repeat split; auto.
  - intros q Hq. now rewrite lookup_delete_ne by congruence.
  - exists []. now rewrite app_nil_r.
Qed.

Lemma initDB_path (path : string) (w w' : World) (db : DB) :
  initDB path w = (Ok db, w') -> db = mkDB path.
Proof. intros H. now apply initDB_fresh in H as (-> & _). Qed.

(** ** [getBookmarksFilePath] and [parseBookmarks] *)



Lemma os_ReadFile_frame (path : string) (w : World) :
  let w' := snd (os_ReadFile path w) in
  environ w' = environ w /\ files w' = files w /\ stdout w' = stdout w
  /\ stderr w' = stderr w /\ trace w' = trace w /\ faults w' = tail (faults w).
Proof.
  unfold os_ReadFile, next_fault.
  destruct (faults w) as [|[e|] fs] eqn:Hfl; simpl; rewrite ?Hfl; auto 10;
    destruct (files w !! path) as [[data|d]|]; simpl; rewrite ?Hfl; auto 10.
Qed.

(** X4. [parseBookmarks] only reads: it leaves the environment, every
    file, the output and the trace of the database as they are and makes
    one call that the system may fail.  When there is no file at the path,
    or the read fails, it returns the error of the read wrapped as such, so
    never the error of the decoder. *)
Theorem parseBookmarks_only_reads (filePath : string) (w : World) :
  (let w' := snd (parseBookmarks filePath w) in
   environ w' = environ w /\ files w' = files w /\ stdout w' = stdout w
   /\ stderr w' = stderr w /\ trace w' = trace w /\ faults w' = tail (faults w))
  /\ (files w !! filePath = None \/ (exists e, head (faults w) = Some (Some e)) ->
      exists e, fst (parseBookmarks filePath w)
                = Err (ErrWrap "ошибка чтения файла закладок: " e)).
Proof.
  split.
  - pose proof (os_ReadFile_frame filePath w) as H. unfold parseBookmarks.
    destruct (os_ReadFile filePath w) as [[data|e] w1]; simpl in *; [|exact H].
    now destruct (json_Unmarshal data zero_Bookmarks).
  - unfold parseBookmarks, os_ReadFile, next_fault.
    intros [Hnone|(e & He)].
    + destruct (faults w) as [|[e|] fs]; simpl; rewrite ?Hnone; eauto.
    + destruct (faults w) as [|[e0|] fs]; simpl in *; try discriminate. eauto.
Qed.

Lemma parseBookmarks_only_reads_example :
  files (example_world []) !! "Bookmarks" = None
  /\ exists e, fst (parseBookmarks "Bookmarks" (example_world []))
               = Err (ErrWrap "ошибка чтения файла закладок: " e).
Proof.
  assert (Hnone : files (example_world []) !! "Bookmarks" = None)
    by (vm_compute; reflexivity).
  split; [exact Hnone|].
  destruct (parseBookmarks_only_reads "Bookmarks" (example_world [])) as (_ & Hfail).
  apply Hfail. now left.
Defined.

(** ** Decoding what the tags describe *)

Lemma render_BookmarkItem_children (da id name ty url : string)
    (children : list BookmarkItem) :
  render_BookmarkItem (mkBookmarkItem da id name ty url children)
  = JObject
      ([("date_added", JString da); ("id", JString id); ("name", JString name);
        ("type", JString ty)]
       ++ (if String.eqb url "" then [] else [("url", JString url)])
       ++ match children with
          | [] => []
          | _ :: _ => [("children", JArray (map render_BookmarkItem children))]
          end).
Proof. now destruct children. Qed.

Lemma decode_array_rendered {T : Type} (decode_elem : value -> T -> result T)
    (zero : T) (render : T -> value) (xs : list T) :
  Forall (fun x => decode_elem (render x) zero = Ok x) xs ->
  decode_array decode_elem zero (map render xs) [] = Ok xs.
Proof.
  induction 1 as [|x xs Hx _ IH]; simpl; [reflexivity|].
  now rewrite Hx, IH.
Qed.

Lemma decode_rendered_BookmarkItem (item : BookmarkItem) :
  decode_BookmarkItem (render_BookmarkItem item) zero_BookmarkItem = Ok item.
Proof.
  induction item as [da id name ty url children IH] using BookmarkItem_forall_ind.
  rewrite render_BookmarkItem_children.
  pose proof (decode_array_rendered decode_BookmarkItem zero_BookmarkItem
                render_BookmarkItem children IH) as Hchildren.
  destruct (String.eqb_spec url "") as [->|Hurl]; destruct children as [|c cs].
  - reflexivity.
  - cbn -[decode_array map]. cbn -[decode_array map] in Hchildren.
    now rewrite Hchildren.
  - reflexivity.
  - cbn -[decode_array map]. cbn -[decode_array map] in Hchildren.
    now rewrite Hchildren.
Qed.

Lemma decode_rendered_BookmarkItems (items : list BookmarkItem) :
  decode_BookmarkItems (JArray (map render_BookmarkItem items)) [] = Ok items.
Proof.
  apply (decode_array_rendered decode_BookmarkItem zero_BookmarkItem render_BookmarkItem).
  apply List.Forall_forall. intros item _. apply decode_rendered_BookmarkItem.
Qed.

Lemma decode_rendered_BookmarkFolder (f : BookmarkFolder) :
  decode_BookmarkFolder (render_BookmarkFolder f) zero_BookmarkFolder = Ok f.
Proof.
  destruct f as [children da dm id name ty]. unfold render_BookmarkFolder.
  cbn [folder_Children folder_DateAdded folder_DateModified folder_ID folder_Name
       folder_Type].
  pose proof (decode_rendered_BookmarkItems children) as Hchildren.
  destruct (String.eqb_spec dm "") as [->|Hdm];
    cbn -[decode_BookmarkItems map]; cbn -[decode_BookmarkItems map] in Hchildren;
    rewrite Hchildren; reflexivity.
Qed.

Lemma decode_rendered_Roots (r : Roots) :
  decode_Roots (render_Roots r) zero_Roots = Ok r.
Proof.
  destruct r as [bar other synced]. unfold render_Roots.
  cbn -[decode_BookmarkFolder render_BookmarkFolder].
  rewrite (decode_rendered_BookmarkFolder bar). cbn -[decode_BookmarkFolder render_BookmarkFolder].
  rewrite (decode_rendered_BookmarkFolder other). cbn -[decode_BookmarkFolder render_BookmarkFolder].
  now rewrite (decode_rendered_BookmarkFolder synced).
Qed.

(** X5. Decoding takes every field from its tag: the JSON text that the
    tags of the structs describe for a value (with the fields tagged
    [omitempty] left out when empty) decodes to that value, for every tree
    of bookmarks whose strings are valid UTF-8, that is not nested deeper
    than the decoder allows and whose version fits an [int]. *)
Theorem json_Unmarshal_rendered (b : Bookmarks) :
  valid_Bookmarks b = true ->
  (N.of_nat (nesting (render_Bookmarks b)) <= maxNestingDepth)%N ->
  (- 2 ^ 63 <= bm_Version b < 2 ^ 63)%Z ->
  json_Unmarshal (Document (render_Bookmarks b)) zero_Bookmarks = Ok b.
Proof.
  intros _ Hdepth Hversion. unfold json_Unmarshal.
  apply N.leb_le in Hdepth. rewrite Hdepth.
  destruct b as [roots version checksum]. unfold render_Bookmarks. simpl in Hversion.
  cbn -[decode_Roots render_Roots Z.pow Z.leb Z.ltb].
  unfold zero_Roots at 1.
  change (mkRoots zero_BookmarkFolder zero_BookmarkFolder zero_BookmarkFolder)
    with zero_Roots.
  rewrite (decode_rendered_Roots roots). cbn -[Z.pow Z.leb Z.ltb].
  assert (Hin : ((- 2 ^ 63 <=? version) && (version <? 2 ^ 63))%Z = true).
  { apply andb_true_iff. split; [apply Z.leb_le|apply Z.ltb_lt]; lia. }
  now rewrite Hin.
Qed.

Lemma json_Unmarshal_rendered_example :
  let b :=
    mkBookmarks
      (mkRoots
         (mkBookmarkFolder
            [example_folder "F" [example_url example_cyrillic_name "http://a"];
             example_url "C" "http://c"]
            "1" "2" "1" "Bookmarks bar" "folder")
         zero_BookmarkFolder zero_BookmarkFolder)
      1 "0123" in
  (valid_Bookmarks b = true
   /\ (N.of_nat (nesting (render_Bookmarks b)) <= maxNestingDepth)%N
   /\ (- 2 ^ 63 <= bm_Version b < 2 ^ 63)%Z)
  /\ json_Unmarshal (Document (render_Bookmarks b)) zero_Bookmarks = Ok b.
Proof.
  intros b.
  assert (Hvalid : valid_Bookmarks b = true) by (vm_compute; reflexivity).
  assert (Hdepth : (N.of_nat (nesting (render_Bookmarks b)) <= maxNestingDepth)%N)
    by (vm_compute; discriminate).
  assert (Hversion : (- 2 ^ 63 <= bm_Version b < 2 ^ 63)%Z) by (simpl; lia).
  split; [auto|].
  exact (json_Unmarshal_rendered b Hvalid Hdepth Hversion).
Defined.

(** ** The store: errors, order and counts *)

Lemma filter_filter {A : Type} (f g : A -> bool) (l : list A) :
  List.filter f (List.filter g l) = List.filter (fun x => g x && f x) l.
Proof.
  induction l as [|x l IH]; simpl; [reflexivity|].
  destruct (g x); simpl; [destruct (f x)|]; now rewrite IH.
Qed.

Lemma url_in_record_of (batch : list BookmarkItem) (b : BookmarkItem) :
  url_in batch (record_of b)
  = existsb (fun b' => String.eqb (item_URL b') (item_URL b)) batch.
Proof. reflexivity. Qed.

(** The upsert of a batch keeps the records whose url the batch does not
    have, in their order, and puts after them the last occurrences of the
    urls of the batch, in the order of the batch. *)
Lemma upsert_all_last_occurrences (batch : list BookmarkItem) :
  forall recs : list BookmarkRecord,
    upsert_all recs batch
    = List.filter (fun r => negb (url_in batch r)) recs ++ last_occurrences batch.
Proof.
  induction batch as [|b rest IH]; intros recs.
  - simpl. rewrite app_nil_r. induction recs as [|r recs IHr]; simpl; [reflexivity|].
    now rewrite <- IHr.
  - change (upsert_all recs (b :: rest)) with (upsert_all (upsert_record recs b) rest).
    rewrite IH. unfold upsert_record. rewrite List.filter_app, filter_filter.
    rewrite <- app_assoc. f_equal.
    + apply List.filter_ext. intros r. unfold url_in. simpl.
      rewrite negb_orb. f_equal. now rewrite String.eqb_sym.
    + simpl. rewrite url_in_record_of.
      now destruct (existsb _ rest).
Qed.

Lemma url_in_last_occurrences (batch : list BookmarkItem) :
  forall r : BookmarkRecord, In r (last_occurrences batch) -> url_in batch r = true.
Proof.
  induction batch as [|b rest IH]; intros r; simpl; [tauto|].
  unfold url_in in *. simpl.
  destruct (existsb (fun b' => String.eqb (item_URL b') (item_URL b)) rest).
  - intros H. rewrite (IH r H). apply orb_true_r.
  - intros [<-|H]; simpl.
    + now rewrite String.eqb_refl.
    + rewrite (IH r H). apply orb_true_r.
Qed.

Lemma filter_none {A : Type} (f : A -> bool) (l : list A) :
  (forall x, In x l -> f x = false) -> List.filter f l = [].
Proof.
  induction l as [|x l IH]; simpl; intros H; [reflexivity|].
  rewrite (H x) by auto. apply IH. auto.
Qed.

Lemma upsert_all_twice (batch : list BookmarkItem) (recs : list BookmarkRecord) :
  upsert_all (upsert_all recs batch) batch = upsert_all recs batch.
Proof.
  rewrite !upsert_all_last_occurrences, List.filter_app, filter_filter.
  rewrite (filter_none _ (last_occurrences batch)).
  - rewrite app_nil_r. f_equal. apply List.filter_ext. intros r.
    now destruct (url_in batch r).
  - intros r Hr. now rewrite (url_in_last_occurrences batch r Hr).
Qed.

Lemma length_last_occurrences (batch : list BookmarkItem) :
  (length (last_occurrences batch) <= length batch)%nat.
Proof.
  induction batch as [|b rest IH]; simpl; [lia|].
  destruct (existsb _ rest); simpl; lia.
Qed.

Lemma last_occurrences_all (batch : list BookmarkItem) :
  length (last_occurrences batch) = length batch
  <-> List.NoDup (map item_URL batch).
Proof.
  induction batch as [|b rest IH]; simpl.
  - split; [constructor|reflexivity].
  - pose proof (length_last_occurrences rest) as Hle.
    destruct (existsb (fun b' => String.eqb (item_URL b') (item_URL b)) rest) eqn:Hex.
    + split; [lia|]. intros Hnd. apply List.NoDup_cons_iff in Hnd as [Hnotin _].
      exfalso. apply Hnotin. apply List.existsb_exists in Hex as (b' & Hb' & Heq).
      apply String.eqb_eq in Heq. rewrite <- Heq. now apply List.in_map.
    + simpl. split.
      * intros Hlen. apply List.NoDup_cons; [|apply IH; lia].
        intros Hin. apply List.in_map_iff in Hin as (b' & Heq & Hb').
        assert (Htrue : existsb (fun b' => String.eqb (item_URL b') (item_URL b)) rest
                        = true).
        { apply List.existsb_exists. exists b'. split; [exact Hb'|].
          now apply String.eqb_eq. }
        congruence.
      * intros Hnd. apply List.NoDup_cons_iff in Hnd as [_ Hnd].
        f_equal. now apply IH.
Qed.

(** X6. When [initDB] fails, it fails in one of two ways.  Either the file
    that was there could not be removed: nothing has been opened and every
    file is as before.  Or the table could not be created: the handle that
    was opened has been closed again, and what the path held before is
    lost, for at the path there is no file, or the empty database file that
    the connection has made; the other files are as before.  Opening
    itself never fails. *)
Theorem initDB_failure (path : string) (w w' : World) (e : error) :
  initDB path w = (Err e, w') ->
  (exists cause,
      e = ErrWrap "ошибка удаления существующей базы данных: " cause
      /\ is_Some (files w !! path) /\ files w' = files w /\ trace w' = trace w)
  \/ (exists cause,
         e = ErrWrap "ошибка создания таблицы: " cause
         /\ (files w' !! path = None \/ files w' !! path = Some (DatabaseFile ∅))
         /\ (forall q : string, q <> path -> files w' !! q = files w !! q)
         /\ trace w' = trace w ++ [EvOpen path; EvExec path createTableSQL []; EvClose path]).
Proof.
  intros H.
  pose proof (only_database_initDB path w) as (_ & _ & _ & Hother & _).
  rewrite H in Hother. cbn [snd] in Hother.
  revert H. unfold initDB.
  assert (Hgo : forall w0 : World,
             files w0 !! path = None ->
             match sql_Open "sqlite" path w0 with
             | (Err err, w2) => (Err (ErrWrap "ошибка открытия базы данных: " err), w2)
             | (Ok db0, w2) =>
                 match db_Exec db0 createTableSQL [] w2 with
                 | (Some err, w3) =>
                     (Err (ErrWrap "ошибка создания таблицы: " err), db_Close db0 w3)
                 | (None, w3) => (Ok db0, w3)
                 end
             end = (Err e, w') ->
             exists cause,
               e = ErrWrap "ошибка создания таблицы: " cause
               /\ files w' !! path = Some (DatabaseFile ∅)
               /\ trace w' = trace w0 ++ [EvOpen path; EvExec path createTableSQL []; EvClose path]).
  { intros w0 Hnone. simpl. unfold db_Exec. simpl.
    destruct (engine_write path createTableSQL [] _) as [[e0|] w3] eqn:Hw; [|discriminate].
    intros [= <- <-]. apply engine_write_failed in Hw as ->.
    match goal with |- context [next_fault ?x] =>
      pose proof (next_fault_frame x) as (Hf & Ht & _) end.
    exists e0. cbn [db_Close record files trace]. split; [reflexivity|].
    rewrite connect_files, (proj1 (connect_frame _ _)), Hf, Ht. simpl.
    rewrite Hnone, lookup_insert_eq, <- !app_assoc. auto. }
  unfold os_Stat_ok. case_bool_decide as Hex.
  - unfold os_Remove.
    pose proof (next_fault_frame w) as (Hf & Ht & _).
    destruct (next_fault w) as [[e0|] w0]; simpl in *.
    + intros [= <- <-]. left. exists e0. auto.
    + intros H. right. apply Hgo in H; [|simpl; apply lookup_delete_eq].
      destruct H as (cause & He & Hfile & Htr). exists cause.
      simpl in Htr. rewrite Ht in Htr. auto.
  - intros H. right. apply Hgo in H; [|now apply eq_None_not_Some].
    destruct H as (cause & He & Hfile & Htr). exists cause. auto.
Qed.

Lemma initDB_failure_example :
  let e := ErrMsg "disk I/O error" in
  let w := example_world [None; Some e] in
  let w' := snd (initDB "bookmarks.db" w) in
  initDB "bookmarks.db" w = (Err (ErrWrap "ошибка создания таблицы: " e), w')
  /\ files w !! "bookmarks.db" = Some (DatabaseFile example_stale_db)
  /\ (files w' !! "bookmarks.db" = None
      \/ files w' !! "bookmarks.db" = Some (DatabaseFile ∅))
  /\ closes "bookmarks.db" (trace w') = 1%nat.
Proof.
  intros e w w'.
  assert (H : initDB "bookmarks.db" w = (Err (ErrWrap "ошибка создания таблицы: " e), w'))
    by (vm_compute; reflexivity).
  split; [exact H|]. split; [vm_compute; reflexivity|].
  destruct (initDB_failure "bookmarks.db" w w' _ H)
    as [(cause & Hcause & _)|(cause & _ & Hgone & _ & Htrace)]; [discriminate|].
  split; [exact Hgone|]. rewrite Htrace. reflexivity.
Defined.

(** X7. [initDB], [saveBookmarksToDB] and [GetAllBookmarks], whether they
    succeed or fail, change no file but the one of their database, leave
    the environment as it is, print nothing, and only add to the trace. *)
Theorem store_functions_only_database (path : string) (batch : list BookmarkItem)
    (w : World) :
  only_database path w (snd (initDB path w))
  /\ only_database path w (snd (saveBookmarksToDB (mkDB path) batch w))
  /\ only_database path w (snd (GetAllBookmarks (mkDB path) w)).
Proof.
  split; [apply only_database_initDB|].
  split; [apply only_database_saveBookmarksToDB|].
  apply only_database_GetAllBookmarks.
Qed.

Lemma saveBookmarksToDB_unprepared (db : DB) (batch : list BookmarkItem) (w : World)
    (e : error) :
  fst (db_Prepare db insertSQL w) = Err e ->
  fst (saveBookmarksToDB db batch w)
  = Some (ErrWrap "ошибка подготовки SQL запроса: " e)
  /\ trace (snd (saveBookmarksToDB db batch w))
     = trace w ++ [EvPrepare (db_path db) insertSQL]
  /\ files (snd (saveBookmarksToDB db batch w)) = files w.
Proof.
  unfold saveBookmarksToDB.
  pose proof (db_Prepare_trace db insertSQL w) as Hp.
  destruct (db_Prepare db insertSQL w) as [[stmt|e'] w1] eqn:Hprep; cbn [fst snd] in *;
    [discriminate|].
  intros [= ->]. split; [reflexivity|]. split; [exact Hp|].
  unfold db_Prepare in Hprep.
  match type of Hprep with context [next_fault ?x] =>
    pose proof (next_fault_frame x) as (Hf & _) end.
  destruct (next_fault _) as [[e0|] w0]; cbn [fst snd] in *; [|discriminate].
  injection Hprep as _ <-. exact Hf.
Qed.

(** X8. [saveBookmarksToDB] closes the statement that it prepares exactly
    once, after its last execution, whether the inserts succeed or one
    fails: the calls it makes are the preparation, one execution for each
    bookmark of a prefix of the batch, and the closing.  When the
    preparation fails it returns that error wrapped and has executed and
    written nothing. *)
Theorem saveBookmarksToDB_statement (db : DB) (batch : list BookmarkItem) (w : World) :
  match fst (db_Prepare db insertSQL w) with
  | Ok stmt =>
      exists done rest,
        batch = done ++ rest
        /\ trace (snd (saveBookmarksToDB db batch w))
           = trace w
             ++ [EvPrepare (db_path db) insertSQL]
             ++ map (fun b => EvStmtExec (db_path db) insertSQL (insert_args b)) done
             ++ [EvStmtClose (db_path db)]
        /\ (fst (saveBookmarksToDB db batch w) = None -> rest = [])
  | Err e =>
      fst (saveBookmarksToDB db batch w)
      = Some (ErrWrap "ошибка подготовки SQL запроса: " e)
      /\ trace (snd (saveBookmarksToDB db batch w))
         = trace w ++ [EvPrepare (db_path db) insertSQL]
      /\ files (snd (saveBookmarksToDB db batch w)) = files w
  end.
Proof.
  unfold saveBookmarksToDB.
  pose proof (db_Prepare_trace db insertSQL w) as Hp.
  destruct (db_Prepare db insertSQL w) as [[stmt|e] w1] eqn:Hprep; cbn [fst snd] in *.
  - apply db_Prepare_stmt in Hprep as ->. unfold defer.
    assert (Hloop : forall (l : list BookmarkItem) (w0 : World),
               exists done rest,
                 l = done ++ rest
                 /\ trace (snd (saveBookmarksToDB_loop (mkStmt (db_path db) insertSQL) l w0))
                    = trace w0
                      ++ map (fun b => EvStmtExec (db_path db) insertSQL (insert_args b)) done
                 /\ (fst (saveBookmarksToDB_loop (mkStmt (db_path db) insertSQL) l w0) = None
                     -> rest = [])).
    { induction l as [|b l IH]; intros w0; simpl.
      - exists [], []. simpl. rewrite app_nil_r. auto.
      - pose proof (stmt_Exec_trace (mkStmt (db_path db) insertSQL) (insert_args b) w0)
          as Ht.
        destruct (stmt_Exec (mkStmt (db_path db) insertSQL) (insert_args b) w0)
          as [[e|] w2]; cbn [fst snd] in *.
        + exists [b], l. split; [reflexivity|]. split; [exact Ht|discriminate].
        + destruct (IH w2) as (done & rest & -> & Htr & Hnone).
          exists (b :: done), rest. split; [reflexivity|].
          split; [|exact Hnone]. rewrite Htr, Ht, <- app_assoc. reflexivity. }
    destruct (Hloop batch w1) as (done & rest & Hsplit & Htr & Hnone).
    destruct (saveBookmarksToDB_loop (mkStmt (db_path db) insertSQL) batch w1)
      as [err w2]; cbn [fst snd] in *.
    exists done, rest. split; [exact Hsplit|]. split; [|exact Hnone].
    unfold stmt_Close. simpl. rewrite Htr, Hp, <- !app_assoc. reflexivity.
  - pose proof (saveBookmarksToDB_unprepared db batch w e) as Hun.
    unfold saveBookmarksToDB in Hun. rewrite Hprep in Hun. now apply Hun.
Qed.

Lemma db_Prepare_faultless (db : DB) (q : statement) (w : World) :
  faults w = [] ->
  db_Prepare db q w
  = (Ok (mkStmt (db_path db) q), connect (db_path db) (record (EvPrepare (db_path db) q) w)).
Proof.
  intros Hnf. unfold db_Prepare. now rewrite next_fault_none by exact Hnf.
Qed.

(** X9. The store must be initialized first.  Where there is no file at
    the path of the database and nothing else fails, the connection of
    either function makes an empty database file there, in which the
    statement finds no table: [saveBookmarksToDB] fails at the first insert,
    with the error of the insert and after that one execution, but returns
    no error for the empty batch, for which it executes nothing; and
    [GetAllBookmarks] fails with the error of the query. *)
Theorem store_needs_initDB (db : DB) (b : BookmarkItem) (rest : list BookmarkItem)
    (w : World) :
  files w !! db_path db = None -> faults w = [] ->
  let made := <[db_path db := DatabaseFile ∅]> (files w) in
  (fst (saveBookmarksToDB db [] w) = None
   /\ files (snd (saveBookmarksToDB db [] w)) = made)
  /\ ((exists cause, fst (saveBookmarksToDB db (b :: rest) w)
                     = Some (ErrWrap "ошибка вставки закладки: " cause))
      /\ files (snd (saveBookmarksToDB db (b :: rest) w)) = made
      /\ trace (snd (saveBookmarksToDB db (b :: rest) w))
         = trace w ++ [EvPrepare (db_path db) insertSQL;
                       EvStmtExec (db_path db) insertSQL (insert_args b);
                       EvStmtClose (db_path db)])
  /\ ((exists cause, fst (GetAllBookmarks db w)
                     = Err (ErrWrap "ошибка выполнения запроса: " cause))
      /\ files (snd (GetAllBookmarks db w)) = made).
Proof.
  intros Hnone Hnf made.
  assert (Hmade : forall ev : event, files (connect (db_path db) (record ev w)) = made)
    by (intros ev; rewrite connect_files; simpl; now rewrite Hnone).
  split; [|split].
  - unfold saveBookmarksToDB. rewrite db_Prepare_faultless by exact Hnf.
    unfold defer. simpl. split; [reflexivity|apply Hmade].
  - unfold saveBookmarksToDB. rewrite db_Prepare_faultless by exact Hnf.
    unfold defer. cbn [saveBookmarksToDB_loop].
    set (w1 := connect (db_path db) (record (EvPrepare (db_path db) insertSQL) w)).
    assert (Hnf1 : faults w1 = [])
      by (unfold w1; now rewrite (proj2 (proj2 (proj2 (proj2 (connect_frame _ _)))))).
    assert (Hw1 : files w1 !! db_path db = Some (DatabaseFile ∅))
      by (unfold w1; rewrite Hmade; apply lookup_insert_eq).
    assert (Hexec : stmt_Exec (mkStmt (db_path db) insertSQL) (insert_args b) w1
                    = (Some (ErrMsg "no such table: bookmarks"),
                       record (EvStmtExec (db_path db) insertSQL (insert_args b)) w1)).
    { unfold stmt_Exec, engine_write. cbn [stmt_path stmt_query].
      rewrite next_fault_none by (simpl; exact Hnf1). cbv zeta.
      rewrite connect_existing by (simpl; rewrite Hw1; eauto).
      unfold database_at. simpl. rewrite Hw1. reflexivity. }
    rewrite Hexec. cbn [fst snd stmt_Close stmt_path record files trace].
    split; [eauto|]. split; [apply Hmade|].
    unfold w1. rewrite (proj1 (connect_frame _ _)). simpl.
    now rewrite <- !app_assoc.
  - unfold GetAllBookmarks, db_Query.
    rewrite next_fault_none by (simpl; exact Hnf). cbv zeta.
    rewrite database_at_connect. unfold database_at. simpl. rewrite Hnone.
    cbn [fst snd]. split; [eauto|apply Hmade].
Qed.

Lemma store_needs_initDB_example :
  let w := example_main_world [] in
  let a := example_url "A" "http://a" in
  (files w !! "bookmarks.db" = None /\ faults w = [])
  /\ fst (saveBookmarksToDB (mkDB "bookmarks.db") [] w) = None
  /\ (exists cause, fst (saveBookmarksToDB (mkDB "bookmarks.db") [a] w)
                    = Some (ErrWrap "ошибка вставки закладки: " cause))
  /\ files (snd (GetAllBookmarks (mkDB "bookmarks.db") w)) !! "bookmarks.db"
     = Some (DatabaseFile ∅).
Proof.
  intros w a.
  assert (Hnone : files w !! db_path (mkDB "bookmarks.db") = None)
    by (vm_compute; reflexivity).
  assert (Hnf : faults w = []) by reflexivity.
  split; [auto|].
  destruct (store_needs_initDB (mkDB "bookmarks.db") a [] w Hnone Hnf)
    as ((Hempty & _) & (Hfail & _) & _ & Hfile).
  split; [exact Hempty|]. split; [exact Hfail|].
  rewrite Hfile. apply lookup_insert_eq.
Defined.

Lemma save_then_query (path : string) (recs rs : list BookmarkRecord)
    (batch : list BookmarkItem) (w w1 w2 : World) :
  stored path recs w ->
  saveBookmarksToDB (mkDB path) batch w = (None, w1) ->
  GetAllBookmarks (mkDB path) w1 = (Ok rs, w2) ->
  rs = upsert_all recs batch.
Proof.
  intros Hst Hsave Hq.
  pose proof (saveBookmarksToDB_stored path recs batch w Hst) as Hs.
  rewrite Hsave in Hs. destruct Hs as (Hs & _). destruct (Hs eq_refl) as (Hst1 & _).
  now apply (GetAllBookmarks_stored _ _ _ _ _ Hst1) in Hq as (-> & _).
Qed.

(** X10. The order of the table: on a store that holds [recs], a
    [saveBookmarksToDB] that succeeds leaves the records whose url the
    batch does not have, in their order, followed by the last occurrence of
    each url of the batch, in the order of the batch; this is the order
    in which [GetAllBookmarks] then returns them. *)
Theorem saveBookmarksToDB_order (path : string) (recs rs : list BookmarkRecord)
    (batch : list BookmarkItem) (w w1 w2 : World) :
  stored path recs w ->
  saveBookmarksToDB (mkDB path) batch w = (None, w1) ->
  GetAllBookmarks (mkDB path) w1 = (Ok rs, w2) ->
  rs = List.filter (fun r => negb (url_in batch r)) recs ++ last_occurrences batch.
Proof.
  intros Hst Hsave Hq.
  rewrite (save_then_query _ _ _ _ _ _ _ Hst Hsave Hq).
  apply upsert_all_last_occurrences.
Qed.

Lemma saveBookmarksToDB_order_example :
  let w := snd (store_run "bookmarks.db" [example_url "Old" "http://old";
                                          example_url "A0" "http://a"]
                  (example_world [])) in
  let batch := [example_url "A" "http://a"; example_url "B" "http://b";
                example_url "A again" "http://a"] in
  let w1 := snd (saveBookmarksToDB (mkDB "bookmarks.db") batch w) in
  let recs := [mkBookmarkRecord "Old" "http://old"; mkBookmarkRecord "A0" "http://a"] in
  (stored "bookmarks.db" recs w
   /\ saveBookmarksToDB (mkDB "bookmarks.db") batch w = (None, w1))
  /\ GetAllBookmarks (mkDB "bookmarks.db") w1
     = (Ok [mkBookmarkRecord "Old" "http://old"; mkBookmarkRecord "B" "http://b";
            mkBookmarkRecord "A again" "http://a"],
        snd (GetAllBookmarks (mkDB "bookmarks.db") w1)).
Proof.
  intros w batch w1 recs.
  assert (Hst : stored "bookmarks.db" recs w) by (vm_compute; reflexivity).
  assert (Hsave : saveBookmarksToDB (mkDB "bookmarks.db") batch w = (None, w1))
    by (vm_compute; reflexivity).
  split; [auto|].
  destruct (GetAllBookmarks (mkDB "bookmarks.db") w1) as [[rs|e] w2] eqn:Hq.
  - rewrite (saveBookmarksToDB_order _ _ _ _ _ _ _ Hst Hsave Hq). reflexivity.
  - vm_compute in Hq. discriminate.
Defined.

(** X11. Saving a batch a second time changes nothing: after a
    [saveBookmarksToDB] that succeeds, another one of the same batch that
    succeeds leaves the file of the database as the first one left it. *)
Theorem saveBookmarksToDB_twice (path : string) (recs : list BookmarkRecord)
    (batch : list BookmarkItem) (w w1 w2 : World) :
  stored path recs w ->
  saveBookmarksToDB (mkDB path) batch w = (None, w1) ->
  saveBookmarksToDB (mkDB path) batch w1 = (None, w2) ->
  files w2 !! path = files w1 !! path.
Proof.
  intros Hst H1 H2.
  pose proof (saveBookmarksToDB_stored path recs batch w Hst) as Hs1.
  rewrite H1 in Hs1. destruct Hs1 as (Hs1 & _). destruct (Hs1 eq_refl) as (Hst1 & _).
  pose proof (saveBookmarksToDB_stored path _ batch w1 Hst1) as Hs2.
  rewrite H2 in Hs2. destruct Hs2 as (Hs2 & _). destruct (Hs2 eq_refl) as (Hst2 & _).
  unfold stored in *. rewrite Hst2, Hst1. now rewrite upsert_all_twice.
Qed.

Lemma saveBookmarksToDB_twice_example :
  let w := snd (initDB "bookmarks.db" (example_world [])) in
  let batch := [example_X1; example_url "B" "http://b"; example_X2] in
  let w1 := snd (saveBookmarksToDB (mkDB "bookmarks.db") batch w) in
  let w2 := snd (saveBookmarksToDB (mkDB "bookmarks.db") batch w1) in
  (stored "bookmarks.db" [] w
   /\ saveBookmarksToDB (mkDB "bookmarks.db") batch w = (None, w1)
   /\ saveBookmarksToDB (mkDB "bookmarks.db") batch w1 = (None, w2))
  /\ files w2 !! "bookmarks.db" = files w1 !! "bookmarks.db".
Proof.
  intros w batch w1 w2.
  assert (Hst : stored "bookmarks.db" [] w) by (vm_compute; reflexivity).
  assert (H1 : saveBookmarksToDB (mkDB "bookmarks.db") batch w = (None, w1))
    by (vm_compute; reflexivity).
  assert (H2 : saveBookmarksToDB (mkDB "bookmarks.db") batch w1 = (None, w2))
    by (vm_compute; reflexivity).
  split; [auto|].
  exact (saveBookmarksToDB_twice _ _ _ _ _ _ Hst H1 H2).
Defined.

(** X12. The store never holds more records than were saved: after
    [initDB], [saveBookmarksToDB] and [GetAllBookmarks], the number of
    records returned is at most the number of bookmarks of the batch, and
    it is that number exactly when no url occurs twice in the batch. *)
Theorem stored_count (path : string) (batch : list BookmarkItem)
    (rs : list BookmarkRecord) (db : DB) (w w1 w2 w3 : World) :
  initDB path w = (Ok db, w1) ->
  saveBookmarksToDB db batch w1 = (None, w2) ->
  GetAllBookmarks db w2 = (Ok rs, w3) ->
  (length rs <= length batch)%nat
  /\ (length rs = length batch <-> List.NoDup (map item_URL batch)).
Proof.
  intros Hi Hs Hq.
  apply initDB_fresh in Hi as (-> & Hst1 & _).
  rewrite (save_then_query path [] rs batch w1 w2 w3 Hst1 Hs Hq).
  rewrite upsert_all_last_occurrences. simpl.
  split; [apply length_last_occurrences|apply last_occurrences_all].
Qed.

Lemma stored_count_example :
  let w := example_world [] in
  let batch := [example_X1; example_url "B" "http://b"; example_X2] in
  let w1 := snd (initDB "bookmarks.db" w) in
  let w2 := snd (saveBookmarksToDB (mkDB "bookmarks.db") batch w1) in
  let rs := [mkBookmarkRecord "B" "http://b"; mkBookmarkRecord "X2" "http://x"] in
  (initDB "bookmarks.db" w = (Ok (mkDB "bookmarks.db"), w1)
   /\ saveBookmarksToDB (mkDB "bookmarks.db") batch w1 = (None, w2)
   /\ GetAllBookmarks (mkDB "bookmarks.db") w2
      = (Ok rs, snd (GetAllBookmarks (mkDB "bookmarks.db") w2)))
  /\ (length rs <= length batch)%nat
  /\ ~ List.NoDup (map item_URL batch).
Proof.
  intros w batch w1 w2 rs.
  assert (H1 : initDB "bookmarks.db" w = (Ok (mkDB "bookmarks.db"), w1))
    by (vm_compute; reflexivity).
  assert (H2 : saveBookmarksToDB (mkDB "bookmarks.db") batch w1 = (None, w2))
    by (vm_compute; reflexivity).
  assert (H3 : GetAllBookmarks (mkDB "bookmarks.db") w2
               = (Ok rs, snd (GetAllBookmarks (mkDB "bookmarks.db") w2)))
    by (vm_compute; reflexivity).
  split; [auto|].
  destruct (stored_count _ _ _ _ _ _ _ _ H1 H2 H3) as (Hle & Hiff).
  split; [exact Hle|]. intros Hnd. apply Hiff in Hnd. discriminate.
Defined.

Lemma GetAllBookmarks_loop_same (pending : list row) :
  forall (acc rs rs' : list BookmarkRecord) (w w1 w' w1' : World),
    GetAllBookmarks_loop pending acc w = (Ok rs, w1) ->
    GetAllBookmarks_loop pending acc w' = (Ok rs', w1') ->
    rs = rs'.
Proof.
  induction pending as [|r rest IH]; intros acc rs rs' w w1 w' w1'; simpl.
  - now intros [= <- _] [= <- _].
  - destruct (next_fault w) as [[e|] w0]; [discriminate|].
    destruct (next_fault w') as [[e'|] w0']; [discriminate|].
    destruct (rows_Scan r) as [b|e]; [|discriminate].
    apply IH.
Qed.

Lemma GetAllBookmarks_rows (db : DB) (w w' : World) (rs : list BookmarkRecord) :
  GetAllBookmarks db w = (Ok rs, w') ->
  exists w0 w1,
    GetAllBookmarks_loop (rows_at (db_path db) w) [] w0 = (Ok rs, w1).
Proof.
  unfold GetAllBookmarks, db_Query, rows_at.
  match goal with |- context [next_fault ?x] =>
    pose proof (next_fault_frame x) as (Hf & _) end.
  destruct (next_fault _) as [[e|] w0]; cbn [fst snd] in *; cbv zeta; [discriminate|].
  rewrite database_at_connect.
  replace (database_at (db_path db) w0) with (database_at (db_path db) w)
    by (unfold database_at; now rewrite Hf).
  destruct (database_at (db_path db) w) as [d|e]; cbn [fst snd]; [|discriminate].
  destruct (compile d selectSQL); [discriminate|].
  unfold defer, selectSQL. cbn [rows_pending].
  destruct (GetAllBookmarks_loop _ [] _) as [r w1] eqn:Hl.
  intros [= -> _]. eauto.
Qed.

(** X13. [GetAllBookmarks] only reads: it leaves every file as it is, and
    two queries that succeed one after the other return the same records in
    the same order. *)
Theorem GetAllBookmarks_repeatable (db : DB) (w w1 w2 : World)
    (rs1 rs2 : list BookmarkRecord) :
  GetAllBookmarks db w = (Ok rs1, w1) ->
  GetAllBookmarks db w1 = (Ok rs2, w2) ->
  rs1 = rs2 /\ files w2 = files w.
Proof.
  intros H1 H2.
  destruct (GetAllBookmarks_found db w w1 rs1 H1) as (_ & Hf1).
  destruct (GetAllBookmarks_found db w1 w2 rs2 H2) as (_ & Hf2).
  split; [|congruence].
  apply GetAllBookmarks_rows in H1 as (wa & wa' & Ha).
  apply GetAllBookmarks_rows in H2 as (wb & wb' & Hb).
  unfold rows_at, database_at in *. rewrite Hf1 in Hb.
  exact (GetAllBookmarks_loop_same _ _ _ _ _ _ _ _ Ha Hb).
Qed.

Lemma GetAllBookmarks_repeatable_example :
  let db := mkDB "bookmarks.db" in
  let w := snd (store_run "bookmarks.db" [example_X1; example_url "B" "http://b"]
                  (example_world [])) in
  let w1 := snd (GetAllBookmarks db w) in
  let rs := [mkBookmarkRecord "X1" "http://x"; mkBookmarkRecord "B" "http://b"] in
  (GetAllBookmarks db w = (Ok rs, w1)
   /\ GetAllBookmarks db w1 = (Ok rs, snd (GetAllBookmarks db w1)))
  /\ files (snd (GetAllBookmarks db w1)) = files w.
Proof.
  intros db w w1 rs.
  assert (H1 : GetAllBookmarks db w = (Ok rs, w1)) by (vm_compute; reflexivity).
  assert (H2 : GetAllBookmarks db w1 = (Ok rs, snd (GetAllBookmarks db w1)))
    by (vm_compute; reflexivity).
  split; [auto|].
  exact (proj2 (GetAllBookmarks_repeatable _ _ _ _ _ _ H1 H2)).
Defined.

(** ** The listing: width and failure *)

Lemma bytes_of_app (s1 s2 : string) :
  bytes_of (s1 ++ s2) = bytes_of s1 ++ bytes_of s2.
Proof.
  unfold bytes_of. induction s1 as [|c s1 IH]; simpl; [reflexivity|].
  now rewrite IH.
Qed.

Lemma length_bytes_of (s : string) : length (bytes_of s) = len s.
Proof.
  unfold bytes_of, len. induction s as [|c s IH]; simpl; [reflexivity|].
  now rewrite IH.
Qed.

Lemma bytes_of_slice_to (s : string) :
  forall n : nat, bytes_of (slice_to s n) = firstn n (bytes_of s).
Proof.
  unfold bytes_of, slice_to. induction s as [|c s IH]; intros [|n]; simpl;
    try reflexivity.
  now rewrite IH.
Qed.

Lemma bytes_of_spaces (n : nat) : bytes_of (spaces n) = repeat 32%N n.
Proof.
  unfold bytes_of. induction n as [|n IH]; simpl; [reflexivity|].
  now rewrite IH.
Qed.

(** Where every byte is below 128, every byte is a character. *)
Lemma rune_count_ascii (bs : list N) :
  forallb (fun c => (c <? 128)%N) bs = true -> rune_count_from 0 bs = length bs.
Proof.
  induction bs as [|c rest IH]; simpl; [reflexivity|].
  intros H. apply andb_true_iff in H as [Hc Hrest].
  unfold rune_width. rewrite Hc. simpl. now rewrite IH.
Qed.

Lemma RuneCountInString_ascii (s : string) :
  is_ascii s = true -> RuneCountInString s = len s.
Proof.
  intros H. unfold RuneCountInString.
  rewrite rune_count_ascii by exact H. apply length_bytes_of.
Qed.

Lemma is_ascii_app (s1 s2 : string) :
  is_ascii (s1 ++ s2) = is_ascii s1 && is_ascii s2.
Proof. unfold is_ascii. now rewrite bytes_of_app, forallb_app. Qed.

Lemma is_ascii_slice_to (s : string) (n : nat) :
  is_ascii s = true -> is_ascii (slice_to s n) = true.
Proof.
  unfold is_ascii. rewrite bytes_of_slice_to.
  generalize (bytes_of s). intros bs. revert n.
  induction bs as [|c bs IH]; intros [|n]; simpl; try reflexivity.
  intros H. apply andb_true_iff in H as [Hc Hbs]. rewrite Hc. simpl. now apply IH.
Qed.

Lemma is_ascii_spaces (n : nat) : is_ascii (spaces n) = true.
Proof.
  unfold is_ascii. rewrite bytes_of_spaces.
  induction n as [|n IH]; simpl; [reflexivity|exact IH].
Qed.

Lemma len_app (s1 s2 : string) : len (s1 ++ s2) = (len s1 + len s2)%nat.
Proof. rewrite <- !length_bytes_of, bytes_of_app. apply length_app. Qed.

Lemma len_spaces (n : nat) : len (spaces n) = n.
Proof. rewrite <- length_bytes_of, bytes_of_spaces. apply repeat_length. Qed.

Lemma len_slice_to (s : string) (n : nat) :
  (n <= len s)%nat -> len (slice_to s n) = n.
Proof.
  intros H. rewrite <- length_bytes_of, bytes_of_slice_to.
  rewrite length_firstn, length_bytes_of. lia.
Qed.

(** A column: the string cut beyond [limit] bytes to [keep] bytes and three
    dots, then padded to [width] characters. *)
Lemma column_ascii (limit keep width : nat) (s : string) :
  (keep + 3 <= limit)%nat -> (limit <= width)%nat -> is_ascii s = true ->
  let cut := if (limit <? len s)%nat then (slice_to s keep ++ "...")%string else s in
  len (pad_right width cut) = width /\ is_ascii (pad_right width cut) = true.
Proof.
  intros Hkeep Hlimit Hascii cut.
  assert (Hcut : is_ascii cut = true /\ (len cut <= limit)%nat).
  { subst cut. destruct (Nat.ltb_spec limit (len s)) as [Hlong|Hshort].
    - rewrite is_ascii_app, is_ascii_slice_to by exact Hascii.
      rewrite len_app, len_slice_to by lia. split; [reflexivity|simpl; lia].
    - auto. }
  destruct Hcut as (Hc & Hl). unfold pad_right.
  rewrite len_app, len_spaces, is_ascii_app, Hc, is_ascii_spaces.
  rewrite (RuneCountInString_ascii cut Hc). split; [lia|reflexivity].
Qed.

(** X15. With names and urls of one byte for each character, every line
    of a bookmark in the listing is 77 characters wide, and a newline: the
    cut to 24 and 34 bytes with the three dots never fills more than the
    30 and 40 characters of the columns, so the columns stay aligned. *)
Theorem PrintBookmarks_line_width (bookmark : BookmarkRecord) :
  is_ascii (rec_Name bookmark) = true ->
  is_ascii (rec_URL bookmark) = true ->
  len (PrintBookmarks_line bookmark) = 78%nat
  /\ RuneCountInString (PrintBookmarks_line bookmark) = 78%nat.
Proof.
  intros Hname Hurl. unfold PrintBookmarks_line, table_line.
  destruct (column_ascii 27 24 30 (rec_Name bookmark)) as (Hl1 & Ha1); [lia|lia|exact Hname|].
  destruct (column_ascii 37 34 40 (rec_URL bookmark)) as (Hl2 & Ha2); [lia|lia|exact Hurl|].
  cbv zeta in *.
  set (c1 := pad_right 30 _) in *. set (c2 := pad_right 40 _) in *.
  assert (Hlen : len ("| " ++ c1 ++ " | " ++ c2 ++ " |" ++ newline) = 78%nat).
  { rewrite !len_app, Hl1, Hl2. reflexivity. }
  split; [exact Hlen|].
  rewrite RuneCountInString_ascii; [exact Hlen|].
  rewrite !is_ascii_app, Ha1, Ha2. reflexivity.
Qed.

Lemma PrintBookmarks_line_width_example :
  let bookmark :=
    mkBookmarkRecord "A bookmark with a name of more than 27 characters" "http://a" in
  (is_ascii (rec_Name bookmark) = true /\ is_ascii (rec_URL bookmark) = true)
  /\ len (PrintBookmarks_line bookmark) = 78%nat
  /\ PrintBookmarks_line bookmark = table_line "A bookmark with a name o..." "http://a".
Proof.
  intros bookmark.
  assert (Hn : is_ascii (rec_Name bookmark) = true) by reflexivity.
  assert (Hu : is_ascii (rec_URL bookmark) = true) by reflexivity.
  split; [auto|]. split; [|reflexivity].
  exact (proj1 (PrintBookmarks_line_width bookmark Hn Hu)).
Defined.

(** X16. [PrintBookmarks] fails exactly with the error of
    [GetAllBookmarks], wrapped; it has then printed nothing, not even the
    heading, nor to the standard error, and has changed no file but the
    one of the database. *)
Theorem PrintBookmarks_failure (db : DB) (w w' : World) (e : error) :
  PrintBookmarks db w = (Some e, w') ->
  stdout w' = stdout w /\ stderr w' = stderr w
  /\ (forall q : string, q <> db_path db -> files w' !! q = files w !! q)
  /\ exists cause,
       fst (GetAllBookmarks db w) = Err cause
       /\ e = ErrWrap "ошибка получения закладок: " cause.
Proof.
  unfold PrintBookmarks. destruct db as [path].
  pose proof (only_database_GetAllBookmarks path w) as (_ & Ho & He & Hf & _).
  destruct (GetAllBookmarks (mkDB path) w) as [[rs|cause] w1] eqn:Hq; [discriminate|].
  cbn [fst snd db_path] in *. intros [= <- <-]. eauto 10.
Qed.

Lemma PrintBookmarks_failure_example :
  let e := ErrMsg "disk I/O error" in
  let w := example_main_world [Some e] in
  let w' := snd (PrintBookmarks (mkDB "bookmarks.db") w) in
  PrintBookmarks (mkDB "bookmarks.db") w
  = (Some (ErrWrap "ошибка получения закладок: "
             (ErrWrap "ошибка выполнения запроса: " e)), w')
  /\ stdout w' = stdout w.
Proof.
  intros e w w'.
  assert (H : PrintBookmarks (mkDB "bookmarks.db") w
              = (Some (ErrWrap "ошибка получения закладок: "
                         (ErrWrap "ошибка выполнения запроса: " e)), w'))
    by (vm_compute; reflexivity).
  split; [exact H|].
  exact (proj1 (PrintBookmarks_failure _ _ _ _ H)).
Defined.

(** X14. A [PrintBookmarks] that succeeds prints the heading, then one
    line for each record that its query returns, in the order of the
    query, then the rule and the number of those records; it writes
    nothing to the standard error and no file. *)
Theorem PrintBookmarks_listing (db : DB) (w w' : World) :
  PrintBookmarks db w = (None, w') ->
  exists rs,
    fst (GetAllBookmarks db w) = Ok rs
    /\ stdout w'
       = stdout w
         ++ [("Список закладок:" ++ newline)%string; (rule ++ newline)%string;
             table_line "Название" "URL"; (rule ++ newline)%string]
         ++ map PrintBookmarks_line rs
         ++ [(rule ++ newline)%string;
             ("Всего закладок: " ++ fmt_d (length rs) ++ newline)%string]
    /\ stderr w' = stderr w /\ files w' = files w.
Proof.
  unfold PrintBookmarks. destruct db as [path].
  pose proof (only_database_GetAllBookmarks path w) as (_ & Ho & He & _).
  destruct (GetAllBookmarks (mkDB path) w) as [[rs|e] w1] eqn:Hq; [|discriminate].
  destruct (GetAllBookmarks_found _ _ _ _ Hq) as (_ & Hf).
  simpl in Ho, He, Hf. intros [= <-]. exists rs. split; [reflexivity|].
  match goal with |- context [fold_left ?f rs ?x] =>
    destruct (fold_left_Printf_frame rs x) as (Hfl & _ & Hel & Hlines) end.
  simpl in *. rewrite Hlines, Hel, Hfl, Ho, He, Hf. simpl.
  now rewrite <- !app_assoc.
Qed.

Lemma PrintBookmarks_listing_example :
  let db := mkDB "bookmarks.db" in
  let w := snd (store_run "bookmarks.db" [example_X1; example_url "B" "http://b"]
                  (example_world [])) in
  let w' := snd (PrintBookmarks db w) in
  PrintBookmarks db w = (None, w')
  /\ nth_error (stdout w') 6 = Some (rule ++ newline)%string
  /\ nth_error (stdout w') 7 = Some ("Всего закладок: 2" ++ newline)%string.
Proof.
  intros db w w'.
  assert (H : PrintBookmarks db w = (None, w')) by (vm_compute; reflexivity).
  split; [exact H|].
  destruct (PrintBookmarks_listing db w w' H) as (rs & Hq & Hout & _).
  vm_compute in Hq. injection Hq as <-. rewrite Hout. split; reflexivity.
Defined.

(** ** The driver: what a run leaves behind *)

Lemma parseBookmarks_unchanged (path : string) (w : World) :
  let w' := snd (parseBookmarks path w) in
  environ w' = environ w /\ files w' = files w /\ stdout w' = stdout w
  /\ stderr w' = stderr w /\ trace w' = trace w.
Proof.
  pose proof (os_ReadFile_frame path w) as H. unfold parseBookmarks.
  destruct (os_ReadFile path w) as [[data|e] w1]; simpl in *; [|tauto].
  destruct (json_Unmarshal data zero_Bookmarks); simpl; tauto.
Qed.

Lemma fold_left_Printf_environ (lines : list BookmarkRecord) :
  forall w : World,
    environ (fold_left (fun wi b => fmt_Printf (PrintBookmarks_line b) wi) lines w)
    = environ w.
Proof.
  induction lines as [|b rest IH]; intros w; simpl; [reflexivity|]. now rewrite IH.
Qed.

Lemma PrintBookmarks_world (path : string) (w : World) :
  let w' := snd (PrintBookmarks (mkDB path) w) in
  environ w' = environ w /\ files w' = files (connect path w) /\ stderr w' = stderr w.
Proof.
  unfold PrintBookmarks.
  pose proof (only_database_GetAllBookmarks path w) as (Hv & _ & He & _).
  pose proof (GetAllBookmarks_frame (mkDB path) w) as (Hf & _).
  destruct (GetAllBookmarks (mkDB path) w) as [[rs|e] w1]; simpl in *; [|auto].
  match goal with |- context [fold_left ?f rs ?x] =>
    destruct (fold_left_Printf_frame rs x) as (Hfl & _ & Hel & _);
    pose proof (fold_left_Printf_environ rs x) as Hvl end.
  simpl in *. rewrite Hfl, Hel, Hvl. auto.
Qed.

(** X17. A run that does not get its bookmarks, because the file is not
    found or cannot be read or decoded, ends with status 1 before the
    database is touched: every file, and so a database that an earlier run
    has left, is as before, and no call on a database has been made. *)
Theorem main_without_bookmarks (filepath_Join : list string -> string) (w : World) :
  (exists e, getBookmarksFilePath filepath_Join w = Err e)
  \/ (exists path e, getBookmarksFilePath filepath_Join w = Ok path
                     /\ fst (parseBookmarks path w) = Err e) ->
  fst (main filepath_Join w) = Exited 1
  /\ files (snd (main filepath_Join w)) = files w
  /\ trace (snd (main filepath_Join w)) = trace w.
Proof.
  unfold main. intros [(e & ->)|(path & e & -> & Hparse)]; [auto|].
  set (w1 := fmt_Printf _ w).
  pose proof (parseBookmarks_stdout path
                ("Найден файл закладок: " ++ path ++ newline) w) as Hsame.
  fold (fmt_Printf ("Найден файл закладок: " ++ path ++ newline) w) in Hsame.
  fold w1 in Hsame. rewrite Hparse in Hsame.
  pose proof (parseBookmarks_unchanged path w1) as (_ & Hf & _ & _ & Ht).
  destruct (parseBookmarks path w1) as [[b|e'] w2]; simpl in *; [discriminate|].
  rewrite Hf, Ht. auto.
Qed.

Lemma main_without_bookmarks_example :
  let w :=
    mkWorld {[ "USERPROFILE" := example_profile ]}
      {[ example_bookmarks_path := RegularFile Malformed;
         "bookmarks.db" := DatabaseFile example_stale_db ]} [] [] [] [] in
  (exists path e, getBookmarksFilePath windows_Join w = Ok path
                  /\ fst (parseBookmarks path w) = Err e)
  /\ fst (main windows_Join w) = Exited 1
  /\ files (snd (main windows_Join w)) !! "bookmarks.db"
     = Some (DatabaseFile example_stale_db).
Proof.
  intros w.
  assert (H : exists path e, getBookmarksFilePath windows_Join w = Ok path
                             /\ fst (parseBookmarks path w) = Err e).
  { exists example_bookmarks_path. eexists. split; vm_compute; reflexivity. }
  split; [exact H|].
  destruct (main_without_bookmarks windows_Join w (or_intror H)) as (Hexit & Hfiles & _).
  split; [exact Hexit|]. rewrite Hfiles. vm_compute. reflexivity.
Defined.

(** X18. Whatever happens, a run changes no file but [bookmarks.db], and
    in particular not the bookmark file it reads; it leaves the
    environment as it is. *)
Theorem main_only_database (filepath_Join : list string -> string) (w : World) :
  environ (snd (main filepath_Join w)) = environ w
  /\ forall q : string,
       q <> "bookmarks.db" -> files (snd (main filepath_Join w)) !! q = files w !! q.
Proof.
  unfold main.
  destruct (getBookmarksFilePath filepath_Join w) as [path|e]; [|simpl; auto].
  set (w1 := fmt_Printf _ w).
  pose proof (parseBookmarks_unchanged path w1) as (Hv2 & Hf2 & _).
  destruct (parseBookmarks path w1) as [[bookmarks|e] w2]; simpl in Hv2, Hf2;
    [|simpl; rewrite Hv2, Hf2; auto].
  pose proof (only_database_initDB "bookmarks.db" w2) as (Hv3 & _ & _ & Hf3 & _).
  destruct (initDB "bookmarks.db" w2) as [[db|e] w3] eqn:Hinit; simpl in Hv3, Hf3.
  - apply initDB_path in Hinit as ->.
    unfold defer_in_main. simpl app.
    match goal with |- context [saveBookmarksToDB ?d ?l w3] =>
      pose proof (only_database_saveBookmarksToDB "bookmarks.db" l w3)
        as (Hv5 & _ & _ & Hf5 & _);
      destruct (saveBookmarksToDB d l w3) as [[e|] w5]
    end; simpl in Hv5, Hf5.
    + simpl. rewrite Hv5, Hv3, Hv2. split; [reflexivity|].
      intros q Hq. now rewrite (Hf5 q Hq), (Hf3 q Hq), Hf2.
    + set (w6 := fmt_Printf _ w5).
      pose proof (PrintBookmarks_world "bookmarks.db" w6) as (Hv7 & Hf7 & _).
      destruct (PrintBookmarks (mkDB "bookmarks.db") w6) as [[e|] w7];
        cbn [fst snd] in *; unfold db_Close, log_Printf; simpl;
        rewrite Hv7, Hf7; (split; [subst w6; simpl; congruence|]);
        intros q Hq; rewrite (connect_other _ _ _ Hq); subst w6; simpl;
        now rewrite (Hf5 q Hq), (Hf3 q Hq), Hf2.
  - simpl. rewrite Hv3, Hv2. split; [reflexivity|].
    intros q Hq. now rewrite (Hf3 q Hq), Hf2.
Qed.

(** X19. The process exits only with status 1, and then it has written
    exactly one message to the standard error; when [main] returns it has
    written none, or the one message that the listing failed. *)
Theorem main_diagnostics (filepath_Join : list string -> string) (w : World) :
  let w' := snd (main filepath_Join w) in
  match fst (main filepath_Join w) with
  | Exited code => code = 1%Z /\ exists msg, stderr w' = stderr w ++ [msg]
  | Returned =>
      stderr w' = stderr w
      \/ exists e, stderr w'
                   = stderr w
                     ++ [("Ошибка при выводе закладок: " ++ error_string e ++ newline)%string]
  end.
Proof.
  unfold main.
  destruct (getBookmarksFilePath filepath_Join w) as [path|e]; [|simpl; eauto].
  set (w1 := fmt_Printf _ w).
  pose proof (parseBookmarks_unchanged path w1) as (_ & _ & _ & He2 & _).
  destruct (parseBookmarks path w1) as [[bookmarks|e] w2]; simpl in He2;
    [|simpl; rewrite He2; eauto].
  pose proof (only_database_initDB "bookmarks.db" w2) as (_ & _ & He3 & _).
  destruct (initDB "bookmarks.db" w2) as [[db|e] w3] eqn:Hinit; simpl in He3;
    [|simpl; rewrite He3, He2; eauto].
  apply initDB_path in Hinit as ->.
  unfold defer_in_main. simpl app.
  match goal with |- context [saveBookmarksToDB ?d ?l w3] =>
    pose proof (only_database_saveBookmarksToDB "bookmarks.db" l w3) as (_ & _ & He5 & _);
    destruct (saveBookmarksToDB d l w3) as [[e|] w5]
  end; simpl in He5; [simpl; rewrite He5, He3, He2; eauto|].
  set (w6 := fmt_Printf _ w5).
  pose proof (PrintBookmarks_world "bookmarks.db" w6) as (_ & _ & He7).
  destruct (PrintBookmarks (mkDB "bookmarks.db") w6) as [[e|] w7];
    simpl in *; rewrite He7, He5, He3, He2; [right; exists e; reflexivity|now left].
Qed.

(** X20. What a run without any error prints: the path of the bookmark
    file; the number of bookmarks extracted from the three roots; then the
    listing, with one line for the last occurrence of each url among them,
    in the order of those occurrences, and their number.  The first number
    counts every extracted bookmark, the second only the distinct urls. *)
Theorem main_report (filepath_Join : list string -> string) (w w' : World) :
  main filepath_Join w = (Returned, w') ->
  stderr w' = stderr w ->
  exists (path : string) (bookmarks : Bookmarks),
    getBookmarksFilePath filepath_Join w = Ok path
    /\ fst (parseBookmarks path w) = Ok bookmarks
    /\ let all :=
         extractBookmarks (folder_Children (BookmarkBar (bm_Roots bookmarks)))
         ++ extractBookmarks (folder_Children (Other (bm_Roots bookmarks)))
         ++ extractBookmarks (folder_Children (Synced (bm_Roots bookmarks))) in
       stdout w'
       = stdout w
         ++ [("Найден файл закладок: " ++ path ++ newline)%string;
             ("Успешно сохранено " ++ fmt_d (length all)
              ++ " закладок в базу данных bookmarks.db" ++ newline)%string]
         ++ [("Список закладок:" ++ newline)%string; (rule ++ newline)%string;
             table_line "Название" "URL"; (rule ++ newline)%string]
         ++ map PrintBookmarks_line (last_occurrences all)
         ++ [(rule ++ newline)%string;
             ("Всего закладок: " ++ fmt_d (length (last_occurrences all))
              ++ newline)%string]
       /\ (length (last_occurrences all) <= length all)%nat.
Proof.
  unfold main. intros Hmain Hquiet.
  destruct (getBookmarksFilePath filepath_Join w) as [path|e] eqn:Hpath;
    [|discriminate].
  set (w1 := fmt_Printf _ w) in Hmain.
  pose proof (parseBookmarks_stdout path
                ("Найден файл закладок: " ++ path ++ newline) w) as Hsame.
  fold (fmt_Printf ("Найден файл закладок: " ++ path ++ newline) w) in Hsame.
  fold w1 in Hsame.
  pose proof (parseBookmarks_unchanged path w1) as (_ & _ & Ho2 & He2 & _).
  destruct (parseBookmarks path w1) as [[bookmarks|e] w2]; [|discriminate].
  simpl in Hsame, Ho2, He2.
  destruct (initDB "bookmarks.db" w2) as [[db|e] w3] eqn:Hinit; [|discriminate].
  apply initDB_fresh in Hinit as (-> & Hst3 & _ & Ho3 & He3 & _).
  unfold defer_in_main in Hmain. simpl app in Hmain.
  set (all := (extractBookmarks (folder_Children (BookmarkBar (bm_Roots bookmarks)))
               ++ extractBookmarks (folder_Children (Other (bm_Roots bookmarks))))
              ++ extractBookmarks (folder_Children (Synced (bm_Roots bookmarks)))) in *.
  pose proof (saveBookmarksToDB_stored "bookmarks.db" [] all w3 Hst3) as Hsave.
  destruct (saveBookmarksToDB (mkDB "bookmarks.db") all w3) as [[e|] w5];
    [discriminate|].
  destruct Hsave as (Hsave & _ & Ho5 & He5 & _). destruct (Hsave eq_refl) as (Hst5 & _).
  set (w6 := fmt_Printf _ w5) in Hmain.
  assert (Hst6 : stored "bookmarks.db" (upsert_all [] all) w6) by exact Hst5.
  pose proof (PrintBookmarks_world "bookmarks.db" w6) as (_ & _ & He7).
  pose proof (PrintBookmarks_output "bookmarks.db" (upsert_all [] all) w6) as Hout.
  exists path, bookmarks. split; [reflexivity|]. split; [now rewrite <- Hsame|].
  cbv zeta. rewrite !(app_assoc (extractBookmarks _) (extractBookmarks _) (extractBookmarks _)).
  fold all.
  destruct (PrintBookmarks (mkDB "bookmarks.db") w6) as [[e|] w7];
    injection Hmain as <-; simpl in He7, Hquiet.
  - exfalso. rewrite He7 in Hquiet. simpl in Hquiet.
    rewrite He5, He3, He2 in Hquiet. simpl in Hquiet.
    apply (f_equal (@length string)) in Hquiet. rewrite length_app in Hquiet.
    simpl in Hquiet. lia.
  - specialize (Hout w7 Hst6 eq_refl).
    rewrite upsert_all_last_occurrences in Hout. simpl in Hout.
    split; [|apply length_last_occurrences].
    simpl. rewrite Hout. subst w6 w1. simpl. rewrite Ho5, Ho3, Ho2. simpl.
    rewrite <- !app_assoc. reflexivity.
Qed.

Lemma main_report_example :
  let w := example_main_world [] in
  let w' := snd (main windows_Join w) in
  (main windows_Join w = (Returned, w') /\ stderr w' = stderr w)
  /\ nth_error (stdout w') 1
     = Some ("Успешно сохранено 4 закладок в базу данных bookmarks.db" ++ newline)%string
  /\ nth_error (stdout w') 10 = Some ("Всего закладок: 3" ++ newline)%string.
Proof.
  intros w w'.
  assert (Hmain : main windows_Join w = (Returned, w')) by (vm_compute; reflexivity).
  assert (Hquiet : stderr w' = stderr w) by (vm_compute; reflexivity).
  split; [auto|].
  destruct (main_report windows_Join w w' Hmain Hquiet)
    as (path & bookmarks & Hpath & Hparse & Hout & _).
  assert (Hp : getBookmarksFilePath windows_Join w = Ok example_bookmarks_path)
    by (vm_compute; reflexivity).
  rewrite Hp in Hpath. injection Hpath as <-.
  vm_compute in Hparse. injection Hparse as <-.
  rewrite Hout. split; reflexivity.
Defined.

Lemma main_returned_closes_once_example :
  let w :=
    example_main_world
      [None; None; None; None; None; None; None; Some (ErrMsg "disk I/O error")] in
  let w' := snd (main windows_Join w) in
  main windows_Join w = (Returned, w')
  /\ stderr w' <> []
  /\ opens "bookmarks.db" (trace w') = 1%nat
  /\ closes "bookmarks.db" (trace w') = 1%nat.
Proof.
  intros w w'.
  assert (Hmain : main windows_Join w = (Returned, w')) by (vm_compute; reflexivity).
  split; [exact Hmain|]. split; [vm_compute; intros H; discriminate H|].
  exact (main_returned_closes_once windows_Join w w' Hmain).
Defined.

Lemma main_save_error_exits_unclosed_example :
  let w := example_main_world example_disk_full in
  let w1 := fmt_Printf ("Найден файл закладок: " ++ example_bookmarks_path ++ newline) w in
  let w2 := snd (parseBookmarks example_bookmarks_path w1) in
  let w3 := snd (initDB "bookmarks.db" w2) in
  (getBookmarksFilePath windows_Join w = Ok example_bookmarks_path
   /\ initDB "bookmarks.db" w2 = (Ok (mkDB "bookmarks.db"), w3))
  /\ fst (main windows_Join w) = Exited 1
  /\ closes "bookmarks.db" (trace (snd (main windows_Join w))) = 0%nat.
Proof.
  intros w w1 w2 w3.
  assert (Hpath : getBookmarksFilePath windows_Join w = Ok example_bookmarks_path)
    by (vm_compute; reflexivity).
  assert (Hinit : initDB "bookmarks.db" w2 = (Ok (mkDB "bookmarks.db"), w3))
    by (vm_compute; reflexivity).
  split; [auto|].
  assert (Hparse : exists bookmarks,
             parseBookmarks example_bookmarks_path w1 = (Ok bookmarks, w2)).
  { eexists. vm_compute. reflexivity. }
  destruct Hparse as (bookmarks & Hparse).
  assert (Hb : fst (parseBookmarks example_bookmarks_path w1) = Ok bookmarks)
    by (now rewrite Hparse).
  vm_compute in Hb. injection Hb as Hb.
  destruct (main_save_error_exits_unclosed windows_Join w w2 w3 example_bookmarks_path
              bookmarks (mkDB "bookmarks.db") Hpath Hparse Hinit) as (Hexit & _ & Hclosed).
  - rewrite <- Hb. vm_compute. discriminate.
  - split; [exact Hexit|]. rewrite Hclosed. reflexivity.
Defined.

(** X23. The url stays the key of the table: on a store whose urls are
    distinct, a [saveBookmarksToDB] that succeeds leaves a store whose urls
    are distinct, and they are the urls that were stored together with the
    urls of the batch, so no url that was stored is lost. *)
Theorem saveBookmarksToDB_keeps_keys (path : string) (recs : list BookmarkRecord)
    (batch : list BookmarkItem) (w w1 : World) :
  stored path recs w ->
  List.NoDup (map rec_URL recs) ->
  saveBookmarksToDB (mkDB path) batch w = (None, w1) ->
  exists recs1,
    stored path recs1 w1
    /\ List.NoDup (map rec_URL recs1)
    /\ forall u : string,
         In u (map rec_URL recs1)
         <-> In u (map rec_URL recs) \/ In u (map item_URL batch).
Proof.
  intros Hst Hnd Hsave.
  pose proof (saveBookmarksToDB_stored path recs batch w Hst) as Hs.
  rewrite Hsave in Hs. destruct Hs as (Hs & _). destruct (Hs eq_refl) as (Hst1 & _).
  exists (upsert_all recs batch). split; [exact Hst1|].
  split; [now apply NoDup_upsert_all|].
  intros u. rewrite upsert_all_last_occurrences, map_app, List.in_app_iff.
  rewrite !List.in_map_iff. split.
  - intros [(r & <- & Hr)|(r & <- & Hr)].
    + left. apply List.filter_In in Hr as [Hr _]. eauto.
    + right. apply url_in_last_occurrences in Hr.
      apply List.existsb_exists in Hr as (b & Hb & Heq).
      apply String.eqb_eq in Heq. eauto.
  - assert (Hbatch : forall b, In b batch ->
               exists r, rec_URL r = item_URL b /\ In r (last_occurrences batch)).
    { clear. induction batch as [|b0 rest IH]; intros b; simpl; [tauto|].
      destruct (existsb (fun b' => String.eqb (item_URL b') (item_URL b0)) rest) eqn:Hex.
      - intros [<-|Hb]; [|now apply IH].
        apply List.existsb_exists in Hex as (b' & Hb' & Heq).
        apply String.eqb_eq in Heq. rewrite <- Heq. now apply IH.
      - intros [<-|Hb].
        + exists (record_of b0). split; [reflexivity|now left].
        + destruct (IH b Hb) as (r & Hu & Hr). exists r. split; [exact Hu|now right]. }
    intros [(r & <- & Hr)|(b & <- & Hb)].
    + destruct (url_in batch r) eqn:Hin.
      * right. apply List.existsb_exists in Hin as (b & Hb & Heq).
        apply String.eqb_eq in Heq. rewrite <- Heq. now apply Hbatch.
      * left. exists r. split; [reflexivity|].
        apply List.filter_In. split; [exact Hr|now rewrite Hin].
    + right. now apply Hbatch.
Qed.

Lemma saveBookmarksToDB_keeps_keys_example :
  let w := snd (store_run "bookmarks.db" [example_url "Old" "http://old"]
                  (example_world [])) in
  let batch := [example_X1; example_X2] in
  let w1 := snd (saveBookmarksToDB (mkDB "bookmarks.db") batch w) in
  (stored "bookmarks.db" [mkBookmarkRecord "Old" "http://old"] w
   /\ List.NoDup (map rec_URL [mkBookmarkRecord "Old" "http://old"])
   /\ saveBookmarksToDB (mkDB "bookmarks.db") batch w = (None, w1))
  /\ exists recs1,
       stored "bookmarks.db" recs1 w1
       /\ List.NoDup (map rec_URL recs1)
       /\ In "http://old" (map rec_URL recs1) /\ In "http://x" (map rec_URL recs1).
Proof.
  intros w batch w1.
  assert (Hst : stored "bookmarks.db" [mkBookmarkRecord "Old" "http://old"] w)
    by (vm_compute; reflexivity).
  assert (Hnd : List.NoDup (map rec_URL [mkBookmarkRecord "Old" "http://old"]))
    by (repeat constructor; simpl; tauto).
  assert (Hsave : saveBookmarksToDB (mkDB "bookmarks.db") batch w = (None, w1))
    by (vm_compute; reflexivity).
  split; [auto|].
  destruct (saveBookmarksToDB_keeps_keys _ _ _ _ _ Hst Hnd Hsave)
    as (recs1 & Hst1 & Hnd1 & Hurls).
  exists recs1. split; [exact Hst1|]. split; [exact Hnd1|].
  split; apply Hurls; simpl; auto.
Defined.

